(** * The BlackRoad edge workers: payment proxy, AI gateway

    A shallow embedding of the JavaScript workers of the repository
    (the Stripe checkout worker embedded in [workerd.capnp] and
    [workers/gateway.js]) together with the properties their
    specification states about them.

    Conventions of the embedding.
    - A JavaScript string is a Rocq [string] holding its UTF-8 bytes, so
      that [TextEncoder.encode] is the identity on the bytes.  Splitting,
      joining and comparing on ASCII separators commute with that encoding.
    - A JavaScript value is a [value]; [Undefined] is a constructor of it.
      A number is an IEEE 754 double ([Double]): a literal is rounded to
      the nearest double where it is read, compared or printed.
    - The values of headers, of a request and of the text bindings that
      the workers copy into headers, are legal header values without
      white space around them, which [Headers] stores as they are.  On
      another value [Headers] trims the white space or throws a
      [TypeError]; that is outside the embedding.
    - An [async] function is a function returning the outcome of its
      promise: a returned value or a thrown error, next to the list of the
      observable events it performed.
    - Platform services (clock, outbound [fetch]) are read from a [World]. *)

From Stdlib Require Import ZArith List String Ascii Bool Lia.
From Stdlib Require Import Permutation Sorted.
Import ListNotations.

Local Open Scope string_scope.
Local Open Scope Z_scope.

(** ** Strings *)

Module Text.

Definition ascii_Z (c : ascii) : Z := Z.of_N (N_of_ascii c).
Definition Z_ascii (z : Z) : ascii := ascii_of_N (Z.to_N z).

Fixpoint bytes (s : string) : list Z :=
  match s with
  | EmptyString => []
  | String c r => ascii_Z c :: bytes r
  end.

Fixpoint of_bytes (l : list Z) : string :=
  match l with
  | [] => EmptyString
  | b :: r => String (Z_ascii b) (of_bytes r)
  end.

Fixpoint mem (c : ascii) (s : string) : bool :=
  match s with
  | EmptyString => false
  | String d r => Ascii.eqb c d || mem c r
  end.

(** [s.split(sep)] for a separator of one character: never empty, and
    a single empty piece on the empty string. *)
Fixpoint split (sep : ascii) (s : string) : list string :=
  match s with
  | EmptyString => [EmptyString]
  | String c r =>
      if Ascii.eqb c sep then EmptyString :: split sep r
      else match split sep r with
           | [] => [String c EmptyString]
           | h :: t => String c h :: t
           end
  end.

(** [parts.join(sep)] *)
Fixpoint join (sep : string) (l : list string) : string :=
  match l with
  | [] => EmptyString
  | [x] => x
  | x :: r => x ++ sep ++ join sep r
  end.

Definition is_empty (s : string) : bool :=
  match s with EmptyString => true | _ => false end.

(** [s.startsWith(p)] *)
Fixpoint starts_with (p s : string) : bool :=
  match p, s with
  | EmptyString, _ => true
  | String a p', String b s' => Ascii.eqb a b && starts_with p' s'
  | String _ _, EmptyString => false
  end.

(** [s.includes(p)] *)
Fixpoint includes (p s : string) : bool :=
  starts_with p s ||
  match s with
  | EmptyString => false
  | String _ r => includes p r
  end.

(** The rest of [s] after the prefix [p]. *)
Fixpoint after (p s : string) : option string :=
  match p, s with
  | EmptyString, _ => Some s
  | String a p', String b s' => if Ascii.eqb a b then after p' s' else None
  | String _ _, EmptyString => None
  end.

(** A lone surrogate keeps its three bytes, [ED A0..BF xx], in the text
    of a string (two surrogates that pair are one character of four
    bytes). *)
Definition surrogate_lead (b1 b2 : Z) : bool :=
  (b1 =? 0xED) && (0xA0 <=? b2) && (b2 <=? 0xBF).

Fixpoint lone_surrogate (s : string) : bool :=
  match s with
  | String c1 ((String c2 _) as r) =>
      surrogate_lead (ascii_Z c1) (ascii_Z c2) || lone_surrogate r
  | _ => false
  end.

(** The conversion to a [USVString]: U+FFFD for each lone surrogate. *)
Fixpoint usv (s : string) : string :=
  match s with
  | String c1 ((String c2 ((String _ r) as t2)) as t1) =>
      if surrogate_lead (ascii_Z c1) (ascii_Z c2)
      then of_bytes [0xEF; 0xBF; 0xBD] ++ usv r
      else String c1 (usv t1)
  | String c1 r => String c1 (usv r)
  | EmptyString => EmptyString
  end.

End Text.

(** ** The platform's HMAC-SHA-256 ([crypto.subtle.sign])

    SHA-256 after FIPS 180-4 and HMAC after RFC 2104, on bytes in [Z]
    with 32-bit words reduced by masking. *)

Module Subtle.

Definition mask32 : Z := 0xFFFFFFFF.
Definition w32 (x : Z) : Z := Z.land x mask32.
Definition add32 (x y : Z) : Z := w32 (x + y).
Definition rotr (n x : Z) : Z :=
  Z.lor (Z.shiftr x n) (w32 (Z.shiftl x (32 - n))).

Definition Ch (x y z : Z) : Z :=
  Z.lxor (Z.land x y) (Z.land (w32 (Z.lnot x)) z).
Definition Maj (x y z : Z) : Z :=
  Z.lxor (Z.lxor (Z.land x y) (Z.land x z)) (Z.land y z).
Definition bsig0 (x : Z) : Z := Z.lxor (Z.lxor (rotr 2 x) (rotr 13 x)) (rotr 22 x).
Definition bsig1 (x : Z) : Z := Z.lxor (Z.lxor (rotr 6 x) (rotr 11 x)) (rotr 25 x).
Definition ssig0 (x : Z) : Z := Z.lxor (Z.lxor (rotr 7 x) (rotr 18 x)) (Z.shiftr x 3).
Definition ssig1 (x : Z) : Z := Z.lxor (Z.lxor (rotr 17 x) (rotr 19 x)) (Z.shiftr x 10).

(** The constants are derived as FIPS 180-4 defines them: the first 32
    bits of the fractional parts of the cube roots (for the rounds) and of
    the square roots (for the initial hash) of the first primes. *)
Definition primes : list Z :=
  [ 2; 3; 5; 7; 11; 13; 17; 19; 23; 29; 31; 37; 41; 43; 47; 53; 59; 61; 67;
    71; 73; 79; 83; 89; 97; 101; 103; 107; 109; 113; 127; 131; 137; 139; 149;
    151; 157; 163; 167; 173; 179; 181; 191; 193; 197; 199; 211; 223; 227;
    229; 233; 239; 241; 251; 257; 263; 269; 271; 277; 281; 283; 293; 307;
    311 ].

(** The largest [r] below [2^n] with [r^3 <= x], bit by bit. *)
Fixpoint cube_root (n : nat) (x r : Z) : Z :=
  match n with
  | O => r
  | S m =>
      let c := r + 2 ^ Z.of_nat m in
      if c * c * c <=? x then cube_root m x c else cube_root m x r
  end.

Definition K256 : list Z :=
  Eval vm_compute in map (fun p => w32 (cube_root 36 (p * 2 ^ 96) 0)) primes.

Definition H0 : list Z :=
  Eval vm_compute in map (fun p => w32 (Z.sqrt (p * 2 ^ 64))) (firstn 8 primes).

(** Big-endian bytes of a number, [n] of them. *)
Fixpoint be_bytes (n : nat) (x : Z) : list Z :=
  match n with
  | O => []
  | S m => Z.land (Z.shiftr x (8 * Z.of_nat m)) 0xFF :: be_bytes m x
  end.

Definition pad (msg : list Z) : list Z :=
  let len := Z.of_nat (List.length msg) in
  let zeros := Z.to_nat ((55 - len) mod 64) in
  msg ++ [0x80] ++ repeat 0 zeros ++ be_bytes 8 (8 * len).

Fixpoint words (n : nat) (l : list Z) : list Z :=
  match n, l with
  | S m, a :: b :: c :: d :: r =>
      (Z.shiftl a 24 + Z.shiftl b 16 + Z.shiftl c 8 + d) :: words m r
  | _, _ => []
  end.

(** The message schedule, kept newest word first. *)
Fixpoint extend (n : nat) (rev_w : list Z) : list Z :=
  match n with
  | O => rev_w
  | S m =>
      let at_ i := nth i rev_w 0 in
      let wt := add32 (add32 (ssig1 (at_ 1%nat)) (at_ 6%nat))
                      (add32 (ssig0 (at_ 14%nat)) (at_ 15%nat)) in
      extend m (wt :: rev_w)
  end.

Definition schedule (block : list Z) : list Z :=
  rev (extend 48 (rev (words 16 block))).

Definition round (st : list Z) (kw : Z * Z) : list Z :=
  match st with
  | [a; b; c; d; e; f; g; h] =>
      let t1 := add32 (add32 (add32 h (bsig1 e)) (add32 (Ch e f g) (fst kw))) (snd kw) in
      let t2 := add32 (bsig0 a) (Maj a b c) in
      [add32 t1 t2; a; b; c; add32 d t1; e; f; g]
  | _ => st
  end.

Definition compress (h : list Z) (block : list Z) : list Z :=
  let st := fold_left round (combine K256 (schedule block)) h in
  map (fun p => add32 (fst p) (snd p)) (combine h st).

Fixpoint blocks (n : nat) (l : list Z) : list (list Z) :=
  match n with
  | O => []
  | S m => firstn 64 l :: blocks m (skipn 64 l)
  end.

Definition sha256 (msg : list Z) : list Z :=
  let p := pad msg in
  let bs := blocks (Nat.div (List.length p) 64) p in
  flat_map (be_bytes 4) (fold_left compress bs H0).

Definition fit_key (key : list Z) : list Z :=
  let k := if (64 <? Z.of_nat (List.length key)) then sha256 key else key in
  k ++ repeat 0 (64 - List.length k)%nat.

Definition hmac_sha256 (key msg : list Z) : list Z :=
  let k := fit_key key in
  let ipad := map (Z.lxor 0x36) k in
  let opad := map (Z.lxor 0x5c) k in
  sha256 (opad ++ sha256 (ipad ++ msg)).

End Subtle.

(** [b.toString(16).padStart(2, '0')] for a byte, then [join('')]. *)
Definition hex_digit (d : Z) : ascii :=
  if d <? 10 then Text.Z_ascii (48 + d) else Text.Z_ascii (87 + d).

Definition hex_byte (b : Z) : string :=
  String (hex_digit (Z.shiftr b 4)) (String (hex_digit (Z.land b 15)) EmptyString).

Fixpoint hex (l : list Z) : string :=
  match l with
  | [] => EmptyString
  | b :: r => hex_byte b ++ hex r
  end.

(** ** Numbers and their text *)

Definition digit_char (d : Z) : ascii := Text.Z_ascii (48 + d).

Fixpoint dec_digits (fuel : nat) (n : Z) (acc : string) : string :=
  match fuel with
  | O => acc
  | S f =>
      let acc' := String (digit_char (n mod 10)) acc in
      if n <? 10 then acc' else dec_digits f (n / 10) acc'
  end.

Definition dec_nat (n : Z) : string :=
  dec_digits (S (Z.to_nat (Z.log2 n))) n EmptyString.

(** [`${n}`] for an integer [n]: its decimal digits, with a sign when
    negative (what JavaScript prints for every integer a double holds
    exactly and that is below 10^21 in magnitude). *)
Definition Number_toString (n : Z) : string :=
  if n <? 0 then String "-" (dec_nat (- n)) else dec_nat n.

(** The white space [parseInt] skips ([StrWhiteSpaceChar]), on UTF-8
    bytes: TAB, LF, VT, FF, CR, SP, U+00A0, U+1680, U+2000..U+200A,
    U+2028, U+2029, U+202F, U+205F, U+3000 and U+FEFF. *)
Definition ws1 (b : Z) : bool :=
  ((9 <=? b) && (b <=? 13)) || (b =? 32).
Definition ws2 (b1 b2 : Z) : bool := (b1 =? 0xC2) && (b2 =? 0xA0).
Definition ws3 (b1 b2 b3 : Z) : bool :=
  ((b1 =? 0xE1) && (b2 =? 0x9A) && (b3 =? 0x80))
  || ((b1 =? 0xE2) && (b2 =? 0x80)
        && (((0x80 <=? b3) && (b3 <=? 0x8A)) || (b3 =? 0xA8) || (b3 =? 0xA9) || (b3 =? 0xAF)))
  || ((b1 =? 0xE2) && (b2 =? 0x81) && (b3 =? 0x9F))
  || ((b1 =? 0xE3) && (b2 =? 0x80) && (b3 =? 0x80))
  || ((b1 =? 0xEF) && (b2 =? 0xBB) && (b3 =? 0xBF)).

Fixpoint skip_ws (s : string) : string :=
  match s with
  | EmptyString => s
  | String c1 r1 =>
      if ws1 (Text.ascii_Z c1) then skip_ws r1
      else match r1 with
           | EmptyString => s
           | String c2 r2 =>
               if ws2 (Text.ascii_Z c1) (Text.ascii_Z c2) then skip_ws r2
               else match r2 with
                    | EmptyString => s
                    | String c3 r3 =>
                        if ws3 (Text.ascii_Z c1) (Text.ascii_Z c2) (Text.ascii_Z c3)
                        then skip_ws r3 else s
                    end
           end
  end.

Definition digit_val (radix : Z) (c : ascii) : option Z :=
  let b := Text.ascii_Z c in
  let v := if (48 <=? b) && (b <=? 57) then b - 48
           else if (97 <=? b) && (b <=? 122) then b - 87
           else if (65 <=? b) && (b <=? 90) then b - 55
           else 36 in
  if v <? radix then Some v else None.

(** The longest prefix of digits, [None] when it is empty. *)
Fixpoint parse_digits (radix : Z) (s : string) (acc : option Z) : option Z :=
  match s with
  | EmptyString => acc
  | String c r =>
      match digit_val radix c with
      | Some d =>
          parse_digits radix r
            (Some (match acc with Some a => a * radix + d | None => d end))
      | None => acc
      end
  end.

(** [parseInt(s)] without a radix; [None] is [NaN].  The result is the
    exact integer: a double agrees with it up to 2^53, and above that both
    are further than any tolerance from a clock reading. *)
Definition parseInt (s : string) : option Z :=
  let s1 := skip_ws s in
  let '(sign, s2) :=
    match s1 with
    | String c r =>
        if Ascii.eqb c "-" then (-1, r)
        else if Ascii.eqb c "+" then (1, r)
        else (1, s1)
    | EmptyString => (1, s1)
    end in
  let '(radix, s3) :=
    match s2 with
    | String c (String d r) =>
        if Ascii.eqb c "0" && (Ascii.eqb d "x" || Ascii.eqb d "X") then (16, r)
        else (10, s2)
    | _ => (10, s2)
    end in
  option_map (Z.mul sign) (parse_digits radix s3 None).

(** ** Numbers as the platform holds them

    A JavaScript number is an IEEE 754 double.  A finite double is kept
    as the count of its units of 2^-1074, an integer below 2^2098 in
    magnitude; the two zeros are not told apart, which no operation of
    the workers does either. *)

Module Double.

Inductive t : Type :=
| NaN
| Infinite (negative : bool)
| Finite (units : Z).

(** The number 1, and the bound 2^1024 of the finite doubles, in units. *)
Definition one : Z := 2 ^ 1074.
Definition overflow : Z := 2 ^ 2098.

(** [n / d] rounded to the nearest integer, a tie going to the even one. *)
Definition round_even (n d : Z) : Z :=
  let q := n / d in
  match 2 * (n mod d) ?= d with
  | Lt => q
  | Gt => q + 1
  | Eq => if Z.even q then q else q + 1
  end.

(** The fraction [n / d] of units rounded to 53 significant bits. *)
Definition round_units (n d : Z) : Z :=
  let q := n / d in
  let j := if q <? 2 ^ 53 then 0 else Z.log2 q - 52 in
  round_even n (d * 2 ^ j) * 2 ^ j.

(** The double nearest to the decimal [m * 10^e]. *)
Definition of_decimal (m e : Z) : t :=
  let a := Z.abs m in
  let u := if 0 <=? e then round_units (a * 10 ^ e * one) 1
           else round_units (a * one) (10 ^ (- e)) in
  if u <? overflow then Finite (Z.sgn m * u) else Infinite (m <? 0).

Definition is_zero (x : t) : bool :=
  match x with Finite u => u =? 0 | _ => false end.

Definition is_finite (x : t) : bool :=
  match x with Finite _ => true | _ => false end.

(** The sign of [a - b]; [Eq] also when the difference is [NaN]. *)
Definition sub_sign (a b : t) : comparison :=
  match a, b with
  | NaN, _ | _, NaN => Eq
  | Infinite s, Infinite s' => if Bool.eqb s s' then Eq else if s then Lt else Gt
  | Infinite s, Finite _ => if s then Lt else Gt
  | Finite _, Infinite s => if s then Gt else Lt
  | Finite x, Finite y => x ?= y
  end.

(** *** [Number::toString] *)

Definition dec_length (n : Z) : Z := Z.of_nat (String.length (dec_nat n)).

Definition reads_as (u c x : Z) : bool :=
  match of_decimal c x with Finite u' => u' =? u | _ => false end.

(** The shortest decimal [c * 10^x] that reads back as the double of
    [u] units, the nearest one when several of that length do; the
    double is [M * 10^E] exactly, [M] has [L] digits, and [k] is the
    length tried. *)
Fixpoint shortest (fuel : nat) (k u M E L : Z) : Z * Z :=
  match fuel with
  | O => (M, E)
  | S f =>
      let p := 10 ^ (L - k) in
      let lo := M / p in
      let r := M mod p in
      let x := L - k + E in
      let up := match 2 * r ?= p with
                | Lt => false
                | Gt => true
                | Eq => Z.odd lo
                end in
      if L <=? k then (M, E)
      else if reads_as u lo x && reads_as u (lo + 1) x then
        (if up then lo + 1 else lo, x)
      else if reads_as u lo x then (lo, x)
      else if reads_as u (lo + 1) x then (lo + 1, x)
      else shortest f (k + 1) u M E L
  end.

(** [p] as an odd number times a power of two. *)
Fixpoint odd_part (p : positive) : positive * Z :=
  match p with
  | xO q => let '(r, t) := odd_part q in (r, t + 1)
  | _ => (p, 0)
  end.

(** The exact decimal [M * 10^E] of [a] units, [a] positive. *)
Definition exact_decimal (a : Z) : Z * Z :=
  match a with
  | Zpos p =>
      let '(r, t) := odd_part p in
      if 1074 <=? t then (Zpos r * 2 ^ (t - 1074), 0)
      else (Zpos r * 5 ^ (1074 - t), t - 1074)
  | _ => (0, 0)
  end.

Fixpoint strip (fuel : nat) (c x : Z) : Z * Z :=
  match fuel with
  | O => (c, x)
  | S f => if (c mod 10 =? 0) && negb (c =? 0) then strip f (c / 10) (x + 1) else (c, x)
  end.

Definition zeros (n : Z) : string := Text.of_bytes (repeat 48 (Z.to_nat n)).

Definition exponent_text (x : Z) : string :=
  (if x <? 0 then "-" else "+") ++ dec_nat (Z.abs x).

(** The digits [D] of a number below [10^n] and not below [10^(n-1)],
    laid out as [Number::toString] does. *)
Definition layout (D : string) (n : Z) : string :=
  let k := Z.of_nat (String.length D) in
  if (k <=? n) && (n <=? 21) then D ++ zeros (n - k)
  else if (0 <? n) && (n <=? 21) then
    substring 0 (Z.to_nat n) D ++ "." ++ substring (Z.to_nat n) (Z.to_nat (k - n)) D
  else if (-6 <? n) && (n <=? 0) then "0." ++ zeros (- n) ++ D
  else match D with
       | String d EmptyString => String d ("e" ++ exponent_text (n - 1))
       | String d r => String d ("." ++ r ++ "e" ++ exponent_text (n - 1))
       | EmptyString => EmptyString
       end.

Definition to_text (v : t) : string :=
  match v with
  | NaN => "NaN"
  | Infinite false => "Infinity"
  | Infinite true => "-Infinity"
  | Finite u =>
      if u =? 0 then "0"
      else
        let a := Z.abs u in
        let '(M, E) := exact_decimal a in
        let '(c, x) := shortest 17 1 a M E (dec_length M) in
        let '(c1, x1) := strip (Z.to_nat (dec_length c)) c x in
        let D := dec_nat c1 in
        (if u <? 0 then "-" else EmptyString)
        ++ layout D (Z.of_nat (String.length D) + x1)
  end.

(** *** [StringToNumber] *)

(** The digits of the radix at the head of [s] appended to [acc], their
    count, and the rest. *)
Fixpoint digits (radix : Z) (s : string) (acc n : Z) : Z * Z * string :=
  match s with
  | String c r =>
      match digit_val radix c with
      | Some d => digits radix r (acc * radix + d) (n + 1)
      | None => (acc, n, s)
      end
  | EmptyString => (acc, n, s)
  end.

Definition ends (s : string) : bool := Text.is_empty (skip_ws s).

(** [0x..], [0o..], [0b..]: the whole text, without a sign. *)
Definition radix_literal (s : string) : option t :=
  match s with
  | String "0" (String c r) =>
      let radix :=
        if Ascii.eqb c "x" || Ascii.eqb c "X" then 16
        else if Ascii.eqb c "o" || Ascii.eqb c "O" then 8
        else if Ascii.eqb c "b" || Ascii.eqb c "B" then 2
        else 0 in
      if radix =? 0 then None
      else
        let '(v, n, rest) := digits radix r 0 0 in
        Some (if (0 <? n) && ends rest then of_decimal v 0 else NaN)
  | _ => None
  end.

(** Digits, an optional point and digits, an optional exponent; at
    least one digit beside the exponent. *)
Definition decimal_literal (negative : bool) (s : string) : t :=
  match Text.after "Infinity" s with
  | Some rest => if ends rest then Infinite negative else NaN
  | None =>
      let '(i, ni, s1) := digits 10 s 0 0 in
      let '(m, nf, s2) :=
        match s1 with
        | String "." r => digits 10 r i 0
        | _ => (i, 0, s1)
        end in
      if ni + nf =? 0 then NaN
      else
        let '(x, ok, s3) :=
          match s2 with
          | String c r =>
              if Ascii.eqb c "e" || Ascii.eqb c "E" then
                let '(sg, r1) :=
                  match r with
                  | String "-" r' => (-1, r')
                  | String "+" r' => (1, r')
                  | _ => (1, r)
                  end in
                let '(x, nx, r2) := digits 10 r1 0 0 in
                (sg * x, 0 <? nx, r2)
              else (0, true, s2)
          | EmptyString => (0, true, s2)
          end in
        if ok && ends s3 then of_decimal (if negative then - m else m) (x - nf) else NaN
  end.

(** [Number(text)] *)
Definition of_text (s : string) : t :=
  let s1 := skip_ws s in
  if Text.is_empty s1 then Finite 0
  else
    match radix_literal s1 with
    | Some v => v
    | None =>
        match s1 with
        | String "-" r => decimal_literal true r
        | String "+" r => decimal_literal false r
        | _ => decimal_literal false s1
        end
    end.

End Double.

(** ** Plain objects as property lists

    The own properties of an ordinary object, in creation order. *)

Module Obj.

Section Props.
Context {A : Type}.

Fixpoint get (k : string) (o : list (string * A)) : option A :=
  match o with
  | [] => None
  | (k', v) :: r => if String.eqb k k' then Some v else get k r
  end.

(** [CreateDataProperty]: an existing key keeps its place. *)
Fixpoint set (k : string) (v : A) (o : list (string * A)) : list (string * A) :=
  match o with
  | [] => [(k, v)]
  | (k', v') :: r =>
      if String.eqb k k' then (k, v) :: r else (k', v') :: set k v r
  end.

Fixpoint all_digits (s : string) : bool :=
  match s with
  | EmptyString => true
  | String c r =>
      (48 <=? Text.ascii_Z c) && (Text.ascii_Z c <=? 57) && all_digits r
  end.

(** The key is an array index: canonical decimal below 2^32 - 1. *)
Definition array_index (k : string) : option Z :=
  match k with
  | EmptyString => None
  | String c r =>
      if all_digits k && (negb (Ascii.eqb c "0") || Text.is_empty r)
      then match parse_digits 10 k None with
           | Some n => if n <? 4294967295 then Some n else None
           | None => None
           end
      else None
  end.

Fixpoint insert_index (e : Z * (string * A)) (l : list (Z * (string * A)))
  : list (Z * (string * A)) :=
  match l with
  | [] => [e]
  | x :: r => if fst e <? fst x then e :: x :: r else x :: insert_index e r
  end.

Definition index_props (o : list (string * A)) : list (Z * (string * A)) :=
  fold_right
    (fun p acc => match array_index (fst p) with
                  | Some n => insert_index (n, p) acc
                  | None => acc
                  end) [] o.

Definition name_props (o : list (string * A)) : list (string * A) :=
  filter (fun p => match array_index (fst p) with Some _ => false | None => true end) o.

(** [Object.entries(o)]: array indices ascending, then the other keys in
    creation order. *)
Definition entries (o : list (string * A)) : list (string * A) :=
  map snd (index_props o) ++ name_props o.

End Props.
End Obj.

(** ** Stripe signature verification *)

Inductive result (E A : Type) : Type :=
| Ok (a : A)
| Err (e : E).
Arguments Ok {E A} a.
Arguments Err {E A} e.

(** The four [throw new Error(...)] of [verifyStripeSignature]. *)
Inductive SigError : Type :=
| MissingHeader
| InvalidFormat
| OutsideTolerance
| SignatureMismatch.

Definition SigError_message (e : SigError) : string :=
  match e with
  | MissingHeader => "Missing stripe-signature header"
  | InvalidFormat => "Invalid stripe-signature format"
  | OutsideTolerance => "Timestamp outside tolerance window"
  | SignatureMismatch => "Signature mismatch"
  end.

(** [const [k, v] = part.split('='); acc[k] = v]: [v] is [undefined]
    ([None]) without a second piece; assigning a string or [undefined] to
    [__proto__] of a plain object changes nothing. *)
Definition sig_assign (acc : list (string * option string)) (part : string)
  : list (string * option string) :=
  let kv := Text.split "=" part in
  let k := hd EmptyString kv in
  let v := nth_error kv 1 in
  if String.eqb k "__proto__" then acc else Obj.set k v acc.

Definition sig_parts (sigHeader : string) : list (string * option string) :=
  fold_left sig_assign (Text.split "," sigHeader) [].

(** [parts.t]: a missing property and one holding [undefined] read alike. *)
Definition sig_timestamp (parts : list (string * option string)) : option string :=
  match Obj.get "t" parts with
  | Some v => v
  | None => None
  end.

Definition sig_signatures (parts : list (string * option string)) : list (option string) :=
  map snd (filter (fun kv => String.eqb (fst kv) "v1") (Obj.entries parts)).

Definition tolerance : Z := 300.

(** The hex HMAC-SHA-256 of [`${timestamp}.${payload}`] under [secret]. *)
Definition computed_signature (secret timestamp payload : string) : string :=
  let signedPayload := timestamp ++ "." ++ payload in
  hex (Subtle.hmac_sha256 (Text.bytes secret) (Text.bytes signedPayload)).

Definition option_string_eqb (a b : option string) : bool :=
  match a, b with
  | Some x, Some y => String.eqb x y
  | None, None => true
  | _, _ => false
  end.

(** [date_now] is the reading of [Date.now()], in milliseconds;
    [sigHeader] is [None] when [headers.get] gave [null].  [secret] is
    a key that [importKey] accepts, that is, not empty: the handler
    calls under a secret that is not empty only. *)
Definition verifyStripeSignature (date_now : Z) (payload : string)
    (sigHeader : option string) (secret : string) : result SigError unit :=
  match sigHeader with
  | None => Err MissingHeader
  | Some EmptyString => Err MissingHeader
  | Some header =>
      let parts := sig_parts header in
      let signatures := sig_signatures parts in
      match sig_timestamp parts with
      | None => Err InvalidFormat
      | Some EmptyString => Err InvalidFormat
      | Some timestamp =>
          if (List.length signatures =? 0)%nat then Err InvalidFormat
          else
            let now := date_now / 1000 in
            let stale :=
              match parseInt timestamp with
              | Some t => tolerance <? Z.abs (now - t)
              | None => false
              end in
            if stale then Err OutsideTolerance
            else
              let computed := computed_signature secret timestamp payload in
              if existsb (option_string_eqb (Some computed)) signatures
              then Ok tt
              else Err SignatureMismatch
      end
  end.


(** ** JavaScript values *)

Set Warnings "-register-all".

(** The values the workers handle: what [JSON.parse] builds, and
    [undefined].  A number [VNum m e] is written as the decimal
    [m * 10^e] of its literal and stands for the double nearest to it,
    [Double.of_decimal m e]; an object holds its own properties in
    creation order. *)
Inductive value : Type :=
| VUndefined
| VNull
| VBool (b : bool)
| VNum (m e : Z)
| VStr (s : string)
| VArr (items : list value)
| VObj (props : list (string * value)).

(** A thrown error: its [name] and its [message]. *)
Record JsError : Type := mkError { err_name : string; err_message : string }.

Definition Error (msg : string) : JsError := mkError "Error" msg.
Definition TypeError (msg : string) : JsError := mkError "TypeError" msg.
Definition SyntaxError (msg : string) : JsError := mkError "SyntaxError" msg.
Definition URIError (msg : string) : JsError := mkError "URIError" msg.

(** [!!v] *)
Definition truthy (v : value) : bool :=
  match v with
  | VUndefined | VNull => false
  | VBool b => b
  | VNum m e => negb (Double.is_zero (Double.of_decimal m e))
  | VStr s => negb (Text.is_empty s)
  | VArr _ | VObj _ => true
  end.

(** [a || b] *)
Definition or_else (a b : value) : value := if truthy a then a else b.

(** [v.k] for a property name [k] that no built-in prototype defines (all
    the names the workers read are such): an own property of an object,
    [undefined] on any other value, a [TypeError] on [null] and
    [undefined]. *)
Definition member (v : value) (k : string) : result JsError value :=
  match v with
  | VUndefined =>
      Err (TypeError ("Cannot read properties of undefined (reading '" ++ k ++ "')"))
  | VNull =>
      Err (TypeError ("Cannot read properties of null (reading '" ++ k ++ "')"))
  | VObj props =>
      Ok (match Obj.get k props with Some x => x | None => VUndefined end)
  | _ => Ok VUndefined
  end.

(** [v?.k] *)
Definition opt_member (v : value) (k : string) : value :=
  match member v k with
  | Ok x => x
  | Err _ => VUndefined
  end.

(** [`${x}`] for a number. *)
Definition Number_render (m e : Z) : string :=
  Double.to_text (Double.of_decimal m e).

Definition no_primitive : JsError :=
  TypeError "Cannot convert object to primitive value".

Definition has_own (k : string) (props : list (string * value)) : bool :=
  match Obj.get k props with
  | Some _ => true
  | None => false
  end.

Fixpoint join_results (sep : string) (l : list (result JsError string))
  : result JsError string :=
  match l with
  | [] => Ok EmptyString
  | [x] => x
  | x :: r =>
      match x with
      | Err e => Err e
      | Ok s =>
          match join_results sep r with
          | Ok t => Ok (s ++ sep ++ t)
          | Err e => Err e
          end
      end
  end.

(** [String(v)], as a template literal applies it.  An array joins its
    items with commas, [null] and [undefined] items printing empty.  An
    object prints through [Object.prototype.toString] unless an own
    [toString] property, never callable in parsed data, hides it; then
    neither it nor [valueOf] yields a primitive. *)
Fixpoint ToString (v : value) : result JsError string :=
  match v with
  | VUndefined => Ok "undefined"
  | VNull => Ok "null"
  | VBool true => Ok "true"
  | VBool false => Ok "false"
  | VNum m e => Ok (Number_render m e)
  | VStr s => Ok s
  | VArr items =>
      join_results ","
        (map (fun x => match x with
                       | VUndefined | VNull => Ok EmptyString
                       | _ => ToString x
                       end) items)
  | VObj props =>
      if has_own "toString" props then Err no_primitive
      else Ok "[object Object]"
  end.

(** ** [JSON.parse] *)

Module JSON.

Definition is_ws (c : ascii) : bool :=
  let b := Text.ascii_Z c in
  (b =? 32) || (b =? 9) || (b =? 10) || (b =? 13).

Fixpoint skip_ws (s : string) : string :=
  match s with
  | String c r => if is_ws c then skip_ws r else s
  | EmptyString => s
  end.

(** UTF-8 of a code point (a lone surrogate is kept, in three bytes). *)
Definition utf8 (cp : Z) : string :=
  Text.of_bytes
    (if cp <? 0x80 then [cp]
     else if cp <? 0x800 then [0xC0 + cp / 64; 0x80 + cp mod 64]
     else if cp <? 0x10000 then
       [0xE0 + cp / 4096; 0x80 + (cp / 64) mod 64; 0x80 + cp mod 64]
     else
       [0xF0 + cp / 262144; 0x80 + (cp / 4096) mod 64;
        0x80 + (cp / 64) mod 64; 0x80 + cp mod 64]).

Definition hex4 (a b c d : ascii) : option Z :=
  match digit_val 16 a, digit_val 16 b, digit_val 16 c, digit_val 16 d with
  | Some x, Some y, Some z, Some w => Some (((x * 16 + y) * 16 + z) * 16 + w)
  | _, _, _, _ => None
  end.

Definition is_high (u : Z) : bool := (0xD800 <=? u) && (u <=? 0xDBFF).
Definition is_low (u : Z) : bool := (0xDC00 <=? u) && (u <=? 0xDFFF).

Definition simple_escape (c : ascii) : option ascii :=
  match c with
  | "034"%char => Some "034"%char
  | "\"%char => Some "\"%char
  | "/"%char => Some "/"%char
  | "b"%char => Some "008"%char
  | "f"%char => Some "012"%char
  | "n"%char => Some "010"%char
  | "r"%char => Some "013"%char
  | "t"%char => Some "009"%char
  | _ => None
  end.

Definition prepend (p : string) (r : option (string * string)) : option (string * string) :=
  match r with
  | Some (s, rest) => Some (p ++ s, rest)
  | None => None
  end.

(** The characters of a string literal after its opening quote, and what
    follows the closing quote. *)
Fixpoint string_body (s : string) : option (string * string) :=
  match s with
  | EmptyString => None
  | String c r =>
      if Ascii.eqb c "034" then Some (EmptyString, r)
      else if Ascii.eqb c "\" then
        match r with
        | String "u" (String a (String b (String c1 (String d r1)))) =>
            match hex4 a b c1 d with
            | None => None
            | Some u =>
                let alone := prepend (utf8 u) (string_body r1) in
                if is_high u then
                  match r1 with
                  | String "\" (String "u" (String a2 (String b2 (String c2 (String d2 r2))))) =>
                      match hex4 a2 b2 c2 d2 with
                      | Some l =>
                          if is_low l
                          then prepend (utf8 (0x10000 + (u - 0xD800) * 1024 + (l - 0xDC00)))
                                       (string_body r2)
                          else alone
                      | None => alone
                      end
                  | _ => alone
                  end
                else alone
            end
        | String e r1 =>
            match simple_escape e with
            | Some x => prepend (String x EmptyString) (string_body r1)
            | None => None
            end
        | EmptyString => None
        end
      else if Text.ascii_Z c <? 32 then None
      else prepend (String c EmptyString) (string_body r)
  end.

Definition is_digit (c : ascii) : bool :=
  (48 <=? Text.ascii_Z c) && (Text.ascii_Z c <=? 57).

(** The digits at the head of [s] appended to [acc], their count, the rest. *)
Fixpoint digits (s : string) (acc : Z) (n : Z) : Z * Z * string :=
  match s with
  | String c r =>
      if is_digit c then digits r (acc * 10 + (Text.ascii_Z c - 48)) (n + 1)
      else (acc, n, s)
  | EmptyString => (acc, n, s)
  end.

(** A number literal: an optional minus; 0 or a digit string without a
    leading 0; an optional point with digits; an optional exponent. *)
Definition number (s : string) : option (value * string) :=
  let '(neg, s1) :=
    match s with
    | String "-" r => (true, r)
    | _ => (false, s)
    end in
  let int_part :=
    match s1 with
    | String "0" r => Some (0, r)
    | String c _ => if is_digit c then let '(i, _, r) := digits s1 0 0 in Some (i, r) else None
    | EmptyString => None
    end in
  match int_part with
  | None => None
  | Some (i, s2) =>
      let frac :=
        match s2 with
        | String "." r =>
            let '(m, n, r') := digits r i 0 in
            if n =? 0 then None else Some (m, n, r')
        | _ => Some (i, 0, s2)
        end in
      match frac with
      | None => None
      | Some (m, n, s3) =>
          let expo :=
            match s3 with
            | String c r =>
                if Ascii.eqb c "e" || Ascii.eqb c "E" then
                  let '(sg, r1) :=
                    match r with
                    | String "-" r' => (-1, r')
                    | String "+" r' => (1, r')
                    | _ => (1, r)
                    end in
                  let '(x, k, r2) := digits r1 0 0 in
                  if k =? 0 then None else Some (sg * x, r2)
                else Some (0, s3)
            | EmptyString => Some (0, s3)
            end in
          match expo with
          | None => None
          | Some (x, s4) => Some (VNum (if neg then - m else m) (x - n), s4)
          end
      end
  end.

Section Items.
Variable element : string -> option (value * string).

(** After [[] or a comma: an element, then a comma or the closing bracket. *)
Fixpoint elements (fuel : nat) (s : string) (acc : list value)
  : option (list value * string) :=
  match fuel with
  | O => None
  | S f =>
      match element s with
      | None => None
      | Some (v, r) =>
          match skip_ws r with
          | String "," r' => elements f r' (acc ++ [v])%list
          | String "]" r' => Some ((acc ++ [v])%list, r')
          | _ => None
          end
      end
  end.

(** After [{] or a comma: a name, a colon, an element, then a comma or
    the closing brace.  A repeated name overwrites in place. *)
Fixpoint members (fuel : nat) (s : string) (acc : list (string * value))
  : option (list (string * value) * string) :=
  match fuel with
  | O => None
  | S f =>
      match skip_ws s with
      | String "034" r =>
          match string_body r with
          | None => None
          | Some (k, r1) =>
              match skip_ws r1 with
              | String ":" r2 =>
                  match element r2 with
                  | None => None
                  | Some (v, r3) =>
                      match skip_ws r3 with
                      | String "," r4 => members f r4 (Obj.set k v acc)
                      | String "}" r4 => Some (Obj.set k v acc, r4)
                      | _ => None
                      end
                  end
              | _ => None
              end
          end
      | _ => None
      end
  end.

End Items.

Fixpoint element (fuel : nat) (s : string) : option (value * string) :=
  match fuel with
  | O => None
  | S f =>
      let s0 := skip_ws s in
      match s0 with
      | String "[" r =>
          match skip_ws r with
          | String "]" r' => Some (VArr [], r')
          | _ =>
              match elements (element f) (String.length r) r [] with
              | Some (l, r') => Some (VArr l, r')
              | None => None
              end
          end
      | String "{" r =>
          match skip_ws r with
          | String "}" r' => Some (VObj [], r')
          | _ =>
              match members (element f) (String.length r) r [] with
              | Some (l, r') => Some (VObj l, r')
              | None => None
              end
          end
      | String "034" r =>
          match string_body r with
          | Some (x, r') => Some (VStr x, r')
          | None => None
          end
      | String "t" _ => option_map (pair (VBool true)) (Text.after "true" s0)
      | String "f" _ => option_map (pair (VBool false)) (Text.after "false" s0)
      | String "n" _ => option_map (pair VNull) (Text.after "null" s0)
      | _ => number s0
      end
  end.

(** [JSON.parse(text)]; [None] is a [SyntaxError]. *)
Definition parse (text : string) : option value :=
  match element (S (String.length text)) text with
  | Some (v, r) => if Text.is_empty (skip_ws r) then Some v else None
  | None => None
  end.

End JSON.

(** ** Requests, responses and the world outside *)

Inductive Body : Type :=
| NoBody
| Text (s : string)
| Json (v : value).

Record Response : Type := mkResponse {
  status : Z;
  res_headers : list (string * string);
  res_body : Body
}.

(** An inbound request.  Header names are in lower case, as [Headers]
    keeps them; [searchParams] is the decoded query of the URL. *)
Record Request : Type := mkRequest {
  method : string;
  pathname : string;
  search : string;
  searchParams : list (string * string);
  req_headers : list (string * string);
  req_body : option string
}.

(** The text and secret bindings of the workers; [None] is an absent
    binding. *)
Record Env : Type := mkEnv {
  STRIPE_SECRET_KEY : option string;
  STRIPE_WEBHOOK_SECRET : option string;
  ALLOWED_ORIGIN : option string;
  ANTHROPIC_API_KEY : option string;
  OPENAI_API_KEY : option string
}.

Record FetchRequest : Type := mkFetch {
  f_url : string;
  f_method : string;
  f_headers : list (string * string);
  f_body : option string
}.

Inductive FetchOutcome : Type :=
| Responded (r : Response)
| Rejected (e : JsError).

(** The clock, as milliseconds and as the ISO text the platform prints
    for it, and the network behind the global [fetch]. *)
Record World : Type := mkWorld {
  Date_now : Z;
  Date_iso : string;
  net : FetchRequest -> FetchOutcome
}.

(** What a handler does that can be observed from outside it. *)
Inductive Event : Type :=
| Fetched (r : FetchRequest)
| Logged (line : string)
| LoggedError (label : string) (e : JsError)
| Verifying (payload : string) (sigHeader : option string)
| Parsing (text : string).

(** The outcome of an [async] function: the events so far, and a value
    or the error thrown. *)
Definition M (A : Type) : Type := list Event * result JsError A.

Definition ret {A} (a : A) : M A := ([], Ok a).
Definition throw {A} (e : JsError) : M A := ([], Err e).
Definition emit (ev : Event) : M unit := ([ev], Ok tt).
Definition lift {A} (r : result JsError A) : M A := ([], r).

Definition bind {A B} (c : M A) (k : A -> M B) : M B :=
  match c with
  | (t, Ok a) => let '(t', r) := k a in ((t ++ t')%list, r)
  | (t, Err e) => (t, Err e)
  end.

(** [try { c } catch (err) { h err }] *)
Definition catch {A} (c : M A) (h : JsError -> M A) : M A :=
  match c with
  | (t, Ok a) => (t, Ok a)
  | (t, Err e) => let '(t', r) := h e in ((t ++ t')%list, r)
  end.

Notation "x <- c ;; k" := (bind c (fun x => k))
  (at level 61, c at next level, right associativity).
Notation "c ;;; k" := (bind c (fun _ => k))
  (at level 61, right associativity).

Definition events {A} (c : M A) : list Event := fst c.
Definition outcome {A} (c : M A) : result JsError A := snd c.

Definition env_value (o : option string) : value :=
  match o with Some s => VStr s | None => VUndefined end.

(** [headers.get(name)]: [null] when absent. *)
Definition header_value (name : string) (h : list (string * string)) : value :=
  match Obj.get name h with Some s => VStr s | None => VNull end.

(** [JSON.stringify] keeps no property holding [undefined], prints
    [undefined] in an array as [null], and a number that is not finite
    as [null]. *)
Definition is_undefined (v : value) : bool :=
  match v with VUndefined => true | _ => false end.

Fixpoint json_view (v : value) : value :=
  match v with
  | VArr items =>
      VArr (map (fun x => if is_undefined x then VNull else json_view x) items)
  | VObj props =>
      VObj (Obj.entries
              (flat_map (fun p => let '(k, x) := p in
                                  if is_undefined x then [] else [(k, json_view x)])
                        props))
  | VNum m e => if Double.is_finite (Double.of_decimal m e) then v else VNull
  | _ => v
  end.

(** [Response.json(data, { status, headers })] *)
Definition Response_json (data : value) (st : Z) (init : list (string * string)) : Response :=
  mkResponse st
    (match Obj.get "content-type" init with
     | Some _ => init
     | None => (init ++ [("content-type", "application/json")])%list
     end)
    (Json (json_view data)).

(** [new Response(text, { status })] *)
Definition Response_text (text : string) (st : Z) : Response :=
  mkResponse st [("content-type", "text/plain;charset=UTF-8")] (Text text).

(** [await request.text()] *)
Definition request_text (request : Request) : string :=
  match req_body request with Some s => s | None => EmptyString end.

(** [await request.json()]; a fixed text stands for the message of the
    [SyntaxError], which the platform words after the offending text. *)
Definition request_json (request : Request) : M value :=
  emit (Parsing (request_text request)) ;;;
  match JSON.parse (request_text request) with
  | Some v => ret v
  | None => throw (SyntaxError "Unexpected token in JSON")
  end.

(** [await res.json()] *)
Definition response_json (res : Response) : M value :=
  match res_body res with
  | Json v => ret v
  | Text s =>
      match JSON.parse s with
      | Some v => ret v
      | None => throw (SyntaxError "Unexpected token in JSON")
      end
  | NoBody => throw (SyntaxError "Unexpected end of JSON input")
  end.

(** [await fetch(url, options)] *)
Definition fetch_out (w : World) (r : FetchRequest) : M Response :=
  emit (Fetched r) ;;;
  match net w r with
  | Responded res => ret res
  | Rejected e => throw e
  end.

(** [Object.entries(v)] of any value. *)
Definition indexed {A} (l : list A) : list (string * A) :=
  combine (map (fun i => Number_toString (Z.of_nat i)) (seq 0 (List.length l))) l.

(** The code units of a string, each as a string: a character of one
    to three bytes is one unit, a character of four bytes the two
    surrogates of its pair. *)
Fixpoint chars (s : string) : list value :=
  match s with
  | EmptyString => []
  | String c1 r1 =>
      let b1 := Text.ascii_Z c1 in
      if b1 <? 0xC0 then VStr (String c1 EmptyString) :: chars r1
      else
        match r1 with
        | EmptyString => [VStr s]
        | String c2 r2 =>
            if b1 <? 0xE0 then VStr (String c1 (String c2 EmptyString)) :: chars r2
            else
              match r2 with
              | EmptyString => [VStr s]
              | String c3 r3 =>
                  if b1 <? 0xF0 then
                    VStr (String c1 (String c2 (String c3 EmptyString))) :: chars r3
                  else
                    match r3 with
                    | EmptyString => [VStr s]
                    | String c4 r4 =>
                        let cp := (b1 mod 8) * 262144 + (Text.ascii_Z c2 mod 64) * 4096
                                  + (Text.ascii_Z c3 mod 64) * 64 + Text.ascii_Z c4 mod 64 in
                        VStr (JSON.utf8 (0xD800 + (cp - 0x10000) / 1024))
                        :: VStr (JSON.utf8 (0xDC00 + (cp - 0x10000) mod 1024))
                        :: chars r4
                    end
              end
        end
  end.

Definition Object_entries (v : value) : result JsError (list (string * value)) :=
  match v with
  | VUndefined | VNull => Err (TypeError "Cannot convert undefined or null to object")
  | VObj props => Ok (Obj.entries props)
  | VArr items => Ok (indexed items)
  | VStr s => Ok (indexed (chars s))
  | VBool _ | VNum _ _ => Ok []
  end.

(** The [application/x-www-form-urlencoded] serialisation of
    [new URLSearchParams(record).toString()]; names and values are
    converted to [USVString] when the record is read. *)
Definition upper_hex_digit (d : Z) : ascii :=
  if d <? 10 then Text.Z_ascii (48 + d) else Text.Z_ascii (55 + d).

Definition percent (b : Z) : string :=
  String "%" (String (upper_hex_digit (Z.shiftr b 4))
               (String (upper_hex_digit (Z.land b 15)) EmptyString)).

Definition alnum (b : Z) : bool :=
  ((48 <=? b) && (b <=? 57)) || ((65 <=? b) && (b <=? 90)) || ((97 <=? b) && (b <=? 122)).

Definition form_safe (b : Z) : bool :=
  alnum b || (b =? 42) || (b =? 45) || (b =? 46) || (b =? 95).

Fixpoint form_encode (s : string) : string :=
  match s with
  | EmptyString => EmptyString
  | String c r =>
      let b := Text.ascii_Z c in
      (if b =? 32 then "+"
       else if form_safe b then String c EmptyString
       else percent b) ++ form_encode r
  end.

Fixpoint form_pairs (l : list (string * value)) : result JsError (list string) :=
  match l with
  | [] => Ok []
  | (k, v) :: r =>
      match ToString v with
      | Err e => Err e
      | Ok s =>
          match form_pairs r with
          | Err e => Err e
          | Ok t => Ok ((form_encode (Text.usv k) ++ "=" ++ form_encode (Text.usv s)) :: t)
          end
      end
  end.

Definition URLSearchParams_toString (record : list (string * value))
  : result JsError string :=
  match form_pairs (Obj.entries record) with
  | Ok l => Ok (Text.join "&" l)
  | Err e => Err e
  end.

(** ** The Stripe checkout worker *)

Definition CORS_HEADERS (origin : value) : list (string * value) :=
  [ ("access-control-allow-origin", or_else origin (VStr "*"));
    ("access-control-allow-methods", VStr "GET, POST, OPTIONS");
    ("access-control-allow-headers", VStr "Content-Type, Authorization");
    ("access-control-max-age", VStr "86400") ].

Definition text_of (v : value) : string :=
  match ToString v with Ok s => s | Err _ => EmptyString end.

Definition header_list (h : list (string * value)) : list (string * string) :=
  map (fun p => (fst p, text_of (snd p))) h.

Definition res_ok (res : Response) : bool :=
  (200 <=? status res) && (status res <=? 299).

Definition stripeRequest (w : World) (env : Env) (meth path : string)
    (body : option (list (string * value))) : M value :=
  let url := "https://api.stripe.com/v1" ++ path in
  let headers :=
    [ ("authorization", "Bearer " ++ text_of (env_value (STRIPE_SECRET_KEY env)));
      ("content-type", "application/x-www-form-urlencoded") ] in
  encoded <- lift (match body with
                   | Some b =>
                       match URLSearchParams_toString b with
                       | Ok s => Ok (Some s)
                       | Err e => Err e
                       end
                   | None => Ok None
                   end) ;;
  res <- fetch_out w (mkFetch url meth headers encoded) ;;
  data <- response_json res ;;
  if negb (res_ok res) then
    err <- lift (member data "error") ;;
    msg <- lift (ToString (or_else (opt_member err "message")
                                   (VStr ("Stripe error: " ++ Number_toString (status res))))) ;;
    throw (Error msg)
  else ret data.

(** [const { a, b } = source] throws on [null] and [undefined]; the
    message names the first property and the text of [source]. *)
Definition destructurable (property source : string) (v : value) : result JsError unit :=
  let message what :=
    "Cannot destructure property '" ++ property ++ "' of '" ++ source
    ++ "' as it is " ++ what ++ "." in
  match v with
  | VUndefined => Err (TypeError (message "undefined"))
  | VNull => Err (TypeError (message "null"))
  | _ => Ok tt
  end.

Definition field (v : value) (k : string) : value :=
  match member v k with Ok x => x | Err _ => VUndefined end.

Definition default_origin : string := "https://blackroad-brand-kit.pages.dev".

Definition checkout_params (price_id successUrl cancelUrl customer_email : value)
    (metadata : list (string * value)) : list (string * value) :=
  let literal :=
    [ ("mode", VStr "subscription");
      ("line_items[0][price]", price_id);
      ("line_items[0][quantity]", VStr "1");
      ("success_url", successUrl);
      ("cancel_url", cancelUrl);
      ("automatic_tax[enabled]", VStr "true");
      ("subscription_data[metadata][source]", VStr "blackroad-brand-kit") ] in
  let fromEntries :=
    fold_left (fun o p => Obj.set ("metadata[" ++ fst p ++ "]") (snd p) o) metadata [] in
  let params := fold_left (fun o p => Obj.set (fst p) (snd p) o) (Obj.entries fromEntries) literal in
  if truthy customer_email then Obj.set "customer_email" customer_email params else params.

Definition handleCheckout (w : World) (request : Request) (env : Env) : M Response :=
  body <- request_json request ;;
  lift (destructurable "price_id" "body" body) ;;;
  let price_id := field body "price_id" in
  let success_url := field body "success_url" in
  let cancel_url := field body "cancel_url" in
  let customer_email := field body "customer_email" in
  let metadata := match field body "metadata" with VUndefined => VObj [] | m => m end in
  if negb (truthy price_id) then
    ret (Response_json (VObj [("error", VStr "price_id is required")]) 400 [])
  else
    let origin :=
      text_of (or_else (or_else (header_value "origin" (req_headers request))
                                (env_value (ALLOWED_ORIGIN env)))
                       (VStr default_origin)) in
    let successUrl :=
      or_else success_url (VStr (origin ++ "/success?session_id={CHECKOUT_SESSION_ID}")) in
    let cancelUrl := or_else cancel_url (VStr (origin ++ "/pricing")) in
    entries <- lift (Object_entries metadata) ;;
    let params := checkout_params price_id successUrl cancelUrl customer_email entries in
    session <- stripeRequest w env "POST" "/checkout/sessions" (Some params) ;;
    url <- lift (member session "url") ;;
    id <- lift (member session "id") ;;
    ret (Response_json (VObj [("url", url); ("session_id", id)]) 200 []).

Definition handlePortal (w : World) (request : Request) (env : Env) : M Response :=
  body <- request_json request ;;
  lift (destructurable "customer_id" "(intermediate value)" body) ;;;
  let customer_id := field body "customer_id" in
  let return_url := field body "return_url" in
  if negb (truthy customer_id) then
    ret (Response_json (VObj [("error", VStr "customer_id is required")]) 400 [])
  else
    let origin :=
      text_of (or_else (header_value "origin" (req_headers request))
                       (env_value (ALLOWED_ORIGIN env))) in
    session <- stripeRequest w env "POST" "/billing_portal/sessions"
                 (Some [ ("customer", customer_id);
                         ("return_url", or_else return_url (VStr (origin ++ "/account"))) ]) ;;
    url <- lift (member session "url") ;;
    ret (Response_json (VObj [("url", url)]) 200 []).

(** *** [GET /prices] *)

(** [Number(v)]: an array or an object converts through its text. *)
Definition ToNumber (v : value) : result JsError Double.t :=
  match v with
  | VUndefined => Ok Double.NaN
  | VNull => Ok (Double.Finite 0)
  | VBool b => Ok (Double.Finite (if b then Double.one else 0))
  | VNum m e => Ok (Double.of_decimal m e)
  | VStr s => Ok (Double.of_text s)
  | VArr _ | VObj _ =>
      match ToString v with
      | Ok s => Ok (Double.of_text s)
      | Err e => Err e
      end
  end.

(** The comparator [(a, b) => (a.amount || 0) - (b.amount || 0)], as the
    sign of its result; a [NaN] counts as zero, as [sort] takes it. *)
Definition by_amount (a b : value) : result JsError comparison :=
  match ToNumber (or_else (field a "amount") (VNum 0 0)) with
  | Err e => Err e
  | Ok x =>
      match ToNumber (or_else (field b "amount") (VNum 0 0)) with
      | Err e => Err e
      | Ok y => Ok (Double.sub_sign x y)
      end
  end.

(** [Array.prototype.sort] is stable; with a comparator that is a total
    preorder the result is the one of any stable sort, here by
    insertion: an item passes those strictly smaller only.  An error of
    the comparator ends the sort. *)
Fixpoint sort_insert (cmp : value -> value -> result JsError comparison)
    (x : value) (l : list value) : result JsError (list value) :=
  match l with
  | [] => Ok [x]
  | y :: r =>
      match cmp y x with
      | Err e => Err e
      | Ok Lt =>
          match sort_insert cmp x r with
          | Ok t => Ok (y :: t)
          | Err e => Err e
          end
      | Ok _ => Ok (x :: l)
      end
  end.

Fixpoint Array_sort (cmp : value -> value -> result JsError comparison) (l : list value)
  : result JsError (list value) :=
  match l with
  | [] => Ok []
  | x :: r =>
      match Array_sort cmp r with
      | Ok t => sort_insert cmp x t
      | Err e => Err e
      end
  end.

(** [p => p.product && !p.product.deleted] *)
Definition price_kept (p : value) : result JsError bool :=
  match member p "product" with
  | Err e => Err e
  | Ok product => Ok (truthy product && negb (truthy (field product "deleted")))
  end.

Fixpoint Array_filter (f : value -> result JsError bool) (l : list value)
  : result JsError (list value) :=
  match l with
  | [] => Ok []
  | x :: r =>
      match f x with
      | Err e => Err e
      | Ok b =>
          match Array_filter f r with
          | Err e => Err e
          | Ok t => Ok (if b then x :: t else t)
          end
      end
  end.

Definition price_view (p : value) : value :=
  let product := field p "product" in
  VObj [ ("id", field p "id");
         ("amount", field p "unit_amount");
         ("currency", field p "currency");
         ("interval", opt_member (field p "recurring") "interval");
         ("interval_count", opt_member (field p "recurring") "interval_count");
         ("product",
          VObj [ ("id", field product "id");
                 ("name", field product "name");
                 ("description", field product "description");
                 ("metadata", field product "metadata") ]) ].

(** [prices.data.filter(...).map(...).sort(...)] *)
Definition listPrices (data : value) : result JsError (list value) :=
  match data with
  | VArr items =>
      match Array_filter price_kept items with
      | Err e => Err e
      | Ok kept => Array_sort by_amount (map price_view kept)
      end
  | VUndefined => Err (TypeError "Cannot read properties of undefined (reading 'filter')")
  | VNull => Err (TypeError "Cannot read properties of null (reading 'filter')")
  | _ => Err (TypeError "prices.data.filter is not a function")
  end.

Definition handlePrices (w : World) (env : Env) : M Response :=
  prices <- stripeRequest w env "GET" "/prices?active=true&expand[]=data.product&limit=20" None ;;
  data <- lift (member prices "data") ;;
  formatted <- lift (listPrices data) ;;
  ret (Response_json (VObj [("prices", VArr formatted)]) 200 []).

(** *** [POST /webhook] *)

Definition log (line : string) : M unit := emit (Logged line).

(** The [switch (event.type)] of the handler, with its [console.log]. *)
Definition dispatch_event (event : value) : M unit :=
  type_ <- lift (member event "type") ;;
  let kind_is k := match type_ with VStr s => String.eqb s k | _ => false end in
  let data_object :=
    data <- lift (member event "data") ;;
    lift (member data "object") in
  if kind_is "checkout.session.completed" then
    session <- data_object ;;
    id <- lift (member session "id") ;;
    s_id <- lift (ToString id) ;;
    customer <- lift (member session "customer") ;;
    s_customer <- lift (ToString customer) ;;
    log ("✓ Checkout completed: " ++ s_id ++ " | customer: " ++ s_customer)
  else if kind_is "customer.subscription.created" || kind_is "customer.subscription.updated" then
    sub <- data_object ;;
    s_type <- lift (ToString type_) ;;
    id <- lift (member sub "id") ;;
    s_id <- lift (ToString id) ;;
    st <- lift (member sub "status") ;;
    s_st <- lift (ToString st) ;;
    log ("✓ Subscription " ++ s_type ++ ": " ++ s_id ++ " | status: " ++ s_st)
  else if kind_is "customer.subscription.deleted" then
    sub <- data_object ;;
    id <- lift (member sub "id") ;;
    s_id <- lift (ToString id) ;;
    log ("✓ Subscription cancelled: " ++ s_id)
  else if kind_is "invoice.payment_failed" then
    invoice <- data_object ;;
    id <- lift (member invoice "id") ;;
    s_id <- lift (ToString id) ;;
    customer <- lift (member invoice "customer") ;;
    s_customer <- lift (ToString customer) ;;
    log ("✗ Payment failed: " ++ s_id ++ " | customer: " ++ s_customer)
  else if kind_is "invoice.payment_succeeded" then
    invoice <- data_object ;;
    id <- lift (member invoice "id") ;;
    s_id <- lift (ToString id) ;;
    log ("✓ Payment succeeded: " ++ s_id)
  else
    s_type <- lift (ToString type_) ;;
    log ("Unhandled event: " ++ s_type).

Definition acknowledgement : Response :=
  Response_json (VObj [("received", VBool true)]) 200 [].

Definition handleWebhook (w : World) (request : Request) (env : Env) : M Response :=
  let signature := Obj.get "stripe-signature" (req_headers request) in
  let body := request_text request in
  rejected <-
    (if truthy (env_value (STRIPE_WEBHOOK_SECRET env)) then
       emit (Verifying body signature) ;;;
       match verifyStripeSignature (Date_now w) body signature
               (text_of (env_value (STRIPE_WEBHOOK_SECRET env))) with
       | Ok _ => ret None
       | Err err =>
           ret (Some (Response_text
                        ("Webhook signature verification failed: " ++ SigError_message err)
                        400))
       end
     else ret None) ;;
  match rejected with
  | Some response => ret response
  | None =>
      emit (Parsing body) ;;;
      match JSON.parse body with
      | None => ret (Response_text "Invalid JSON" 400)
      | Some event =>
          dispatch_event event ;;;
          ret acknowledgement
      end
  end.

(** *** The main handler *)

(** A response the handler returns as it is, or one that still gets
    the CORS headers. *)
Inductive Routed : Type :=
| Direct (response : Response)
| Plain (response : Response).

Definition routes : value :=
  VArr [VStr "/health"; VStr "/checkout"; VStr "/portal"; VStr "/webhook"; VStr "/prices"].

Definition route (w : World) (request : Request) (env : Env) : M Routed :=
  let m := method request in
  let path := pathname request in
  if String.eqb path "/health" then
    ret (Plain (Response_json
                  (VObj [ ("status", VStr "ok"); ("worker", VStr "stripe-checkout");
                          ("time", VStr (Date_iso w)) ]) 200 []))
  else if String.eqb m "POST" && String.eqb path "/checkout" then
    response <- handleCheckout w request env ;; ret (Plain response)
  else if String.eqb m "POST" && String.eqb path "/portal" then
    response <- handlePortal w request env ;; ret (Plain response)
  else if String.eqb m "POST" && String.eqb path "/webhook" then
    response <- handleWebhook w request env ;; ret (Direct response)
  else if String.eqb m "GET" && String.eqb path "/prices" then
    response <- handlePrices w env ;; ret (Plain response)
  else
    ret (Plain (Response_json (VObj [("error", VStr "Not found"); ("routes", routes)]) 404 [])).

(** [new Headers(response.headers)], [headers.set(k, v)] for each of
    the [extra] headers, and the response rebuilt with them. *)
Definition with_headers (extra : list (string * string)) (response : Response) : Response :=
  mkResponse (status response)
    (fold_left (fun h p => Obj.set (fst p) (snd p) h) extra (res_headers response))
    (res_body response).

Definition fetch (w : World) (request : Request) (env : Env) : M Response :=
  let origin :=
    or_else (or_else (header_value "origin" (req_headers request))
                     (env_value (ALLOWED_ORIGIN env)))
            (VStr "*") in
  let cors := header_list (CORS_HEADERS origin) in
  if String.eqb (method request) "OPTIONS" then
    ret (mkResponse 204 cors NoBody)
  else if negb (truthy (env_value (STRIPE_SECRET_KEY env))) then
    ret (Response_json
           (VObj [("error",
                   VStr "Stripe not configured. Set STRIPE_SECRET_KEY in worker environment.")])
           503 cors)
  else
    routed <- catch (route w request env)
                (fun err =>
                   emit (LoggedError "Worker error:" err) ;;;
                   ret (Plain (Response_json (VObj [("error", VStr (err_message err))]) 500 []))) ;;
    match routed with
    | Direct response => ret response
    | Plain response => ret (with_headers cors response)
    end.

(** ** The AI gateway worker *)

Module Gateway.

Definition BACKENDS : list (string * string) :=
  [ ("ollama", "http://127.0.0.1:11434");
    ("claude", "https://api.anthropic.com");
    ("openai", "https://api.openai.com") ].

(** What [BACKENDS[provider]] reads: a configured origin, or a member
    that every object inherits from [Object.prototype]. *)
Inductive Backend : Type :=
| Configured (origin : string)
| Inherited (name : string).

Definition prototype_members : list string :=
  [ "constructor"; "__defineGetter__"; "__defineSetter__"; "hasOwnProperty";
    "__lookupGetter__"; "__lookupSetter__"; "isPrototypeOf";
    "propertyIsEnumerable"; "toString"; "valueOf"; "__proto__"; "toLocaleString" ].

Definition lookup (provider : string) : option Backend :=
  match Obj.get provider BACKENDS with
  | Some origin => Some (Configured origin)
  | None =>
      if existsb (String.eqb provider) prototype_members
      then Some (Inherited provider) else None
  end.

(** [`${backend}`] *)
Definition Backend_text (b : Backend) : string :=
  match b with
  | Configured origin => origin
  | Inherited name =>
      if String.eqb name "__proto__" then "[object Object]"
      else "function " ++ (if String.eqb name "constructor" then "Object" else name)
           ++ "() { [native code] }"
  end.

(** The backend as a property of a JSON payload: a function is left out. *)
Definition Backend_value (b : Backend) : value :=
  match b with
  | Configured origin => VStr origin
  | Inherited name => if String.eqb name "__proto__" then VObj [] else VUndefined
  end.

Definition fetch (w : World) (request : Request) (env : Env) : M Response :=
  let provider :=
    text_of (or_else (header_value "provider" (searchParams request)) (VStr "ollama")) in
  match lookup provider with
  | None =>
      ret (Response_json (VObj [("error", VStr ("Unknown provider: " ++ provider))]) 400 [])
  | Some backend =>
      let targetUrl := Backend_text backend ++ pathname request ++ search request in
      let headers :=
        if String.eqb provider "claude" && truthy (env_value (ANTHROPIC_API_KEY env)) then
          Obj.set "x-api-key" (text_of (env_value (ANTHROPIC_API_KEY env))) (req_headers request)
        else if String.eqb provider "openai" && truthy (env_value (OPENAI_API_KEY env)) then
          Obj.set "authorization" ("Bearer " ++ text_of (env_value (OPENAI_API_KEY env)))
                  (req_headers request)
        else req_headers request in
      catch
        (fetch_out w
           (mkFetch targetUrl (method request) headers
                    (if String.eqb (method request) "GET" then None else req_body request)))
        (fun err =>
           ret (Response_json
                  (VObj [("error", VStr (err_message err)); ("backend", Backend_value backend)])
                  502 []))
  end.

End Gateway.

(** ** Flattening nested parameters *)

(** [encodeURIComponent] leaves letters, digits and [- _ . ! ~ * ' ( )]. *)
Definition uri_unreserved (b : Z) : bool :=
  alnum b || (b =? 45) || (b =? 95) || (b =? 46) || (b =? 33) || (b =? 126)
  || (b =? 42) || (b =? 39) || (b =? 40) || (b =? 41).

Fixpoint uri_encode (s : string) : string :=
  match s with
  | EmptyString => EmptyString
  | String c r =>
      let b := Text.ascii_Z c in
      (if uri_unreserved b then String c EmptyString else percent b) ++ uri_encode r
  end.

(** [encodeURIComponent(v)] throws a [URIError] on a lone surrogate. *)
Definition encodeURIComponent (v : value) : result JsError string :=
  match ToString v with
  | Ok s =>
      if Text.lone_surrogate s then Err (URIError "URI malformed") else Ok (uri_encode s)
  | Err e => Err e
  end.

(** [prefix ? `${prefix}[${key}]` : key] *)
Definition full_key (prefix key : string) : string :=
  if Text.is_empty prefix then key else prefix ++ "[" ++ key ++ "]".

(** The pieces pushed in order, up to the first throw. *)
Fixpoint pushed (l : list (result JsError (list string))) : result JsError (list string) :=
  match l with
  | [] => Ok []
  | Err e :: _ => Err e
  | Ok x :: r =>
      match pushed r with
      | Ok t => Ok (x ++ t)%list
      | Err e => Err e
      end
  end.

Definition non_empty (s : string) : bool := negb (Text.is_empty s).

(** One turn of the loop, for the entry [key, v] under [fullKey];
    [nested] is the recursive call on [v]. *)
Definition encode_entry (fullKey : string) (v : value)
    (nested : string -> result JsError string) : result JsError (list string) :=
  match v with
  | VNull | VUndefined => Ok []
  | VObj _ =>
      match nested fullKey with
      | Ok s => Ok (filter non_empty (Text.split "&" s))
      | Err e => Err e
      end
  | VArr items =>
      pushed (map (fun iv =>
                     match encodeURIComponent (snd iv) with
                     | Ok s => Ok [fullKey ++ "[" ++ fst iv ++ "]=" ++ s]
                     | Err e => Err e
                     end) (indexed items))
  | _ =>
      match encodeURIComponent v with
      | Ok s => Ok [fullKey ++ "=" ++ s]
      | Err e => Err e
      end
  end.

Definition joined (l : list (string * result JsError (list string))) : result JsError string :=
  match pushed (map snd l) with
  | Ok parts => Ok (Text.join "&" parts)
  | Err e => Err e
  end.

(** [encodeStripeParams(obj, prefix)].  The loop runs over
    [Object.entries(obj)]; the turn of each entry is computed where the
    entry stands in the object and the turns are then taken in the order
    of the entries, which is the same thing since that order depends on
    the keys alone. *)
Fixpoint encodeStripeParams (obj : value) (prefix : string) {struct obj}
  : result JsError string :=
  match obj with
  | VObj props =>
      joined (Obj.entries
                (map (fun p => let '(key, v) := p in
                               (key, encode_entry (full_key prefix key) v (encodeStripeParams v)))
                     props))
  | VArr items =>
      joined (map (fun kf => (fst kf, snd kf (fst kf)))
                  (indexed
                     (map (fun v key =>
                             encode_entry (full_key prefix key) v (encodeStripeParams v))
                          items)))
  | VStr s =>
      joined (map (fun kv => (fst kv,
                              encode_entry (full_key prefix (fst kv)) (snd kv)
                                           (fun _ => Ok EmptyString)))
                  (indexed (chars s)))
  | VBool _ | VNum _ _ => Ok EmptyString
  | VUndefined | VNull => Err (TypeError "Cannot convert undefined or null to object")
  end.

(** ** The router worker *)

Module Router.

Definition descriptor (host path : string) : Response :=
  Response_json
    (VObj [ ("status", VStr "BlackRoad Edge Router");
            ("host", VStr host);
            ("path", VStr path);
            ("routes", VArr [VStr "stripe.*"; VStr "brand.*"; VStr "api.*"]) ])
    200 [].

(** [service] is the bound [env.STRIPE_SERVICE.fetch]. *)
Definition fetch (service : Request -> M Response) (request : Request) : M Response :=
  let host :=
    text_of (or_else (header_value "host" (req_headers request)) (VStr EmptyString)) in
  if Text.starts_with "stripe." host then service request
  else ret (descriptor host (pathname request)).

End Router.

(** ** Notions used in the statements *)

Definition is_digit_char (c : ascii) : bool :=
  (48 <=? Text.ascii_Z c) && (Text.ascii_Z c <=? 57).

Fixpoint all_chars (p : ascii -> bool) (s : string) : bool :=
  match s with
  | EmptyString => true
  | String c r => p c && all_chars p r
  end.

(** The header Stripe sends: a timestamp and candidate signatures. *)
Fixpoint v1_entries (signatures : list string) : string :=
  match signatures with
  | [] => EmptyString
  | s :: r => ",v1=" ++ s ++ v1_entries r
  end.

Definition signature_header (timestamp : string) (signatures : list string) : string :=
  "t=" ++ timestamp ++ v1_entries signatures.

(** Free of the two separators of the header syntax. *)
Definition no_separator (s : string) : Prop :=
  Text.mem "," s = false /\ Text.mem "=" s = false.

(** The value converts to text without throwing. *)
Definition prints (v : value) : bool :=
  match ToString v with Ok _ => true | Err _ => false end.

Definition nullish (v : value) : bool :=
  match v with VUndefined | VNull => true | _ => false end.

(** The fields of [event.data.object] that the handler of a recognised
    event kind prints; [None] for any other kind. *)
Definition logged_fields (kind : string) : option (list string) :=
  if String.eqb kind "checkout.session.completed" then Some ["id"; "customer"]
  else if String.eqb kind "customer.subscription.created"
          || String.eqb kind "customer.subscription.updated" then Some ["id"; "status"]
  else if String.eqb kind "customer.subscription.deleted" then Some ["id"]
  else if String.eqb kind "invoice.payment_failed" then Some ["id"; "customer"]
  else if String.eqb kind "invoice.payment_succeeded" then Some ["id"]
  else None.

(** An event the dispatch reads without a [TypeError]: it is not
    [null]; when its [type] is a recognised kind, [data] and
    [data.object] are not [null] or missing and the printed fields
    convert to text; otherwise its [type] converts to text. *)
Definition readable_event (event : value) : bool :=
  match member event "type" with
  | Err _ => false
  | Ok type_ =>
      match (match type_ with VStr kind => logged_fields kind | _ => None end) with
      | Some fields =>
          negb (nullish (field event "data"))
          && negb (nullish (field (field event "data") "object"))
          && forallb (fun k => prints (field (field (field event "data") "object") k)) fields
      | None => prints type_
      end
  end.

(** Some text of the payload, a key or a string in it, contains [needle]. *)
Fixpoint value_mentions (needle : string) (v : value) : bool :=
  match v with
  | VStr s => Text.includes needle s
  | VArr items => existsb (value_mentions needle) items
  | VObj props =>
      existsb (fun p => Text.includes needle (fst p) || value_mentions needle (snd p)) props
  | _ => false
  end.

Definition is_fetch (ev : Event) : bool :=
  match ev with Fetched _ => true | _ => false end.

Definition is_verifying (ev : Event) : bool :=
  match ev with Verifying _ _ => true | _ => false end.

(** JSON text written with single quotes for its double quotes. *)
Fixpoint json_text (s : string) : string :=
  match s with
  | EmptyString => EmptyString
  | String c r => String (if Ascii.eqb c "'" then "034"%char else c) (json_text r)
  end.

(** What [handleWebhook] does once past the signature check. *)
Definition parse_and_dispatch (body : string) : M Response :=
  emit (Parsing body) ;;;
  match JSON.parse body with
  | None => ret (Response_text "Invalid JSON" 400)
  | Some event => dispatch_event event ;;; ret acknowledgement
  end.

(** Every event of the computation satisfies [p]. *)
Definition only {A} (p : Event -> Prop) (c : M A) : Prop :=
  forall ev, In ev (events c) -> p ev.

Definition is_log (ev : Event) : Prop := exists line, ev = Logged line.

(** The provider the gateway reads from the query, [ollama] by default. *)
Definition requested_provider (request : Request) : string :=
  text_of (or_else (header_value "provider" (searchParams request)) (VStr "ollama")).

(** The CORS headers the main handler computes for a request. *)
Definition cors_of (request : Request) (env : Env) : list (string * string) :=
  header_list
    (CORS_HEADERS
       (or_else (or_else (header_value "origin" (req_headers request))
                         (env_value (ALLOWED_ORIGIN env)))
                (VStr "*"))).

(** The five routes of the table of the specification. *)
Definition in_route_table (m path : string) : bool :=
  (String.eqb m "GET" && String.eqb path "/health")
  || (String.eqb m "POST" && String.eqb path "/checkout")
  || (String.eqb m "POST" && String.eqb path "/portal")
  || (String.eqb m "POST" && String.eqb path "/webhook")
  || (String.eqb m "GET" && String.eqb path "/prices").

Definition not_found : Response :=
  Response_json (VObj [("error", VStr "Not found"); ("routes", routes)]) 404 [].

Definition health (w : World) : Response :=
  Response_json (VObj [ ("status", VStr "ok"); ("worker", VStr "stripe-checkout");
                        ("time", VStr (Date_iso w)) ]) 200 [].

(** [p => p.product && !p.product.deleted] on a price that is an object. *)
Definition listed (p : value) : bool :=
  truthy (field p "product") && negb (truthy (field (field p "product") "deleted")).

(** An amount as a number of units of 2^-1074: a finite number, or 0
    for a missing or [null] one; [None] for any other value. *)
Definition amount_units (v : value) : option Z :=
  match v with
  | VUndefined | VNull => Some 0
  | VNum m e =>
      match Double.of_decimal m e with
      | Double.Finite u => Some u
      | _ => None
      end
  | _ => None
  end.

(** A price entry that is not [null] and whose amount is missing,
    [null] or a finite number. *)
Definition well_formed_price (p : value) : Prop :=
  nullish p = false /\ amount_units (field p "unit_amount") <> None.

Definition view_amount (view : value) : Z :=
  match amount_units (field view "amount") with Some u => u | None => 0 end.

Definition good_view (view : value) : Prop :=
  amount_units (field view "amount") <> None.

(** ** Re-nesting flattened parameters *)

(** The tree with its [null] and absent leaves dropped. *)
Fixpoint prune (v : value) : value :=
  match v with
  | VObj props =>
      VObj (flat_map (fun p => let '(k, x) := p in
                               if nullish x then [] else [(k, prune x)]) props)
  | VArr items =>
      VArr (flat_map (fun x => if nullish x then [] else [prune x]) items)
  | _ => v
  end.

Definition hex_value (c : ascii) : Z :=
  match digit_val 16 c with Some d => d | None => 0 end.

(** [decodeURIComponent], byte by byte. *)
Fixpoint uri_decode (s : string) : string :=
  match s with
  | EmptyString => EmptyString
  | String c r =>
      if Ascii.eqb c "%" then
        match r with
        | String h (String l r') =>
            String (Text.Z_ascii (16 * hex_value h + hex_value l)) (uri_decode r')
        | _ => String c (uri_decode r)
        end
      else String c (uri_decode r)
  end.

(** The text of a key path: [a], [a[b]], [a[b][0]], ... *)
Fixpoint brackets (segments : list string) : string :=
  match segments with
  | [] => EmptyString
  | g :: r => "[" ++ g ++ "]" ++ brackets r
  end.

Definition key_text (path : list string) : string :=
  match path with
  | [] => EmptyString
  | k :: segments => k ++ brackets segments
  end.

(** The path a key text denotes. *)
Definition key_path (key : string) : list string :=
  match Text.split "[" key with
  | [] => []
  | k :: segments => k :: map (fun g => hd EmptyString (Text.split "]" g)) segments
  end.

(** A wire pair [key=value] as a path and its decoded text. *)
Definition wire_pair (piece : string) : list string * string :=
  let kv := Text.split "=" piece in
  (key_path (hd EmptyString kv), uri_decode (nth 1 kv EmptyString)).

Definition wire_pairs (wire : string) : list (list string * string) :=
  map wire_pair (filter non_empty (Text.split "&" wire)).

Definition props_of (v : value) : list (string * value) :=
  match v with VObj props => props | _ => [] end.

Definition child (k : string) (props : list (string * value)) : value :=
  match Obj.get k props with Some x => x | None => VObj [] end.

(** Put the text [s] at [path] in the tree [t], creating the objects
    on the way. *)
Fixpoint put (path : list string) (s : string) (t : value) : value :=
  match path with
  | [] => VStr s
  | k :: rest => VObj (Obj.set k (put rest s (child k (props_of t))) (props_of t))
  end.

Definition put_pair (t : value) (e : list string * string) : value :=
  put (fst e) (snd e) t.

(** An object whose keys all are indices is a sequence. *)
Fixpoint sequences (v : value) : value :=
  match v with
  | VObj props =>
      if negb (Nat.eqb (List.length props) 0)
         && forallb (fun p => Obj.all_digits (fst p)) props
      then VArr (map (fun p => sequences (snd p)) props)
      else VObj (map (fun p => (fst p, sequences (snd p))) props)
  | _ => v
  end.

(** Modelled from the spec: the re-nesting of flattened wire pairs that
    the round trip of the specification refers to.  The repository has
    no decoder; this one reads [key[a][0]=text] pairs back into nested
    objects and sequences. *)
Definition renest (wire : string) : value :=
  sequences (fold_left put_pair (wire_pairs wire) (VObj [])).

(** The round trip of the specification, for a re-nesting function. *)
Definition round_trips (unflatten : string -> value) : Prop :=
  forall props wire,
    encodeStripeParams (VObj props) EmptyString = Ok wire ->
    unflatten wire = prune (VObj props).

(** Trees on which the round trip holds.  A key is not empty, not made
    of digits only, and free of the characters of the wire syntax; a
    text leaf holds no lone surrogate. *)
Definition key_ok (k : string) : bool :=
  negb (Text.is_empty k)
  && negb (Obj.all_digits k)
  && negb (Text.mem "[" k) && negb (Text.mem "]" k)
  && negb (Text.mem "&" k) && negb (Text.mem "=" k).

Definition is_text (v : value) : bool :=
  match v with VStr s => negb (Text.lone_surrogate s) | _ => false end.

Fixpoint distinct (l : list string) : bool :=
  match l with
  | [] => true
  | x :: r => negb (existsb (String.eqb x) r) && distinct r
  end.

Fixpoint wire_safe (v : value) : bool :=
  match v with
  | VStr s => negb (Text.lone_surrogate s)
  | VArr items => negb (Nat.eqb (List.length items) 0) && forallb is_text items
  | VObj props =>
      forallb (fun p => key_ok (fst p) && (nullish (snd p) || wire_safe (snd p))) props
      && existsb (fun p => negb (nullish (snd p))) props
      && distinct (map fst props)
  | _ => false
  end.

(** The leaves of a tree with their paths, in the order of flattening. *)
Fixpoint leaves (v : value) : list (list string * string) :=
  match v with
  | VStr s => [([], s)]
  | VArr items =>
      map (fun kv => ([fst kv], text_of (snd kv))) (indexed items)
  | VObj props =>
      flat_map (fun p => map (fun e => (fst p :: fst e, snd e)) (leaves (snd p))) props
  | _ => []
  end.

(** The wire piece of a leaf under the path [base]. *)
Definition piece (base : list string) (e : list string * string) : string :=
  key_text (base ++ fst e) ++ "=" ++ uri_encode (snd e).

(** The tree before index-keyed objects are read as sequences. *)
Fixpoint unsequenced (v : value) : value :=
  match v with
  | VObj props =>
      VObj (flat_map (fun p => if nullish (snd p) then []
                               else [(fst p, unsequenced (snd p))]) props)
  | VArr items => VObj (indexed items)
  | _ => v
  end.

(** A path segment free of the characters of the wire syntax. *)
Definition segment_ok (g : string) : bool :=
  negb (Text.mem "[" g) && negb (Text.mem "]" g)
  && negb (Text.mem "&" g) && negb (Text.mem "=" g).

Definition path_ok (path : list string) : bool := forallb segment_ok path.

(** The request is past the signature check of the webhook: no secret
    is configured, or verification succeeded. *)
Definition past_signature_check (w : World) (request : Request) (env : Env) : Prop :=
  truthy (env_value (STRIPE_WEBHOOK_SECRET env)) = false
  \/ exists secret,
       STRIPE_WEBHOOK_SECRET env = Some secret /\ secret <> EmptyString
       /\ verifyStripeSignature (Date_now w) (request_text request)
            (Obj.get "stripe-signature" (req_headers request)) secret = Ok tt.

Definition is_logged (ev : Event) : bool :=
  match ev with Logged _ => true | _ => false end.

(** The origin the CORS headers allow: the [Origin] of the request, else
    the configured one, else any. *)
Definition allowed_origin (request : Request) (env : Env) : string :=
  text_of (or_else (or_else (header_value "origin" (req_headers request))
                            (env_value (ALLOWED_ORIGIN env)))
                   (VStr "*")).

Definition unconfigured : value :=
  VObj [("error", VStr "Stripe not configured. Set STRIPE_SECRET_KEY in worker environment.")].

(** The request [stripeRequest] sends. *)
Definition stripe_call (env : Env) (meth path : string) (encoded : option string)
  : FetchRequest :=
  mkFetch ("https://api.stripe.com/v1" ++ path) meth
    [ ("authorization", "Bearer " ++ text_of (env_value (STRIPE_SECRET_KEY env)));
      ("content-type", "application/x-www-form-urlencoded") ]
    encoded.

Definition prices_path : string := "/prices?active=true&expand[]=data.product&limit=20".

(** Every value the computation can return satisfies [P]. *)
Definition returns {A} (P : A -> Prop) (c : M A) : Prop :=
  forall a, outcome c = Ok a -> P a.

Definition routed_response (routed : Routed) : Response :=
  match routed with Direct r | Plain r => r end.

(** A header value that [Headers] stores as it is: it holds no NUL, LF
    or CR, and no white space (SP, TAB, LF, CR) stands around it. *)
Definition header_byte (c : ascii) : bool :=
  let b := Text.ascii_Z c in negb ((b =? 0) || (b =? 10) || (b =? 13)).

Definition http_space (c : ascii) : bool :=
  let b := Text.ascii_Z c in (b =? 32) || (b =? 9) || (b =? 10) || (b =? 13).

Fixpoint last_char (s : string) : option ascii :=
  match s with
  | EmptyString => None
  | String c EmptyString => Some c
  | String _ r => last_char r
  end.

Definition header_value_kept (s : string) : bool :=
  all_chars header_byte s
  && match s with String c _ => negb (http_space c) | EmptyString => true end
  && match last_char s with Some c => negb (http_space c) | None => true end.

(** An entry of an object that holds something: not [null], not
    [undefined]. *)
Definition present (p : string * value) : bool := negb (nullish (snd p)).
(** * Properties *)

(** ** Test vectors of the platform primitives *)

Example sha256_abc :
  hex (Subtle.sha256 (Text.bytes "abc"))
  = "ba7816bf8f01cfea414140de5dae2223b00361a396177a9cb410ff61f20015ad".
Proof. vm_compute. reflexivity. Qed.

Example hmac_rfc4231_case2 :
  hex (Subtle.hmac_sha256 (Text.bytes "Jefe") (Text.bytes "what do ya want for nothing?"))
  = "5bdcc146bf60754e6a042426089575c75a003f089d2739839dec58b964ec3843".
Proof. vm_compute. reflexivity. Qed.


(** ** Strings: splitting on a character *)

Lemma append_assoc (a b c : string) : ((a ++ b) ++ c = a ++ (b ++ c))%string.
Proof. induction a as [|x a IH]; simpl; [reflexivity | now rewrite IH]. Qed.

Lemma append_empty_r (a : string) : (a ++ EmptyString)%string = a.
Proof. induction a as [|x a IH]; simpl; [reflexivity | now rewrite IH]. Qed.

Lemma mem_append (c : ascii) (a b : string) :
  Text.mem c (a ++ b) = Text.mem c a || Text.mem c b.
Proof.
  induction a as [|x a IH]; simpl; [reflexivity|].
  rewrite IH. now rewrite orb_assoc.
Qed.

Lemma split_not_nil (sep : ascii) (s : string) : Text.split sep s <> [].
Proof.
  destruct s as [|c r]; simpl; [discriminate|].
  destruct (Ascii.eqb c sep); [discriminate|].
  destruct (Text.split sep r); discriminate.
Qed.

(** A string without the separator is a single piece. *)
Lemma split_without (sep : ascii) (s : string) :
  Text.mem sep s = false -> Text.split sep s = [s].
Proof.
  induction s as [|c r IH]; simpl; intros H; [reflexivity|].
  apply orb_false_iff in H as [Hc Hr].
  rewrite Ascii.eqb_sym, Hc. now rewrite (IH Hr).
Qed.

(** The first piece ends at the first separator. *)
Lemma split_at_first (sep : ascii) (a b : string) :
  Text.mem sep a = false ->
  Text.split sep (a ++ String sep b) = a :: Text.split sep b.
Proof.
  induction a as [|c r IH]; simpl; intros H.
  - now rewrite Ascii.eqb_refl.
  - apply orb_false_iff in H as [Hc Hr].
    rewrite Ascii.eqb_sym, Hc. now rewrite (IH Hr).
Qed.

(** ** Decimal text of an integer and [parseInt] *)

Lemma small_cases (d : Z) (n : nat) :
  0 <= d < Z.of_nat n -> exists k, (k < n)%nat /\ d = Z.of_nat k.
Proof. intros H. exists (Z.to_nat d). split; lia. Qed.

Ltac enum_nat k :=
  destruct k as [|k];
  [ vm_compute; try reflexivity; try tauto
  | first [ exfalso; lia | enum_nat k ] ].

Ltac enum_below H :=
  let k := fresh "k" in
  let Hk := fresh "Hk" in
  let E := fresh "E" in
  destruct H as (k & Hk & E); subst; enum_nat k.

Lemma digit_char_val (d : Z) :
  0 <= d < 10 ->
  digit_val 10 (digit_char d) = Some d /\ is_digit_char (digit_char d) = true.
Proof.
  intros H. apply (small_cases d 10) in H. enum_below H.
Qed.

Lemma dec_digits_parse (f : nat) : forall n rest,
  0 <= n < 2 ^ Z.of_nat (S f) ->
  parse_digits 10 (dec_digits (S f) n rest) None = parse_digits 10 rest (Some n).
Proof.
  induction f as [|f IH]; intros n rest Hn.
  - assert (n < 10) by (change (2 ^ Z.of_nat 1) with 2 in Hn; lia).
    cbn [dec_digits]. replace (n <? 10) with true by (symmetry; apply Z.ltb_lt; lia).
    rewrite Z.mod_small by lia.
    cbn [parse_digits]. now destruct (digit_char_val n ltac:(lia)) as [-> _].
  - remember (S f) as f1. cbn [dec_digits].
    destruct (Z.ltb_spec n 10) as [Hlt|Hge].
    + rewrite Z.mod_small by lia.
      cbn [parse_digits]. now destruct (digit_char_val n ltac:(lia)) as [-> _].
    + subst f1. rewrite IH.
      * cbn [parse_digits].
        destruct (digit_char_val (n mod 10)) as [-> _];
          [apply Z.mod_pos_bound; lia|].
        f_equal. f_equal. pose proof (Z.div_mod n 10). lia.
      * split; [apply Z.div_pos; lia|].
        rewrite Nat2Z.inj_succ, Z.pow_succ_r in Hn by lia.
        apply Z.div_lt_upper_bound; lia.
Qed.

Lemma dec_digits_chars (f : nat) : forall n rest,
  0 <= n ->
  all_chars is_digit_char rest = true ->
  all_chars is_digit_char (dec_digits f n rest) = true.
Proof.
  induction f as [|f IH]; intros n rest Hn Hr; cbn [dec_digits]; [assumption|].
  assert (Hd : is_digit_char (digit_char (n mod 10)) = true)
    by (apply digit_char_val, Z.mod_pos_bound; lia).
  destruct (n <? 10).
  - cbn [all_chars]. now rewrite Hd, Hr.
  - apply IH; [apply Z.div_pos; lia|]. cbn [all_chars]. now rewrite Hd, Hr.
Qed.

Lemma dec_digits_nonempty (f : nat) : forall n rest,
  dec_digits (S f) n rest <> EmptyString.
Proof.
  induction f as [|f IH]; intros n rest.
  - cbn [dec_digits]. destruct (n <? 10); discriminate.
  - remember (S f) as f1. cbn [dec_digits]. destruct (n <? 10); [discriminate|].
    subst f1. apply IH.
Qed.

Lemma log2_fuel (n : Z) : 0 <= n -> n < 2 ^ Z.of_nat (S (Z.to_nat (Z.log2 n))).
Proof.
  intros Hn. rewrite Nat2Z.inj_succ, Z2Nat.id by apply Z.log2_nonneg.
  destruct (Z.eq_dec n 0) as [->|Hz]; [reflexivity|].
  apply Z.log2_spec. lia.
Qed.

Lemma dec_nat_parse (n : Z) : 0 <= n -> parse_digits 10 (dec_nat n) None = Some n.
Proof.
  intros Hn. unfold dec_nat. rewrite dec_digits_parse; [reflexivity|].
  split; [assumption | now apply log2_fuel].
Qed.

Lemma dec_nat_chars (n : Z) : 0 <= n -> all_chars is_digit_char (dec_nat n) = true.
Proof. intros Hn. now apply dec_digits_chars. Qed.

Lemma dec_nat_nonempty (n : Z) : dec_nat n <> EmptyString.
Proof. apply dec_digits_nonempty. Qed.

(** A digit is none of the characters that [parseInt] or the header
    syntax treat specially. *)
Lemma digit_char_plain (c : ascii) :
  is_digit_char c = true ->
  ws1 (Text.ascii_Z c) = false /\ Text.ascii_Z c < 0xC2
  /\ Ascii.eqb c "-" = false /\ Ascii.eqb c "+" = false
  /\ Ascii.eqb c "x" = false /\ Ascii.eqb c "X" = false
  /\ Ascii.eqb "," c = false /\ Ascii.eqb "=" c = false.
Proof.
  unfold is_digit_char. intros H.
  destruct c as [[] [] [] [] [] [] [] []]; vm_compute in H; try discriminate;
    vm_compute; repeat split; congruence.
Qed.

Lemma skip_ws_plain (c : ascii) (r : string) :
  ws1 (Text.ascii_Z c) = false -> Text.ascii_Z c < 0xC2 ->
  skip_ws (String c r) = String c r.
Proof.
  intros H1 H2. cbn [skip_ws]. rewrite H1.
  assert (E2 : forall b, ws2 (Text.ascii_Z c) b = false).
  { intros b. unfold ws2. replace (Text.ascii_Z c =? 194) with false; [reflexivity|].
    symmetry. apply Z.eqb_neq. lia. }
  assert (E3 : forall b b', ws3 (Text.ascii_Z c) b b' = false).
  { intros b b'. unfold ws3.
    repeat match goal with
           | |- context [Text.ascii_Z c =? ?k] =>
               replace (Text.ascii_Z c =? k) with false
                 by (symmetry; apply Z.eqb_neq; lia)
           end.
    reflexivity. }
  destruct r as [|c2 r2]; [reflexivity|]. rewrite E2.
  destruct r2 as [|c3 r3]; [reflexivity|]. now rewrite E3.
Qed.

Lemma parseInt_digits (s : string) :
  s <> EmptyString -> all_chars is_digit_char s = true ->
  parseInt s = parse_digits 10 s None.
Proof.
  intros Hne Hall. destruct s as [|c r]; [congruence|].
  cbn [all_chars] in Hall. apply andb_true_iff in Hall as [Hc Hr].
  destruct (digit_char_plain c Hc) as (W1 & W2 & Em & Ep & _).
  unfold parseInt. rewrite skip_ws_plain by assumption.
  rewrite Em, Ep.
  assert (R : (match String c r with
               | String c0 (String d r0) =>
                   if Ascii.eqb c0 "0" && (Ascii.eqb d "x" || Ascii.eqb d "X")
                   then (16, r0) else (10, String c r)
               | _ => (10, String c r)
               end) = (10, String c r)).
  { destruct r as [|d r0]; [reflexivity|].
    cbn [all_chars] in Hr. apply andb_true_iff in Hr as [Hd _].
    destruct (digit_char_plain d Hd) as (_ & _ & _ & _ & Ex & EX & _).
    rewrite Ex, EX. now rewrite andb_false_r. }
  rewrite R. unfold option_map.
  destruct (parse_digits 10 (String c r) None) as [z|]; [|reflexivity].
  f_equal. lia.
Qed.

(** [parseInt] reads back the integer that was printed. *)
Lemma parseInt_Number_toString (n : Z) : parseInt (Number_toString n) = Some n.
Proof.
  unfold Number_toString. destruct (Z.ltb_spec n 0) as [Hneg|Hpos].
  - unfold parseInt.
    rewrite skip_ws_plain by (vm_compute; reflexivity).
    change (Ascii.eqb "-" "-") with true. cbv iota beta.
    pose proof (dec_nat_chars (- n) ltac:(lia)) as Hall.
    pose proof (dec_nat_parse (- n) ltac:(lia)) as Hp.
    destruct (dec_nat (- n)) as [|c r] eqn:E; [cbn in Hp; discriminate|].
    assert (R : (match String c r with
                 | String c0 (String d r0) =>
                     if Ascii.eqb c0 "0" && (Ascii.eqb d "x" || Ascii.eqb d "X")
                     then (16, r0) else (10, String c r)
                 | _ => (10, String c r)
                 end) = (10, String c r)).
    { destruct r as [|d r0]; [reflexivity|].
      cbn [all_chars] in Hall. apply andb_true_iff in Hall as [_ Hr].
      apply andb_true_iff in Hr as [Hd _].
      destruct (digit_char_plain d Hd) as (_ & _ & _ & _ & Ex & EX & _).
      rewrite Ex, EX. now rewrite andb_false_r. }
    rewrite R, Hp. cbn [option_map]. f_equal. lia.
  - rewrite parseInt_digits.
    + now apply dec_nat_parse.
    + apply dec_nat_nonempty.
    + now apply dec_nat_chars.
Qed.

Lemma digits_no_sep (c : ascii) (s : string) :
  (Ascii.eqb c "," = true \/ Ascii.eqb c "=" = true) ->
  all_chars is_digit_char s = true -> Text.mem c s = false.
Proof.
  intros Hc. induction s as [|d r IH]; cbn [all_chars Text.mem]; intros H; [reflexivity|].
  apply andb_true_iff in H as [Hd Hr]. rewrite (IH Hr), orb_false_r.
  destruct (digit_char_plain d Hd) as (_ & _ & _ & _ & _ & _ & Ec & Ee).
  destruct Hc as [Hc|Hc]; apply Ascii.eqb_eq in Hc; subst c; assumption.
Qed.

Lemma Number_toString_no_sep (c : ascii) (n : Z) :
  (Ascii.eqb c "," = true \/ Ascii.eqb c "=" = true) ->
  Text.mem c (Number_toString n) = false.
Proof.
  intros Hc. unfold Number_toString. destruct (Z.ltb_spec n 0).
  - cbn [Text.mem]. rewrite digits_no_sep by (try assumption; apply dec_nat_chars; lia).
    destruct Hc as [Hc|Hc]; apply Ascii.eqb_eq in Hc; subst c; reflexivity.
  - apply digits_no_sep; [assumption | now apply dec_nat_chars].
Qed.

Lemma Number_toString_nonempty (n : Z) : Number_toString n <> EmptyString.
Proof.
  unfold Number_toString. destruct (n <? 0); [discriminate | apply dec_nat_nonempty].
Qed.

(** ** The hex text of a digest *)

Lemma hex_digit_plain (d : Z) :
  0 <= d < 16 ->
  Ascii.eqb "," (hex_digit d) = false /\ Ascii.eqb "=" (hex_digit d) = false.
Proof.
  intros H. apply (small_cases d 16) in H. enum_below H.
Qed.

Lemma hex_no_sep (c : ascii) (l : list Z) :
  (Ascii.eqb c "," = true \/ Ascii.eqb c "=" = true) ->
  Forall (fun b => 0 <= b < 256) l ->
  Text.mem c (hex l) = false.
Proof.
  intros Hc. induction 1 as [|b r Hb _ IH]; [reflexivity|].
  cbn [hex hex_byte append Text.mem]. rewrite IH, orb_false_r.
  assert (H1 : 0 <= Z.shiftr b 4 < 16).
  { rewrite Z.shiftr_div_pow2 by lia. change (2 ^ 4) with 16.
    split; [apply Z.div_pos; lia | apply Z.div_lt_upper_bound; lia]. }
  assert (H2 : 0 <= Z.land b 15 < 16).
  { change 15 with (Z.ones 4). rewrite Z.land_ones by lia.
    apply Z.mod_pos_bound. reflexivity. }
  destruct (hex_digit_plain _ H1) as [A1 A2], (hex_digit_plain _ H2) as [B1 B2].
  destruct Hc as [Hc|Hc]; apply Ascii.eqb_eq in Hc; subst c.
  - now rewrite A1, B1.
  - now rewrite A2, B2.
Qed.

Lemma be_bytes_range (n : nat) (x : Z) :
  Forall (fun b => 0 <= b < 256) (Subtle.be_bytes n x).
Proof.
  induction n as [|n IH]; cbn [Subtle.be_bytes]; constructor; [|assumption].
  change 255 with (Z.ones 8). rewrite Z.land_ones by lia.
  apply Z.mod_pos_bound. reflexivity.
Qed.

Lemma sha256_range (msg : list Z) :
  Forall (fun b => 0 <= b < 256) (Subtle.sha256 msg).
Proof.
  unfold Subtle.sha256.
  generalize (fold_left Subtle.compress
                (Subtle.blocks (Nat.div (List.length (Subtle.pad msg)) 64) (Subtle.pad msg))
                Subtle.H0).
  intros l. induction l as [|w r IH]; cbn [flat_map]; [constructor|].
  apply Forall_app. split; [apply be_bytes_range | assumption].
Qed.

Lemma computed_signature_no_sep (secret timestamp payload : string) :
  no_separator (computed_signature secret timestamp payload).
Proof.
  unfold no_separator, computed_signature, Subtle.hmac_sha256.
  split; apply hex_no_sep; try apply sha256_range; [left | right]; reflexivity.
Qed.

Lemma Number_toString_no_separator (n : Z) : no_separator (Number_toString n).
Proof.
  split; apply Number_toString_no_sep; [left | right]; reflexivity.
Qed.

(** ** Reading the signature header *)

Lemma split_header (a : string) (sigs : list string) :
  Text.mem "," a = false ->
  Forall no_separator sigs ->
  Text.split "," (a ++ v1_entries sigs) = a :: map (fun s => "v1=" ++ s) sigs.
Proof.
  intros Ha Hs. revert a Ha.
  induction Hs as [|s r [Hs _] _ IH]; intros a Ha.
  - cbn [v1_entries map]. rewrite append_empty_r. now apply split_without.
  - cbn [v1_entries map].
    change (",v1=" ++ s ++ v1_entries r)%string
      with (String "," ("v1=" ++ (s ++ v1_entries r)))%string.
    rewrite split_at_first by assumption. f_equal.
    change ("v1=" ++ (s ++ v1_entries r))%string with ("v1=" ++ s ++ v1_entries r)%string.
    rewrite <- (append_assoc "v1=" s). apply IH.
    change ("v1=" ++ s)%string with (String "v" (String "1" (String "=" s))).
    cbn [Text.mem]. now rewrite Hs.
Qed.

Lemma sig_assign_entry (acc : list (string * option string)) (k v : string) :
  Text.mem "=" k = false -> Text.mem "=" v = false -> k <> "__proto__" ->
  sig_assign acc (k ++ String "=" v) = Obj.set k (Some v) acc.
Proof.
  intros Hk Hv Hp. unfold sig_assign.
  rewrite split_at_first, (split_without _ v) by assumption.
  cbn [hd nth_error]. apply String.eqb_neq in Hp. now rewrite Hp.
Qed.

Lemma fold_v1 (t : option string) (sigs : list string) :
  Forall no_separator sigs ->
  forall acc, (acc = [("t", t)] \/ exists old, acc = [("t", t); ("v1", old)]) ->
  fold_left sig_assign (map (fun s => "v1=" ++ s) sigs) acc
  = match sigs with
    | [] => acc
    | _ => [("t", t); ("v1", Some (last sigs EmptyString))]
    end.
Proof.
  induction 1 as [|s r [_ Hs] Hr IH]; intros acc Hacc; [reflexivity|].
  cbn [map fold_left].
  assert (E : sig_assign acc ("v1=" ++ s) = [("t", t); ("v1", Some s)]).
  { change ("v1=" ++ s)%string with ("v1" ++ String "=" s)%string.
    rewrite sig_assign_entry by (try assumption; try reflexivity; discriminate).
    destruct Hacc as [->|[old ->]]; reflexivity. }
  rewrite E, IH by (right; eauto).
  destruct r; reflexivity.
Qed.

(** The parts of a well-formed header: the timestamp, and of the [v1]
    values the last one only. *)
Lemma sig_parts_header (ts : string) (sigs : list string) :
  no_separator ts -> Forall no_separator sigs ->
  sig_parts (signature_header ts sigs)
  = ("t", Some ts) :: match sigs with
                      | [] => []
                      | _ => [("v1", Some (last sigs EmptyString))]
                      end.
Proof.
  intros [Hc He] Hs. unfold sig_parts, signature_header.
  rewrite <- append_assoc.
  rewrite split_header by (try assumption; cbn [append Text.mem]; now rewrite Hc).
  cbn [fold_left].
  change ("t=" ++ ts)%string with ("t" ++ String "=" ts)%string.
  rewrite sig_assign_entry by (try assumption; try reflexivity; discriminate).
  cbn [Obj.set]. rewrite (fold_v1 (Some ts)) by (try assumption; now left).
  destruct sigs; reflexivity.
Qed.

(** What verification computes on a header that is not empty. *)
Lemma verify_unfold (date_now : Z) (payload header secret : string) :
  header <> EmptyString ->
  verifyStripeSignature date_now payload (Some header) secret
  = match sig_timestamp (sig_parts header) with
    | None => Err InvalidFormat
    | Some EmptyString => Err InvalidFormat
    | Some timestamp =>
        if (List.length (sig_signatures (sig_parts header)) =? 0)%nat
        then Err InvalidFormat
        else if match parseInt timestamp with
                | Some t => tolerance <? Z.abs (date_now / 1000 - t)
                | None => false
                end
        then Err OutsideTolerance
        else if existsb (option_string_eqb (Some (computed_signature secret timestamp payload)))
                        (sig_signatures (sig_parts header))
        then Ok tt
        else Err SignatureMismatch
    end.
Proof. destruct header; [congruence | reflexivity]. Qed.

Lemma existsb_signature (x : string) (l : list (option string)) :
  existsb (option_string_eqb (Some x)) l = true <-> In (Some x) l.
Proof.
  rewrite existsb_exists. split.
  - intros (y & Hin & E). destruct y as [y|]; [|discriminate].
    apply String.eqb_eq in E. now subst.
  - intros Hin. exists (Some x). split; [assumption | apply String.eqb_refl].
Qed.

Lemma signature_header_nonempty (ts : string) (sigs : list string) :
  signature_header ts sigs <> EmptyString.
Proof. discriminate. Qed.

(** Verification of a well-formed header with a timestamp within the
    tolerance: only the last [v1] value is compared. *)
Lemma verify_header (date_now t : Z) (payload secret : string) (sigs : list string) :
  Z.abs (date_now / 1000 - t) <= tolerance ->
  Forall no_separator sigs -> sigs <> [] ->
  verifyStripeSignature date_now payload
    (Some (signature_header (Number_toString t) sigs)) secret
  = if String.eqb (computed_signature secret (Number_toString t) payload)
                  (last sigs EmptyString)
    then Ok tt else Err SignatureMismatch.
Proof.
  intros Hfresh Hs Hne.
  rewrite verify_unfold by apply signature_header_nonempty.
  rewrite sig_parts_header by (try assumption; apply Number_toString_no_separator).
  destruct sigs as [|s0 r]; [congruence|].
  set (parts := [("t", Some (Number_toString t)); ("v1", Some (last (s0 :: r) EmptyString))]).
  change (sig_timestamp parts) with (Some (Number_toString t)).
  change (sig_signatures parts) with [Some (last (s0 :: r) EmptyString)].
  destruct (Number_toString t) eqn:E; [now apply Number_toString_nonempty in E|].
  rewrite <- E. rewrite parseInt_Number_toString.
  replace (tolerance <? Z.abs (date_now / 1000 - t)) with false
    by (symmetry; apply Z.ltb_ge; assumption).
  cbn [List.length Nat.eqb existsb option_string_eqb]. now rewrite orb_false_r.
Qed.

(** ** Signature verification *)

(** C2. For every payload, every secret that is not empty (the handler
    verifies under such a secret only, and the platform imports no
    empty key) and every integer timestamp within 300 seconds of the
    clock, the header [t=T,v1=hex(HMAC-SHA256(secret, T.payload))]
    verifies; and for any header whose timestamp reads as [T],
    verification succeeds exactly when the computed hex HMAC is among the
    [v1] values collected from the header. *)
Theorem signed_header_verifies (payload secret : string) (t date_now : Z) :
  secret <> EmptyString ->
  Z.abs (date_now / 1000 - t) <= tolerance ->
  verifyStripeSignature date_now payload
    (Some (signature_header (Number_toString t)
             [computed_signature secret (Number_toString t) payload]))
    secret = Ok tt
  /\ forall header ts,
       header <> EmptyString ->
       sig_timestamp (sig_parts header) = Some ts ->
       parseInt ts = Some t ->
       (verifyStripeSignature date_now payload (Some header) secret = Ok tt
        <-> In (Some (computed_signature secret ts payload))
               (sig_signatures (sig_parts header))).
Proof.
  intros _ Hfresh. split.
  - rewrite verify_header; try assumption.
    + cbn [last]. now rewrite String.eqb_refl.
    + constructor; [apply computed_signature_no_sep | constructor].
    + discriminate.
  - intros header ts Hne Hts Hparse.
    rewrite verify_unfold, Hts by assumption.
    destruct ts as [|c r]; [discriminate|].
    rewrite Hparse.
    replace (tolerance <? Z.abs (date_now / 1000 - t)) with false
      by (symmetry; apply Z.ltb_ge; assumption).
    rewrite <- existsb_signature.
    destruct (sig_signatures (sig_parts header)) as [|s0 l].
    + cbn. split; discriminate.
    + cbn [List.length Nat.eqb].
      destruct (existsb _ (s0 :: l)); split; congruence.
Qed.

Lemma signed_header_verifies_witness :
  "whsec_test"%string <> EmptyString
  /\ Z.abs (1700000123456 / 1000 - 1700000000) <= tolerance
  /\ verifyStripeSignature 1700000123456 "{}"
       (Some (signature_header (Number_toString 1700000000)
                [computed_signature "whsec_test" (Number_toString 1700000000) "{}"]))
       "whsec_test" = Ok tt.
Proof.
  assert (H : Z.abs (1700000123456 / 1000 - 1700000000) <= tolerance)
    by (vm_compute; discriminate).
  assert (S : "whsec_test"%string <> EmptyString) by discriminate.
  split; [exact S|]. split; [exact H|].
  exact (proj1 (signed_header_verifies "{}" "whsec_test" 1700000000 1700000123456 S H)).
Defined.

(** C1 (as the code behaves). Of two [v1] values only the last is kept: a
    header within the tolerance that carries the computed signature first
    and any other value after it is rejected with a signature mismatch. *)
Theorem first_v1_value_is_dropped (payload secret other : string) (t date_now : Z) :
  Z.abs (date_now / 1000 - t) <= tolerance ->
  no_separator other ->
  other <> computed_signature secret (Number_toString t) payload ->
  verifyStripeSignature date_now payload
    (Some (signature_header (Number_toString t)
             [computed_signature secret (Number_toString t) payload; other]))
    secret = Err SignatureMismatch.
Proof.
  intros Hfresh Hsep Hneq.
  rewrite verify_header; try assumption.
  - cbn [last]. apply not_eq_sym, String.eqb_neq in Hneq. now rewrite Hneq.
  - repeat constructor; try apply computed_signature_no_sep; apply Hsep.
  - discriminate.
Qed.

Lemma first_v1_value_is_dropped_witness :
  verifyStripeSignature 1700000123456 "{}"
    (Some (signature_header (Number_toString 1700000000)
             [computed_signature "whsec_test" (Number_toString 1700000000) "{}"; "00"]))
    "whsec_test" = Err SignatureMismatch.
Proof.
  apply (first_v1_value_is_dropped "{}" "whsec_test" "00" 1700000000 1700000123456).
  - vm_compute. discriminate.
  - split; reflexivity.
  - vm_compute. discriminate.
Defined.

(** The same header with the two values exchanged verifies. *)
Lemma last_v1_value_is_compared (payload secret other : string) (t date_now : Z) :
  Z.abs (date_now / 1000 - t) <= tolerance ->
  no_separator other ->
  verifyStripeSignature date_now payload
    (Some (signature_header (Number_toString t)
             [other; computed_signature secret (Number_toString t) payload]))
    secret = Ok tt.
Proof.
  intros Hfresh Hsep.
  rewrite verify_header; try assumption.
  - cbn [last]. now rewrite String.eqb_refl.
  - repeat constructor; try apply computed_signature_no_sep; apply Hsep.
  - discriminate.
Qed.

(** C10. When the timestamp of the header is present but [parseInt] gives
    [NaN] for it, verification never fails as stale: the tolerance test is
    false and the outcome is that of the HMAC comparison, computed over
    the literal timestamp text (or the format error when no [v1] value
    was collected). *)
Theorem unparseable_timestamp_never_stale
    (date_now : Z) (payload header secret ts : string) :
  header <> EmptyString ->
  sig_timestamp (sig_parts header) = Some ts ->
  ts <> EmptyString ->
  parseInt ts = None ->
  verifyStripeSignature date_now payload (Some header) secret <> Err OutsideTolerance
  /\ verifyStripeSignature date_now payload (Some header) secret
     = match sig_signatures (sig_parts header) with
       | [] => Err InvalidFormat
       | signatures =>
           if existsb (option_string_eqb (Some (computed_signature secret ts payload)))
                      signatures
           then Ok tt else Err SignatureMismatch
       end.
Proof.
  intros Hne Hts Hts' Hnan.
  assert (E : verifyStripeSignature date_now payload (Some header) secret
              = match sig_signatures (sig_parts header) with
                | [] => Err InvalidFormat
                | signatures =>
                    if existsb (option_string_eqb (Some (computed_signature secret ts payload)))
                               signatures
                    then Ok tt else Err SignatureMismatch
                end).
  { rewrite verify_unfold, Hts by assumption.
    destruct ts as [|c r]; [congruence|]. rewrite Hnan.
    destruct (sig_signatures (sig_parts header)); reflexivity. }
  split; [|exact E].
  rewrite E. destruct (sig_signatures (sig_parts header)); [discriminate|].
  destruct (existsb _ _); discriminate.
Qed.

Lemma unparseable_timestamp_never_stale_witness :
  verifyStripeSignature 0 "{}" (Some "t=abc,v1=00") "whsec_test" <> Err OutsideTolerance.
Proof.
  apply (unparseable_timestamp_never_stale 0 "{}" "t=abc,v1=00" "whsec_test" "abc").
  - discriminate.
  - reflexivity.
  - discriminate.
  - reflexivity.
Defined.

(** ** The monad of handlers *)

Lemma bind_ok {A B} (t : list Event) (a : A) (k : A -> M B) :
  bind (t, Ok a) k = ((t ++ fst (k a))%list, snd (k a)).
Proof. unfold bind. now destruct (k a). Qed.

Lemma bind_err {A B} (t : list Event) (e : JsError) (k : A -> M B) :
  bind (t, Err e) k = (t, Err e).
Proof. reflexivity. Qed.

Lemma bind_lift_ok {A B} (a : A) (k : A -> M B) : bind (lift (Ok a)) k = k a.
Proof. unfold lift, bind. now destruct (k a). Qed.

Lemma bind_lift_err {A B} (e : JsError) (k : A -> M B) :
  bind (lift (Err e)) k = ([], Err e).
Proof. reflexivity. Qed.

Lemma bind_ret {A B} (a : A) (k : A -> M B) : bind (ret a) k = k a.
Proof. unfold ret, bind. now destruct (k a). Qed.

Lemma bind_emit {B} (ev : Event) (k : unit -> M B) :
  bind (emit ev) k = (ev :: fst (k tt), snd (k tt)).
Proof. unfold emit, bind. now destruct (k tt). Qed.

Lemma emit_then_ret {A} (ev : Event) (a : A) :
  bind (emit ev) (fun _ => ret a) = ([ev], Ok a).
Proof. reflexivity. Qed.

(** ** The webhook handler *)

Lemma truthy_env (o : option string) :
  truthy (env_value o) = true <-> exists s, o = Some s /\ s <> EmptyString.
Proof.
  destruct o as [[|c r]|]; cbn; split; intros H; try discriminate.
  - destruct H as (s & E & H). congruence.
  - eexists. split; [reflexivity | discriminate].
  - reflexivity.
  - destruct H as (s & E & H). discriminate.
Qed.

Lemma handleWebhook_unverified (w : World) (request : Request) (env : Env) :
  truthy (env_value (STRIPE_WEBHOOK_SECRET env)) = false ->
  handleWebhook w request env = parse_and_dispatch (request_text request).
Proof.
  intros H. unfold handleWebhook. rewrite H, bind_ret. reflexivity.
Qed.

Lemma handleWebhook_configured (w : World) (request : Request) (env : Env) (secret : string) :
  STRIPE_WEBHOOK_SECRET env = Some secret -> secret <> EmptyString ->
  handleWebhook w request env
  = let signature := Obj.get "stripe-signature" (req_headers request) in
    let body := request_text request in
    match verifyStripeSignature (Date_now w) body signature secret with
    | Err err =>
        ([Verifying body signature],
         Ok (Response_text ("Webhook signature verification failed: " ++ SigError_message err)
               400))
    | Ok _ =>
        (Verifying body signature :: events (parse_and_dispatch body),
         outcome (parse_and_dispatch body))
    end.
Proof.
  intros Hs Hne. unfold handleWebhook. rewrite Hs.
  assert (T : truthy (env_value (Some secret)) = true)
    by (apply truthy_env; eauto).
  rewrite T. change (text_of (env_value (Some secret))) with secret.
  cbv zeta.
  destruct (verifyStripeSignature _ _ _ secret) as [[]|err];
    rewrite emit_then_ret, bind_ok; reflexivity.
Qed.

Lemma parse_and_dispatch_acknowledged (body : string) :
  outcome (parse_and_dispatch body) = Ok acknowledgement ->
  exists event, JSON.parse body = Some event.
Proof.
  unfold parse_and_dispatch. rewrite bind_emit. cbn [outcome snd].
  destruct (JSON.parse body) as [event|]; [eauto|].
  cbn. intros H. inversion H.
Qed.

(** C3. With the webhook secret configured, a request whose signature
    verification fails is answered 400 and nothing else happens: the only
    event is the verification itself, so the body is not parsed, no event
    handler logs anything, and the response is not the acknowledgement.
    The acknowledgement is returned only when verification succeeded and
    the body parsed as JSON. *)
Theorem webhook_never_partially_acknowledges
    (w : World) (request : Request) (env : Env) (secret : string) :
  STRIPE_WEBHOOK_SECRET env = Some secret -> secret <> EmptyString ->
  let body := request_text request in
  let signature := Obj.get "stripe-signature" (req_headers request) in
  (forall err,
     verifyStripeSignature (Date_now w) body signature secret = Err err ->
     events (handleWebhook w request env) = [Verifying body signature]
     /\ (exists response,
           outcome (handleWebhook w request env) = Ok response
           /\ status response = 400 /\ response <> acknowledgement))
  /\ (outcome (handleWebhook w request env) = Ok acknowledgement ->
      verifyStripeSignature (Date_now w) body signature secret = Ok tt
      /\ exists event, JSON.parse body = Some event).
Proof.
  intros Hs Hne body signature.
  rewrite (handleWebhook_configured w request env secret Hs Hne).
  fold body signature. cbv zeta.
  split.
  - intros err Herr. rewrite Herr. split; [reflexivity|].
    eexists. split; [reflexivity|]. split; [reflexivity | discriminate].
  - destruct (verifyStripeSignature _ body signature secret) as [[]|err].
    + cbn [outcome snd]. intros H. split; [reflexivity|].
      now apply parse_and_dispatch_acknowledged.
    + cbn [outcome snd]. intros H. inversion H.
Qed.

Lemma webhook_never_partially_acknowledges_witness :
  events (handleWebhook (mkWorld 1700000123456 "2023-11-14T22:15:23.456Z"
                           (fun _ => Rejected (TypeError "fetch failed")))
            (mkRequest "POST" "/webhook" EmptyString []
               [("stripe-signature", "t=1700000000,v1=00")] (Some "{}"))
            (mkEnv (Some "sk_test_1") (Some "whsec_test") None None None))
  = [Verifying "{}" (Some "t=1700000000,v1=00")].
Proof.
  refine (proj1 (proj1 (webhook_never_partially_acknowledges
            (mkWorld 1700000123456 "2023-11-14T22:15:23.456Z"
               (fun _ => Rejected (TypeError "fetch failed")))
            (mkRequest "POST" "/webhook" EmptyString []
               [("stripe-signature", "t=1700000000,v1=00")] (Some "{}"))
            (mkEnv (Some "sk_test_1") (Some "whsec_test") None None None)
            "whsec_test" eq_refl _) SignatureMismatch _)).
  - discriminate.
  - vm_compute. reflexivity.
Defined.

Lemma member_field (v : value) (k : string) :
  nullish v = false -> member v k = Ok (field v k).
Proof. unfold field. destruct v; cbn; intros H; try discriminate; reflexivity. Qed.

Lemma member_ok_not_nullish (v x : value) (k : string) :
  member v k = Ok x -> nullish v = false.
Proof. destruct v; cbn; intros H; try discriminate; reflexivity. Qed.

Lemma prints_ok (v : value) : prints v = true -> exists s, ToString v = Ok s.
Proof. unfold prints. destruct (ToString v); [eauto | discriminate]. Qed.

Ltac printed H :=
  let s := fresh "s" in
  let E := fresh "E" in
  apply prints_ok in H; destruct H as (s & E); rewrite E, bind_lift_ok.

(** A readable event is dispatched with one line logged and no error. *)
Lemma dispatch_readable (event : value) :
  readable_event event = true ->
  exists line, dispatch_event event = ([Logged line], Ok tt).
Proof.
  unfold readable_event. intros H.
  destruct (member event "type") as [type_|] eqn:Et; [|discriminate].
  pose proof (member_ok_not_nullish _ _ _ Et) as Hev.
  unfold dispatch_event. rewrite Et, bind_lift_ok.
  destruct (match type_ with VStr kind => logged_fields kind | _ => None end)
    as [fields|] eqn:Ef.
  - destruct type_ as [| | | |kind| |]; try discriminate.
    apply andb_true_iff in H as [H Hp]. apply andb_true_iff in H as [Hd Ho].
    apply negb_true_iff in Hd, Ho.
    unfold logged_fields in Ef.
    rewrite (member_field event "data" Hev), bind_lift_ok.
    rewrite (member_field _ "object" Hd), bind_lift_ok.
    set (obj := field (field event "data") "object") in *.
    destruct (String.eqb kind "checkout.session.completed") eqn:E1;
      [|destruct (String.eqb kind "customer.subscription.created") eqn:E2;
        [|destruct (String.eqb kind "customer.subscription.updated") eqn:E3;
          [|destruct (String.eqb kind "customer.subscription.deleted") eqn:E4;
            [|destruct (String.eqb kind "invoice.payment_failed") eqn:E5;
              [|destruct (String.eqb kind "invoice.payment_succeeded") eqn:E6;
                [|discriminate]]]]]];
      cbn [orb] in Ef; injection Ef as <-; cbn [forallb] in Hp;
      repeat (apply andb_true_iff in Hp; destruct Hp as [?P Hp]);
      cbn [orb ToString];
      repeat first
        [ rewrite bind_lift_ok
        | match goal with
          | |- context [bind (lift (member obj ?k)) _] => rewrite (member_field obj k Ho)
          end
        | match goal with
          | Hx : prints ?v = true |- context [bind (lift (ToString ?v)) _] =>
              apply prints_ok in Hx; destruct Hx as (? & Hx); rewrite Hx
          end ];
      eexists; reflexivity.
  - printed H.
    destruct type_ as [| | | |kind| |]; try (eexists; reflexivity).
    unfold logged_fields in Ef. cbv beta zeta iota.
    destruct (String.eqb kind "checkout.session.completed"); [discriminate|].
    destruct (String.eqb kind "customer.subscription.created"); [discriminate|].
    destruct (String.eqb kind "customer.subscription.updated"); [discriminate|].
    destruct (String.eqb kind "customer.subscription.deleted"); [discriminate|].
    destruct (String.eqb kind "invoice.payment_failed"); [discriminate|].
    destruct (String.eqb kind "invoice.payment_succeeded"); [discriminate|].
    eexists; reflexivity.
Qed.

Lemma only_bind {A B} (p : Event -> Prop) (c : M A) (k : A -> M B) :
  only p c -> (forall a, only p (k a)) -> only p (bind c k).
Proof.
  unfold only, events, bind. intros Hc Hk ev.
  destruct c as [t [a|e]]; cbn [fst].
  - specialize (Hk a). destruct (k a) as [t' r]. cbn [fst] in *.
    intros H. apply in_app_or in H as [H|H]; auto.
  - apply Hc.
Qed.

Lemma only_lift {A} (p : Event -> Prop) (r : result JsError A) : only p (lift r).
Proof. intros ev []. Qed.

Lemma only_ret {A} (p : Event -> Prop) (a : A) : only p (ret a).
Proof. intros ev []. Qed.

Lemma only_emit (p : Event -> Prop) (ev : Event) : p ev -> only p (emit ev).
Proof. intros H ev' [<-|[]]. exact H. Qed.

Lemma only_if {A} (p : Event -> Prop) (b : bool) (c1 c2 : M A) :
  only p c1 -> only p c2 -> only p (if b then c1 else c2).
Proof. destruct b; auto. Qed.

Ltac only_steps :=
  repeat first
    [ apply only_lift | apply only_ret
    | apply only_if
    | apply only_bind; [|intros ?] ].

(** Whatever the event, the dispatch only logs. *)
Lemma dispatch_only_logs (event : value) : only is_log (dispatch_event event).
Proof.
  unfold dispatch_event. only_steps;
    apply only_emit; eexists; reflexivity.
Qed.

Lemma parse_and_dispatch_events (body : string) (ev : Event) :
  In ev (events (parse_and_dispatch body)) ->
  ev = Parsing body \/ exists line, ev = Logged line.
Proof.
  unfold parse_and_dispatch. rewrite bind_emit. cbn [events fst].
  intros [<-|H]; [now left | right].
  destruct (JSON.parse body) as [event|]; [|contradiction].
  revert H. apply (only_bind is_log); [apply dispatch_only_logs|].
  intros _. apply only_ret.
Qed.

(** The main handler on [POST /webhook], once the API key is set: the
    response of [handleWebhook] as it is, or the 500 envelope. *)
Lemma fetch_webhook (w : World) (request : Request) (env : Env) :
  truthy (env_value (STRIPE_SECRET_KEY env)) = true ->
  method request = "POST" -> pathname request = "/webhook" ->
  events (fetch w request env)
  = (events (handleWebhook w request env)
     ++ match outcome (handleWebhook w request env) with
        | Ok _ => []
        | Err err => [LoggedError "Worker error:" err]
        end)%list
  /\ (forall response,
        outcome (handleWebhook w request env) = Ok response ->
        outcome (fetch w request env) = Ok response)
  /\ (forall err,
        outcome (handleWebhook w request env) = Err err ->
        exists response,
          outcome (fetch w request env) = Ok response /\ status response = 500).
Proof.
  intros Hkey Hm Hp. unfold fetch, route. rewrite Hkey, Hm, Hp.
  cbn [String.eqb Ascii.eqb Bool.eqb andb negb].
  destruct (handleWebhook w request env) as [t [r|e]].
  - cbn. rewrite !app_nil_r. repeat split; intros; first [congruence | discriminate].
  - cbn. rewrite ?app_nil_r. repeat split; intros; try discriminate.
    eexists. split; reflexivity.
Qed.

(** C9 is refuted by the body [null], which is valid JSON: without a
    webhook secret it is parsed, reading [event.type] throws, and the
    answer is the 500 envelope instead of the acknowledgement. *)
Lemma null_body_not_acknowledged :
  let w := mkWorld 1700000123456 "2023-11-14T22:15:23.456Z"
             (fun _ => Rejected (TypeError "fetch failed")) in
  let request := mkRequest "POST" "/webhook" EmptyString [] [] (Some "null") in
  let env := mkEnv (Some "sk_test_1") None None None None in
  STRIPE_WEBHOOK_SECRET env = None
  /\ JSON.parse (request_text request) = Some VNull
  /\ outcome (fetch w request env) <> Ok acknowledgement
  /\ option_map status (match outcome (fetch w request env) with
                        | Ok r => Some r
                        | Err _ => None
                        end) = Some 500.
Proof.
  cbv zeta. repeat split; try reflexivity.
  vm_compute. discriminate.
Qed.

(** An event of a recognised kind without [data] fares the same. *)
Example event_without_data_not_acknowledged :
  let request := mkRequest "POST" "/webhook" EmptyString [] []
                   (Some (json_text "{'type':'invoice.payment_failed'}")) in
  JSON.parse (request_text request)
  = Some (VObj [("type", VStr "invoice.payment_failed")])
  /\ outcome (handleWebhook (mkWorld 0 EmptyString (fun _ => Rejected (TypeError "fetch failed")))
                request (mkEnv (Some "sk_test_1") None None None None))
     = Err (TypeError "Cannot read properties of undefined (reading 'object')").
Proof. split; vm_compute; reflexivity. Qed.

(** C9, amended. Without a webhook secret (unset or empty) [POST /webhook]
    verifies no signature, whatever the request: no verification event
    occurs.  Every request whose body is valid JSON holding an event that
    the dispatch can read is then dispatched, one line logged, and
    acknowledged with [{received: true}], by the handler and by the main
    handler alike, whatever [stripe-signature] header it carries. *)
Theorem unverified_webhook_acknowledges
    (w : World) (request : Request) (env : Env) (event : value) :
  truthy (env_value (STRIPE_WEBHOOK_SECRET env)) = false ->
  truthy (env_value (STRIPE_SECRET_KEY env)) = true ->
  method request = "POST" -> pathname request = "/webhook" ->
  JSON.parse (request_text request) = Some event ->
  readable_event event = true ->
  (exists line,
     handleWebhook w request env
     = ([Parsing (request_text request); Logged line], Ok acknowledgement)
     /\ fetch w request env
        = ([Parsing (request_text request); Logged line], Ok acknowledgement))
  /\ forall ev, In ev (events (fetch w request env)) -> is_verifying ev = false.
Proof.
  intros Hsecret Hkey Hm Hp Hparse Hread.
  destruct (dispatch_readable event Hread) as (line & Hd).
  assert (Hh : handleWebhook w request env
               = ([Parsing (request_text request); Logged line], Ok acknowledgement)).
  { rewrite handleWebhook_unverified by assumption.
    unfold parse_and_dispatch. rewrite Hparse, bind_emit, Hd. reflexivity. }
  destruct (fetch_webhook w request env Hkey Hm Hp) as (Hev & Hok & _).
  assert (Hf : fetch w request env
               = ([Parsing (request_text request); Logged line], Ok acknowledgement)).
  { destruct (fetch w request env) as [t r] eqn:E.
    unfold events, outcome in *. cbn [fst snd] in *.
    rewrite Hh in Hev, Hok. cbn [fst snd] in *.
    rewrite (Hok acknowledgement eq_refl), Hev. reflexivity. }
  split; [exists line; split; assumption|].
  intros ev Hin. rewrite Hf in Hin. cbn in Hin.
  destruct Hin as [<-|[<-|[]]]; reflexivity.
Qed.

Lemma unverified_webhook_acknowledges_witness :
  exists line,
    fetch (mkWorld 1700000123456 "2023-11-14T22:15:23.456Z"
             (fun _ => Rejected (TypeError "fetch failed")))
      (mkRequest "POST" "/webhook" EmptyString []
         [("stripe-signature", "t=1,v1=forged")]
         (Some (json_text "{'type':'invoice.payment_succeeded','data':{'object':{'id':'in_1'}}}")))
      (mkEnv (Some "sk_test_1") (Some EmptyString) None None None)
    = ([Parsing (json_text "{'type':'invoice.payment_succeeded','data':{'object':{'id':'in_1'}}}");
        Logged line],
       Ok acknowledgement).
Proof.
  destruct (proj1 (unverified_webhook_acknowledges
              (mkWorld 1700000123456 "2023-11-14T22:15:23.456Z"
                 (fun _ => Rejected (TypeError "fetch failed")))
              (mkRequest "POST" "/webhook" EmptyString []
                 [("stripe-signature", "t=1,v1=forged")]
                 (Some (json_text "{'type':'invoice.payment_succeeded','data':{'object':{'id':'in_1'}}}")))
              (mkEnv (Some "sk_test_1") (Some EmptyString) None None None)
              (VObj [("type", VStr "invoice.payment_succeeded");
                     ("data", VObj [("object", VObj [("id", VStr "in_1")])])])
              eq_refl eq_refl eq_refl eq_refl eq_refl eq_refl))
    as (line & _ & H).
  exists line. exact H.
Defined.

(** Without a webhook secret no request at all is verified. *)
Lemma unverified_webhook_never_verifies (w : World) (request : Request) (env : Env) :
  truthy (env_value (STRIPE_WEBHOOK_SECRET env)) = false ->
  forall ev, In ev (events (handleWebhook w request env)) -> is_verifying ev = false.
Proof.
  intros H ev Hin. rewrite handleWebhook_unverified in Hin by assumption.
  apply parse_and_dispatch_events in Hin as [->|[line ->]]; reflexivity.
Qed.

(** ** Routing of the payment worker *)

Lemma fetch_configured (w : World) (request : Request) (env : Env) :
  truthy (env_value (STRIPE_SECRET_KEY env)) = true ->
  String.eqb (method request) "OPTIONS" = false ->
  fetch w request env
  = bind (catch (route w request env)
            (fun err =>
               emit (LoggedError "Worker error:" err) ;;;
               ret (Plain (Response_json (VObj [("error", VStr (err_message err))]) 500 []))))
         (fun routed =>
            match routed with
            | Direct response => ret response
            | Plain response => ret (with_headers (cors_of request env) response)
            end).
Proof. intros Hkey Hm. unfold fetch. now rewrite Hm, Hkey. Qed.

(** C6 (as the code behaves). [/health] is matched on the path alone: a
    configured request that is not a preflight gets the 200 health
    payload with the CORS headers whatever its method, [POST] included,
    although [(POST, /health)] is not in the route table. *)
Theorem health_answers_any_method (w : World) (request : Request) (env : Env) :
  truthy (env_value (STRIPE_SECRET_KEY env)) = true ->
  method request <> "OPTIONS" ->
  pathname request = "/health" ->
  fetch w request env = ([], Ok (with_headers (cors_of request env) (health w)))
  /\ status (with_headers (cors_of request env) (health w)) = 200.
Proof.
  intros Hkey Hm Hp. apply String.eqb_neq in Hm.
  rewrite fetch_configured by assumption.
  unfold route. rewrite Hp. split; reflexivity.
Qed.

Lemma health_answers_any_method_witness :
  in_route_table "POST" "/health" = false
  /\ fetch (mkWorld 1700000123456 "2023-11-14T22:15:23.456Z"
              (fun _ => Rejected (TypeError "fetch failed")))
       (mkRequest "POST" "/health" EmptyString [] [] None)
       (mkEnv (Some "sk_test_1") None None None None)
     = ([], Ok (with_headers
                  (cors_of (mkRequest "POST" "/health" EmptyString [] [] None)
                           (mkEnv (Some "sk_test_1") None None None None))
                  (health (mkWorld 1700000123456 "2023-11-14T22:15:23.456Z"
                             (fun _ => Rejected (TypeError "fetch failed")))))).
Proof.
  split; [reflexivity|].
  refine (proj1 (health_answers_any_method _ _ _ _ _ _)).
  - reflexivity.
  - discriminate.
  - reflexivity.
Defined.

(** X9. Off the table and off [/health], a configured request that is
    not a preflight gets the 404 that lists the routes, with the CORS
    headers, and nothing else happens. *)
Lemma unmatched_route_not_found (w : World) (request : Request) (env : Env) :
  truthy (env_value (STRIPE_SECRET_KEY env)) = true ->
  method request <> "OPTIONS" ->
  pathname request <> "/health" ->
  in_route_table (method request) (pathname request) = false ->
  fetch w request env = ([], Ok (with_headers (cors_of request env) not_found))
  /\ status (with_headers (cors_of request env) not_found) = 404.
Proof.
  intros Hkey Hm Hh Ht. apply String.eqb_neq in Hm. apply String.eqb_neq in Hh.
  rewrite fetch_configured by assumption.
  unfold route. rewrite Hh.
  unfold in_route_table in Ht. rewrite Hh, andb_false_r in Ht. cbn [orb] in Ht.
  repeat (apply orb_false_iff in Ht; destruct Ht as [Ht ?]).
  repeat match goal with H : _ = false |- _ => rewrite H; clear H end.
  split; reflexivity.
Qed.

(** ** What [JSON.parse] builds *)

Lemma number_is_num (s : string) (v : value) (r : string) :
  JSON.number s = Some (v, r) -> exists m e, v = VNum m e.
Proof.
  unfold JSON.number.
  repeat match goal with
         | |- context [let '(_, _) := ?x in _] => destruct x
         | |- context [match ?x with Some _ => _ | None => _ end] => destruct x
         end; intros H; inversion H; eauto.
Qed.

Ltac parsed_head :=
  unfold option_map;
  repeat match goal with
         | |- context [match ?x with _ => _ end] => destruct x
         end;
  intros H; inversion H; discriminate.

Lemma element_defined (fuel : nat) (s : string) (v : value) (r : string) :
  JSON.element fuel s = Some (v, r) -> v <> VUndefined.
Proof.
  destruct fuel as [|f]; [discriminate|].
  cbn [JSON.element].
  destruct (JSON.skip_ws s) as [|c s0] eqn:E.
  - intros H. apply number_is_num in H as (m & e & ->). discriminate.
  - destruct c as [[] [] [] [] [] [] [] []];
      try (intros H; apply number_is_num in H as (m & e & ->); discriminate);
      parsed_head.
Qed.

(** Parsed data never is [undefined]. *)
Lemma parse_defined (text : string) (v : value) :
  JSON.parse text = Some v -> v <> VUndefined.
Proof.
  unfold JSON.parse.
  destruct (JSON.element _ text) as [[x r]|] eqn:E; [|discriminate].
  destruct (Text.is_empty _); [|discriminate].
  intros H. injection H as <-. exact (element_defined _ _ _ _ E).
Qed.

(** ** Checkout *)

Lemma destructurable_ok (property source : string) (v : value) :
  nullish v = false -> destructurable property source v = Ok tt.
Proof. destruct v; cbn; intros H; try discriminate; reflexivity. Qed.

(** C7 is refuted by the body [null], which is JSON and holds no price
    identifier: destructuring it throws, so the handler returns no
    missing-field error and the main handler answers 500.  A body that
    is not JSON fares alike.  Neither makes an outbound call. *)
Lemma null_checkout_body_not_400 :
  let w := mkWorld 1700000123456 "2023-11-14T22:15:23.456Z"
             (fun _ => Rejected (TypeError "fetch failed")) in
  let env := mkEnv (Some "sk_test_1") None None None None in
  let request := mkRequest "POST" "/checkout" EmptyString [] [] (Some "null") in
  let garbled := mkRequest "POST" "/checkout" EmptyString [] [] (Some "price_id=1") in
  JSON.parse (request_text request) = Some VNull
  /\ (exists err, handleCheckout w request env = ([Parsing "null"], Err err)
                  /\ err_name err = "TypeError")
  /\ option_map status (match outcome (fetch w request env) with
                        | Ok r => Some r
                        | Err _ => None
                        end) = Some 500
  /\ existsb is_fetch (events (fetch w request env)) = false
  /\ JSON.parse (request_text garbled) = None
  /\ option_map status (match outcome (fetch w garbled env) with
                        | Ok r => Some r
                        | Err _ => None
                        end) = Some 500
  /\ existsb is_fetch (events (fetch w garbled env)) = false.
Proof.
  cbv zeta. repeat split; try (vm_compute; reflexivity).
  eexists. split; vm_compute; reflexivity.
Qed.

(** C7, amended. A checkout body that is JSON, not [null], and has no
    price identifier (missing, or empty, zero, false or [null]) gets the
    400 [price_id is required]; the only event is the parsing of the
    body, so no outbound call is made. *)
Theorem checkout_requires_price_id
    (w : World) (request : Request) (env : Env) (body : value) :
  JSON.parse (request_text request) = Some body ->
  body <> VNull ->
  truthy (field body "price_id") = false ->
  handleCheckout w request env
  = ([Parsing (request_text request)],
     Ok (Response_json (VObj [("error", VStr "price_id is required")]) 400 []))
  /\ forall ev, In ev (events (handleCheckout w request env)) -> is_fetch ev = false.
Proof.
  intros Hparse Hnull Hprice.
  assert (E : handleCheckout w request env
              = ([Parsing (request_text request)],
                 Ok (Response_json (VObj [("error", VStr "price_id is required")]) 400 []))).
  { unfold handleCheckout, request_json. rewrite Hparse.
    rewrite emit_then_ret, bind_ok. cbn [fst snd].
    rewrite destructurable_ok.
    - rewrite bind_lift_ok. cbv zeta. rewrite Hprice. reflexivity.
    - pose proof (parse_defined _ _ Hparse).
      destruct body; try reflexivity; congruence. }
  split; [exact E|].
  rewrite E. intros ev [<-|[]]. reflexivity.
Qed.

Lemma checkout_requires_price_id_witness :
  handleCheckout (mkWorld 1700000123456 "2023-11-14T22:15:23.456Z"
                    (fun _ => Rejected (TypeError "fetch failed")))
    (mkRequest "POST" "/checkout" EmptyString [] [] (Some "{}"))
    (mkEnv (Some "sk_test_1") None None None None)
  = ([Parsing "{}"],
     Ok (Response_json (VObj [("error", VStr "price_id is required")]) 400 [])).
Proof.
  refine (proj1 (checkout_requires_price_id _
                   (mkRequest "POST" "/checkout" EmptyString [] [] (Some "{}"))
                   _ (VObj []) _ _ _)).
  - reflexivity.
  - discriminate.
  - reflexivity.
Defined.

(** ** The gateway *)

(** C5 is refuted on its provider part: for the default provider and a
    refused connection the 502 payload carries the message and the
    backend origin, and the provider name occurs nowhere in it. *)
Lemma gateway_502_omits_provider :
  let w := mkWorld 1700000123456 "2023-11-14T22:15:23.456Z"
             (fun _ => Rejected (TypeError "fetch failed")) in
  let request := mkRequest "POST" "/api/chat" EmptyString [] [] (Some "{}") in
  let env := mkEnv None None None None None in
  requested_provider request = "ollama"
  /\ Obj.get "ollama" Gateway.BACKENDS = Some "http://127.0.0.1:11434"
  /\ exists payload,
       outcome (Gateway.fetch w request env)
       = Ok (mkResponse 502 [("content-type", "application/json")] (Json payload))
       /\ value_mentions "fetch failed" payload = true
       /\ value_mentions "ollama" payload = false.
Proof.
  cbv zeta. split; [reflexivity|]. split; [reflexivity|].
  eexists. split; [vm_compute; reflexivity|]. split; vm_compute; reflexivity.
Qed.

(** C5, amended. For a request whose provider is one of the configured
    backends and whose upstream fetch is rejected, the gateway makes that
    one outbound call and answers 502 with a JSON payload holding the
    failure message under [error] and the origin of the backend, not the
    provider name, under [backend]. *)
Theorem gateway_transport_failure
    (w : World) (request : Request) (env : Env) (origin : string) (err : JsError) :
  Obj.get (requested_provider request) Gateway.BACKENDS = Some origin ->
  (forall r, f_url r = origin ++ pathname request ++ search request ->
             net w r = Rejected err) ->
  exists r,
    f_url r = origin ++ pathname request ++ search request
    /\ Gateway.fetch w request env
       = ([Fetched r],
          Ok (mkResponse 502 [("content-type", "application/json")]
                (Json (VObj [("error", VStr (err_message err)); ("backend", VStr origin)])))).
Proof.
  intros Hb Hnet. unfold Gateway.fetch. fold (requested_provider request).
  unfold Gateway.lookup. rewrite Hb.
  match goal with
  | |- context [fetch_out w ?r] => exists r; split; [reflexivity|]; set (req := r) in *
  end.
  unfold fetch_out. rewrite (Hnet req eq_refl). reflexivity.
Qed.

Lemma gateway_transport_failure_witness :
  exists r,
    f_url r = "https://api.anthropic.com" ++ "/v1/messages" ++ "?provider=claude"
    /\ Gateway.fetch
         (mkWorld 1700000123456 "2023-11-14T22:15:23.456Z"
            (fun _ => Rejected (TypeError "fetch failed")))
         (mkRequest "POST" "/v1/messages" "?provider=claude" [("provider", "claude")] []
            (Some "{}"))
         (mkEnv None None None (Some "key") None)
       = ([Fetched r],
          Ok (mkResponse 502 [("content-type", "application/json")]
                (Json (VObj [("error", VStr (err_message (TypeError "fetch failed")));
                             ("backend", VStr "https://api.anthropic.com")])))).
Proof.
  refine (gateway_transport_failure _
            (mkRequest "POST" "/v1/messages" "?provider=claude" [("provider", "claude")] []
               (Some "{}")) _ _ _ _ _).
  - reflexivity.
  - intros r _. reflexivity.
Defined.

(** ** The price list *)

Section Sorting.

Variable cmp : value -> value -> result JsError comparison.
Variable key : value -> Z.
Variable good : value -> Prop.
Hypothesis cmp_key : forall a b, good a -> good b -> cmp a b = Ok (key a ?= key b).

(** Inserting into a sorted list: nothing lost, sorted again, and the
    items of one key in their order. *)
Lemma sort_insert_ok (x : value) (l : list value) :
  good x -> Forall good l -> StronglySorted (fun a b => key a <= key b) l ->
  exists out,
    sort_insert cmp x l = Ok out
    /\ Permutation out (x :: l)
    /\ StronglySorted (fun a b => key a <= key b) out
    /\ forall n, filter (fun v => key v =? n) out = filter (fun v => key v =? n) (x :: l).
Proof.
  intros Hx Hl Hs. induction Hs as [|y r Hr IH Hy]; cbn [sort_insert].
  - exists [x]. split; [reflexivity|]. split; [reflexivity|].
    split; [repeat constructor | reflexivity].
  - inversion Hl as [|? ? Gy Gr]; subst.
    rewrite (cmp_key y x Gy Hx).
    destruct (Z.compare_spec (key y) (key x)) as [E|L|G].
    + exists (x :: y :: r).
      split; [reflexivity|]. split; [reflexivity|]. split; [|reflexivity].
      constructor; [now constructor|].
      constructor; [cbn; lia|].
      eapply Forall_impl; [|exact Hy]. cbn. intros; lia.
    + destruct (IH Gr) as (out & -> & Hp & Hso & Hf).
      exists (y :: out).
      split; [reflexivity|]. split; [|split].
      * rewrite Hp. apply perm_swap.
      * constructor; [assumption|].
        eapply Permutation_Forall; [symmetry; exact Hp|].
        constructor; [cbn; lia | assumption].
      * intros n. cbn [filter] in *. rewrite Hf.
        destruct (Z.eqb_spec (key y) n), (Z.eqb_spec (key x) n); try reflexivity. lia.
    + exists (x :: y :: r).
      split; [reflexivity|]. split; [reflexivity|]. split; [|reflexivity].
      constructor; [now constructor|].
      constructor; [cbn; lia|].
      eapply Forall_impl; [|exact Hy]. cbn. intros; lia.
Qed.

Lemma Array_sort_ok (l : list value) :
  Forall good l ->
  exists out,
    Array_sort cmp l = Ok out
    /\ Permutation out l
    /\ StronglySorted (fun a b => key a <= key b) out
    /\ forall n, filter (fun v => key v =? n) out = filter (fun v => key v =? n) l.
Proof.
  induction 1 as [|x r Hx Hr IH]; cbn [Array_sort].
  - exists []. split; [reflexivity|]. split; [reflexivity|].
    split; [constructor | reflexivity].
  - destruct IH as (t & -> & Hp & Hs & Hf).
    destruct (sort_insert_ok x t Hx) as (out & E & Hp' & Hs' & Hf'); try assumption.
    { eapply Permutation_Forall; [symmetry; exact Hp | assumption]. }
    exists out. split; [assumption|]. split; [|split; [assumption|]].
    + rewrite Hp'. now constructor.
    + intros n. rewrite Hf'. cbn [filter]. now rewrite Hf.
Qed.

End Sorting.

Lemma amount_number (v : value) (u : Z) :
  amount_units v = Some u ->
  ToNumber (or_else v (VNum 0 0)) = Ok (Double.Finite u).
Proof.
  destruct v; cbn [amount_units]; try discriminate.
  - intros E. injection E as <-. reflexivity.
  - intros E. injection E as <-. reflexivity.
  - unfold or_else, truthy.
    destruct (Double.of_decimal m e) as [| |u'] eqn:Ed; try discriminate.
    intros E. injection E as <-. cbn [Double.is_zero].
    destruct (Z.eqb_spec u' 0) as [->|]; cbn [negb ToNumber].
    + reflexivity.
    + now rewrite Ed.
Qed.

Lemma by_amount_key (a b : value) :
  good_view a -> good_view b -> by_amount a b = Ok (view_amount a ?= view_amount b).
Proof.
  unfold good_view, by_amount, view_amount.
  generalize (field a "amount") (field b "amount"). intros x y Hx Hy.
  destruct (amount_units x) as [u|] eqn:Ex; [|congruence].
  destruct (amount_units y) as [u'|] eqn:Ey; [|congruence].
  now rewrite (amount_number _ _ Ex), (amount_number _ _ Ey).
Qed.

(** *** Numbers *)
Lemma round_even_exact (n d : Z) : 0 < d -> (d | n) -> Double.round_even n d * d = n.
Proof.
  intros Hd [c ->]. unfold Double.round_even.
  rewrite Z.mod_mul, Z.div_mul by lia. cbn [Z.mul].
  destruct (Z.compare_spec 0 d); try lia.
Qed.

Lemma of_decimal_integer (m e : Z) :
  0 <= e -> Z.abs (m * 10 ^ e) <= 2 ^ 53 ->
  Double.of_decimal m e = Double.Finite (m * 10 ^ e * Double.one).
Proof.
  intros He Hb. unfold Double.of_decimal.
  destruct (Z.leb_spec 0 e); [|lia].
  assert (P10 : 0 < 10 ^ e) by (apply Z.pow_pos_nonneg; lia).
  set (N := Z.abs m * 10 ^ e).
  assert (HN : N = Z.abs (m * 10 ^ e)) by (unfold N; rewrite Z.abs_mul, (Z.abs_eq (10 ^ e)); lia).
  assert (Hone : 0 < Double.one) by (unfold Double.one; apply Z.pow_pos_nonneg; lia).
  assert (U : Double.round_units (N * Double.one) 1 = N * Double.one).
  { unfold Double.round_units. rewrite Z.div_1_r, Z.mul_1_l.
    destruct (Z.eq_dec N 0) as [E|E].
    - rewrite E. reflexivity.
    - assert (0 < N) by lia.
      assert (L : Z.log2 (N * Double.one) = 1074 + Z.log2 N)
        by (unfold Double.one; apply Z.log2_mul_pow2; lia).
      destruct (Z.ltb_spec (N * Double.one) (2 ^ 53)) as [Hlt|_].
      { exfalso. assert (2 ^ 53 <= Double.one)
          by (unfold Double.one; apply Z.pow_le_mono_r; lia).
        assert (1 * Double.one <= N * Double.one) by (apply Z.mul_le_mono_nonneg_r; lia).
        lia. }
      rewrite L.
      apply round_even_exact.
      + apply Z.pow_pos_nonneg; [lia|]. pose proof (Z.log2_nonneg N). lia.
      + destruct (Z.le_gt_cases (Z.log2 N) 52) as [Hs|Hs].
        * exists (N * 2 ^ (52 - Z.log2 N)). unfold Double.one.
          rewrite <- Z.mul_assoc, <- Z.pow_add_r by (pose proof (Z.log2_nonneg N); lia).
          f_equal. f_equal. lia.
        * assert (2 ^ 53 <= N).
          { apply Z.log2_le_pow2; lia. }
          assert (EN : N = 2 ^ 53) by lia.
          assert (Z.log2 N = 53) by (rewrite EN; apply Z.log2_pow2; lia).
          exists (2 ^ 52). rewrite H2. unfold Double.one. rewrite EN.
          rewrite <- !Z.pow_add_r by lia. f_equal. }
  fold N. rewrite U.
  destruct (Z.ltb_spec (N * Double.one) Double.overflow) as [_|Hov].
  - f_equal. unfold N. rewrite !Z.mul_assoc. f_equal. f_equal.
    destruct m; reflexivity.
  - exfalso. unfold Double.overflow, Double.one in *.
    assert (N * 2 ^ 1074 <= 2 ^ 53 * 2 ^ 1074) by (apply Z.mul_le_mono_nonneg_r; lia).
    rewrite <- Z.pow_add_r in H0 by lia.
    assert (2 ^ (53 + 1074) < 2 ^ 2098) by (apply Z.pow_lt_mono_r; lia).
    lia.
Qed.

(** An amount that is an integer counts as itself. *)
Lemma integer_amount_units (m e : Z) :
  0 <= e -> Z.abs (m * 10 ^ e) <= 2 ^ 53 ->
  amount_units (VNum m e) = Some (m * 10 ^ e * Double.one).
Proof. intros He Hb. cbn [amount_units]. now rewrite of_decimal_integer. Qed.

(** Numbers read and printed as the platform does. *)
Example number_texts :
  map (fun v => text_of v)
      [ VNum 1 21; VNum 1 (-7); VNum 1 20; VNum 1 (-6); VNum 1 (-1); VNum (-1234) (-2);
        VNum 9007199254740993 0; VNum 1 400; VNum (-1) 400; VNum 1 (-400) ]
  = [ "1e+21"; "1e-7"; "100000000000000000000"; "0.000001"; "0.1"; "-12.34";
      "9007199254740992"; "Infinity"; "-Infinity"; "0" ].
Proof. vm_compute. reflexivity. Qed.

Example number_truthiness :
  map truthy [VNum 0 0; VNum 0 5; VNum 1 (-400); VNum 5 (-324); VNum 1 400; VNum (-1) 0]
  = [false; false; false; true; true; true].
Proof. vm_compute. reflexivity. Qed.

Example text_to_number :
  map (fun s => Double.to_text (Double.of_text s))
      [ "100"; " 20 "; "abc"; ""; "0x1F"; "1e3"; ".5"; "5."; "-Infinity"; "12px"; "0x"; "-0x10" ]
  = [ "100"; "20"; "NaN"; "0"; "31"; "1000"; "0.5"; "5"; "-Infinity"; "NaN"; "NaN"; "NaN" ].
Proof. vm_compute. reflexivity. Qed.

(** The comparator converts text amounts, and ties those that are no
    numbers. *)
Example by_amount_texts :
  by_amount (VObj [("amount", VStr "100")]) (VObj [("amount", VStr "20")]) = Ok Gt
  /\ by_amount (VObj [("amount", VStr "abc")]) (VObj [("amount", VNum 5 0)]) = Ok Eq
  /\ by_amount (VObj [("amount", VNum 9007199254740993 0)])
               (VObj [("amount", VNum 9007199254740992 0)]) = Ok Eq
  /\ by_amount (VObj [("amount", VObj [("toString", VNum 1 0)])]) (VObj []) 
     = Err (TypeError "Cannot convert object to primitive value").
Proof. repeat split; vm_compute; reflexivity. Qed.

(** A number that is not finite is serialised as [null]. *)
Example infinite_number_serialised :
  res_body (Response_json (VObj [("amount", VNum 1 400)]) 200 [])
  = Json (VObj [("amount", VNull)]).
Proof. vm_compute. reflexivity. Qed.

Lemma Array_filter_kept (items : list value) :
  Forall (fun p => nullish p = false) items ->
  Array_filter price_kept items = Ok (filter listed items).
Proof.
  induction 1 as [|p r Hp Hr IH]; cbn [Array_filter filter]; [reflexivity|].
  unfold price_kept at 1. rewrite (member_field p "product" Hp), IH.
  fold (listed p). reflexivity.
Qed.

Lemma price_view_amount (p : value) :
  field (price_view p) "amount" = field p "unit_amount".
Proof. reflexivity. Qed.

(** C8 is refuted on lists that hold a [null] entry: the filter reads
    [p.product] of it and throws, so nothing is listed and the main
    handler answers 500, whatever the other entries are. *)
Lemma null_entry_lists_nothing :
  let price := VObj [("id", VStr "a"); ("unit_amount", VNum 500 0);
                     ("product", VObj [("id", VStr "p1")])] in
  let w := mkWorld 0 EmptyString
             (fun _ => Responded (mkResponse 200 []
                                    (Json (VObj [("data", VArr [price; VNull])])))) in
  let request := mkRequest "GET" "/prices" EmptyString [] [] None in
  let env := mkEnv (Some "sk_test_1") None None None None in
  listPrices (VArr [price; VNull])
  = Err (TypeError "Cannot read properties of null (reading 'product')")
  /\ option_map status (match outcome (fetch w request env) with
                        | Ok r => Some r
                        | Err _ => None
                        end) = Some 500.
Proof. cbv zeta. split; vm_compute; reflexivity. Qed.

(** C8, amended. For an upstream list whose entries are not [null] and
    whose amounts are missing, [null] or finite numbers, [listPrices]
    returns the reduced views
    [{id, amount, currency, interval, interval_count,
      product: {id, name, description, metadata}}]
    of exactly the entries whose product is present and not deleted (a
    permutation of them, so none is lost or invented), in ascending
    order of amount with a missing amount counting as 0; entries of
    equal amount keep their upstream order. *)
Theorem listPrices_filtered_sorted (items : list value) :
  Forall well_formed_price items ->
  let reduced p :=
    VObj [ ("id", field p "id");
           ("amount", field p "unit_amount");
           ("currency", field p "currency");
           ("interval", field (field p "recurring") "interval");
           ("interval_count", field (field p "recurring") "interval_count");
           ("product",
            VObj [ ("id", field (field p "product") "id");
                   ("name", field (field p "product") "name");
                   ("description", field (field p "product") "description");
                   ("metadata", field (field p "product") "metadata") ]) ] in
  let kept p :=
    truthy (field p "product") && negb (truthy (field (field p "product") "deleted")) in
  exists out,
    listPrices (VArr items) = Ok out
    /\ Permutation out (map reduced (filter kept items))
    /\ StronglySorted (fun a b => view_amount a <= view_amount b) out
    /\ forall n, filter (fun v => view_amount v =? n) out
                 = filter (fun v => view_amount v =? n) (map reduced (filter kept items)).
Proof.
  intros Hwf reduced kept.
  assert (Hnn : Forall (fun p => nullish p = false) items)
    by (eapply Forall_impl; [|exact Hwf]; intros p [H _]; exact H).
  assert (Hgood : Forall good_view (map price_view (filter listed items))).
  { apply Forall_map. apply Forall_forall. intros p Hin.
    apply filter_In in Hin as [Hin _].
    rewrite Forall_forall in Hwf. destruct (Hwf p Hin) as [_ Ha].
    unfold good_view. now rewrite price_view_amount. }
  unfold listPrices. rewrite Array_filter_kept by assumption.
  exact (Array_sort_ok by_amount view_amount good_view by_amount_key _ Hgood).
Qed.

Lemma listPrices_filtered_sorted_witness :
  let view id amount product :=
    VObj [ ("id", VStr id); ("amount", amount); ("currency", VUndefined);
           ("interval", VUndefined); ("interval_count", VUndefined);
           ("product",
            VObj [ ("id", VStr product); ("name", VUndefined);
                   ("description", VUndefined); ("metadata", VUndefined) ]) ] in
  exists out,
    listPrices
      (VArr [ VObj [("id", VStr "a"); ("unit_amount", VNum 500 0);
                    ("product", VObj [("id", VStr "p1")])];
              VObj [("id", VStr "b"); ("unit_amount", VNull);
                    ("product", VObj [("id", VStr "p2")])];
              VObj [("id", VStr "c"); ("unit_amount", VNum 100 0);
                    ("product", VObj [("id", VStr "p3"); ("deleted", VBool true)])];
              VObj [("id", VStr "d"); ("unit_amount", VNum 100 0)];
              VObj [("id", VStr "e"); ("unit_amount", VNum 995 (-1));
                    ("product", VObj [("id", VStr "p5")])] ]) = Ok out
    /\ Permutation out
         [ view "a" (VNum 500 0) "p1"; view "b" VNull "p2"; view "e" (VNum 995 (-1)) "p5" ]
    /\ StronglySorted (fun a b => view_amount a <= view_amount b) out.
Proof.
  cbv zeta.
  destruct (listPrices_filtered_sorted
              [ VObj [("id", VStr "a"); ("unit_amount", VNum 500 0);
                      ("product", VObj [("id", VStr "p1")])];
                VObj [("id", VStr "b"); ("unit_amount", VNull);
                      ("product", VObj [("id", VStr "p2")])];
                VObj [("id", VStr "c"); ("unit_amount", VNum 100 0);
                      ("product", VObj [("id", VStr "p3"); ("deleted", VBool true)])];
                VObj [("id", VStr "d"); ("unit_amount", VNum 100 0)];
                VObj [("id", VStr "e"); ("unit_amount", VNum 995 (-1));
                      ("product", VObj [("id", VStr "p5")])] ])
    as (out & H1 & H2 & H3 & _).
  - repeat constructor; vm_compute; discriminate.
  - exists out. split; [exact H1|]. split; [exact H2 | exact H3].
Defined.

(** The listing of the example: the entries kept, in their order. *)
Example listPrices_example :
  match listPrices
          (VArr [ VObj [("id", VStr "a"); ("unit_amount", VNum 500 0);
                        ("product", VObj [("id", VStr "p1")])];
                  VObj [("id", VStr "b"); ("unit_amount", VNull);
                        ("product", VObj [("id", VStr "p2")])];
                  VObj [("id", VStr "c"); ("unit_amount", VNum 100 0);
                        ("product", VObj [("id", VStr "p3"); ("deleted", VBool true)])];
                  VObj [("id", VStr "d"); ("unit_amount", VNum 100 0)];
                  VObj [("id", VStr "e"); ("unit_amount", VNum 995 (-1));
                        ("product", VObj [("id", VStr "p5")])] ]) with
  | Ok out => map (fun v => field v "id") out
  | Err _ => []
  end
  = [VStr "b"; VStr "e"; VStr "a"].
Proof. vm_compute. reflexivity. Qed.

(** ** Flattening and re-nesting *)

(** C4 is refuted as it stands: a tree with a nested object and a flat
    tree whose key is already bracketed flatten to the same wire text, so
    no re-nesting function gives back both. *)
Lemma no_renesting_round_trips : ~ exists unflatten, round_trips unflatten.
Proof.
  intros (unflatten & H).
  pose proof (H [("a", VObj [("b", VStr "1")])] "a[b]=1" eq_refl) as H1.
  pose proof (H [("a[b]", VStr "1")] "a[b]=1" eq_refl) as H2.
  rewrite H1 in H2. discriminate.
Qed.

(** Other trees that flatten alike: a sequence of objects (whose items
    print as [[object Object]]), an empty object, a number and its text. *)
Example flatten_collisions :
  encodeStripeParams (VObj [("line_items", VArr [VObj [("price", VStr "p")]])]) ""
  = encodeStripeParams (VObj [("line_items", VArr [VStr "[object Object]"])]) ""
  /\ encodeStripeParams (VObj [("metadata", VObj [])]) "" = encodeStripeParams (VObj []) ""
  /\ encodeStripeParams (VObj [("quantity", VNum 1 0)]) ""
     = encodeStripeParams (VObj [("quantity", VStr "1")]) ""
  /\ encodeStripeParams (VObj [("a", VObj [("0", VStr "x")])]) ""
     = encodeStripeParams (VObj [("a", VArr [VStr "x"])]) "".
Proof. repeat split; vm_compute; reflexivity. Qed.

Lemma uri_char_round_trip (c : ascii) (r : string) :
  uri_decode ((if uri_unreserved (Text.ascii_Z c) then String c EmptyString
               else percent (Text.ascii_Z c)) ++ r)
  = String c (uri_decode r).
Proof. destruct c as [[] [] [] [] [] [] [] []]; reflexivity. Qed.

Lemma uri_decode_encode (s : string) : uri_decode (uri_encode s) = s.
Proof.
  induction s as [|c r IH]; [reflexivity|].
  cbn [uri_encode]. rewrite uri_char_round_trip. now rewrite IH.
Qed.

Lemma uri_char_clean (c : ascii) :
  let e := if uri_unreserved (Text.ascii_Z c) then String c EmptyString
           else percent (Text.ascii_Z c) in
  Text.mem "&" e = false /\ Text.mem "=" e = false.
Proof. destruct c as [[] [] [] [] [] [] [] []]; split; reflexivity. Qed.

Lemma uri_encode_clean (s : string) :
  Text.mem "&" (uri_encode s) = false /\ Text.mem "=" (uri_encode s) = false.
Proof.
  induction s as [|c r [IH1 IH2]]; [split; reflexivity|].
  cbn [uri_encode]. rewrite !mem_append, IH1, IH2.
  destruct (uri_char_clean c) as [-> ->]. split; reflexivity.
Qed.

Lemma segment_ok_spec (g : string) :
  segment_ok g = true ->
  Text.mem "[" g = false /\ Text.mem "]" g = false
  /\ Text.mem "&" g = false /\ Text.mem "=" g = false.
Proof.
  unfold segment_ok. intros H.
  repeat (apply andb_true_iff in H; destruct H as [H ?]).
  repeat match goal with X : negb _ = true |- _ => apply negb_true_iff in X end.
  tauto.
Qed.

Lemma brackets_clean (c : ascii) (segments : list string) :
  (c = "&" \/ c = "=")%char ->
  path_ok segments = true -> Text.mem c (brackets segments) = false.
Proof.
  intros Hc. induction segments as [|g r IH]; cbn [brackets path_ok forallb]; [reflexivity|].
  intros H. apply andb_true_iff in H as [Hg Hr].
  apply segment_ok_spec in Hg as (_ & _ & Ha & He).
  change ("[" ++ g ++ "]" ++ brackets r)%string
    with (String "[" (g ++ String "]" (brackets r)))%string.
  cbn [Text.mem]. rewrite mem_append. cbn [Text.mem]. rewrite (IH Hr).
  destruct Hc as [->| ->]; [rewrite Ha | rewrite He]; reflexivity.
Qed.

Lemma key_text_clean (c : ascii) (path : list string) :
  (c = "&" \/ c = "=")%char ->
  path_ok path = true -> Text.mem c (key_text path) = false.
Proof.
  intros Hc. destruct path as [|k segments]; [reflexivity|].
  cbn [key_text path_ok forallb]. intros H. apply andb_true_iff in H as [Hk Hr].
  rewrite mem_append, (brackets_clean c segments Hc Hr), orb_false_r.
  apply segment_ok_spec in Hk as (_ & _ & Ha & He).
  destruct Hc as [->| ->]; assumption.
Qed.

(** Reading a key text gives its path back. *)
Lemma split_brackets (k : string) (segments : list string) :
  Text.mem "[" k = false -> path_ok segments = true ->
  Text.split "[" (k ++ brackets segments) = k :: map (fun g => g ++ "]")%string segments.
Proof.
  intros Hk Hs. revert k Hk.
  induction segments as [|g r IH]; intros k Hk.
  - cbn [brackets map]. rewrite append_empty_r. now apply split_without.
  - cbn [brackets map path_ok forallb] in *.
    apply andb_true_iff in Hs as [Hg Hr].
    apply segment_ok_spec in Hg as (Hg1 & _).
    change ("[" ++ g ++ "]" ++ brackets r)%string
      with (String "[" (g ++ String "]" (brackets r)))%string.
    rewrite split_at_first by assumption. f_equal.
    change (g ++ String "]" (brackets r))%string
      with (g ++ "]" ++ brackets r)%string.
    rewrite <- append_assoc. apply (IH Hr).
    rewrite mem_append, Hg1. reflexivity.
Qed.

Lemma key_path_text (k : string) (segments : list string) :
  path_ok (k :: segments) = true -> key_path (key_text (k :: segments)) = k :: segments.
Proof.
  cbn [path_ok forallb key_text]. intros H. apply andb_true_iff in H as [Hk Hs].
  pose proof (segment_ok_spec k Hk) as (Hk1 & _).
  unfold key_path. rewrite split_brackets by assumption.
  f_equal. rewrite map_map.
  clear Hk Hk1. induction segments as [|g r IH]; [reflexivity|].
  cbn [map forallb] in *. apply andb_true_iff in Hs as [Hg Hr].
  apply segment_ok_spec in Hg as (_ & Hg2 & _).
  change (g ++ "]")%string with (g ++ String "]" EmptyString)%string.
  rewrite split_at_first by assumption. cbn [hd]. now rewrite (IH Hr).
Qed.

Lemma wire_pair_piece (base : list string) (e : list string * string) :
  (base ++ fst e)%list <> [] -> path_ok (base ++ fst e) = true ->
  wire_pair (piece base e) = ((base ++ fst e)%list, snd e).
Proof.
  intros Hne Hok. unfold wire_pair, piece.
  change (key_text (base ++ fst e) ++ "=" ++ uri_encode (snd e))%string
    with (key_text (base ++ fst e) ++ String "=" (uri_encode (snd e)))%string.
  rewrite split_at_first by (apply key_text_clean; [now right | assumption]).
  rewrite split_without by apply uri_encode_clean.
  cbn [hd nth]. rewrite uri_decode_encode.
  destruct (base ++ fst e)%list as [|k segments] eqn:E; [congruence|].
  now rewrite key_path_text.
Qed.

Lemma piece_clean (base : list string) (e : list string * string) :
  path_ok (base ++ fst e) = true ->
  Text.mem "&" (piece base e) = false /\ non_empty (piece base e) = true.
Proof.
  intros Hok. unfold piece. split.
  - rewrite !mem_append. rewrite key_text_clean by (try assumption; now left).
    destruct (uri_encode_clean (snd e)) as [-> _]. reflexivity.
  - destruct (key_text (base ++ fst e)); reflexivity.
Qed.

(** Splitting what was joined. *)
Lemma split_join (l : list string) :
  Forall (fun s => Text.mem "&" s = false /\ non_empty s = true) l ->
  filter non_empty (Text.split "&" (Text.join "&" l)) = l.
Proof.
  induction 1 as [|s r [Hs Hn] Hr IH]; [reflexivity|].
  destruct r as [|s' r'].
  - cbn [Text.join]. rewrite split_without by assumption. cbn [filter]. now rewrite Hn.
  - change (Text.join "&" (s :: s' :: r'))
      with (s ++ String "&" (Text.join "&" (s' :: r')))%string.
    rewrite split_at_first by assumption. cbn [filter]. rewrite Hn. now rewrite IH.
Qed.

Section ValueInduction.

Variable P : value -> Prop.
Hypothesis P_undefined : P VUndefined.
Hypothesis P_null : P VNull.
Hypothesis P_bool : forall b, P (VBool b).
Hypothesis P_num : forall m e, P (VNum m e).
Hypothesis P_str : forall s, P (VStr s).
Hypothesis P_arr : forall items, Forall P items -> P (VArr items).
Hypothesis P_obj : forall props, Forall (fun p => P (snd p)) props -> P (VObj props).

Fixpoint value_induction (v : value) : P v :=
  match v with
  | VUndefined => P_undefined
  | VNull => P_null
  | VBool b => P_bool b
  | VNum m e => P_num m e
  | VStr s => P_str s
  | VArr items =>
      P_arr items
        ((fix all (l : list value) : Forall P l :=
            match l with
            | [] => Forall_nil P
            | x :: r => Forall_cons x (value_induction x) (all r)
            end) items)
  | VObj props =>
      P_obj props
        ((fix all (l : list (string * value)) : Forall (fun p => P (snd p)) l :=
            match l with
            | [] => Forall_nil _
            | p :: r =>
                Forall_cons p
                  (match p as q return P (snd q) with (_, x) => value_induction x end)
                  (all r)
            end) props)
  end.

End ValueInduction.

Lemma digit_segment (c : ascii) :
  is_digit_char c = true ->
  Ascii.eqb "[" c = false /\ Ascii.eqb "]" c = false
  /\ Ascii.eqb "&" c = false /\ Ascii.eqb "=" c = false.
Proof.
  unfold is_digit_char. intros H.
  destruct c as [[] [] [] [] [] [] [] []]; vm_compute in H; try discriminate;
    repeat split; reflexivity.
Qed.

Lemma digits_segment_ok (s : string) :
  all_chars is_digit_char s = true -> segment_ok s = true.
Proof.
  intros H.
  assert (K : Text.mem "[" s = false /\ Text.mem "]" s = false
              /\ Text.mem "&" s = false /\ Text.mem "=" s = false).
  { induction s as [|c r IH]; [repeat split; reflexivity|].
    cbn [all_chars] in H. apply andb_true_iff in H as [Hc Hr].
    destruct (IH Hr) as (A & B & C & D), (digit_segment c Hc) as (A' & B' & C' & D').
    cbn [Text.mem]. rewrite A, B, C, D, A', B', C', D'. repeat split; reflexivity. }
  destruct K as (A & B & C & D). unfold segment_ok. now rewrite A, B, C, D.
Qed.

Lemma all_digits_chars (s : string) : Obj.all_digits s = all_chars is_digit_char s.
Proof. induction s as [|c r IH]; [reflexivity|]. cbn. now rewrite IH. Qed.

Lemma indexed_keys {A} (l : list A) (kv : string * A) :
  In kv (indexed l) -> exists n, 0 <= n /\ fst kv = Number_toString n.
Proof.
  unfold indexed. destruct kv as [k v]. intros H. apply in_combine_l in H.
  apply in_map_iff in H as (i & <- & _). exists (Z.of_nat i). split; [lia | reflexivity].
Qed.

Lemma index_text_digits (n : Z) :
  0 <= n -> all_chars is_digit_char (Number_toString n) = true.
Proof.
  intros H. unfold Number_toString.
  replace (n <? 0) with false by (symmetry; apply Z.ltb_ge; lia).
  now apply dec_nat_chars.
Qed.

Lemma key_ok_parts (k : string) :
  key_ok k = true ->
  Text.is_empty k = false /\ Obj.all_digits k = false /\ segment_ok k = true.
Proof.
  unfold key_ok, segment_ok. intros H.
  apply andb_true_iff in H as [H H5]. apply andb_true_iff in H as [H H4].
  apply andb_true_iff in H as [H H3]. apply andb_true_iff in H as [H H2].
  apply andb_true_iff in H as [H0 H1].
  apply negb_true_iff in H0. apply negb_true_iff in H1.
  split; [assumption|]. split; [assumption|].
  now rewrite H2, H3, H4, H5.
Qed.

Lemma key_ok_segment (k : string) : key_ok k = true -> segment_ok k = true.
Proof. intros H. now apply key_ok_parts in H. Qed.

Lemma key_ok_nonempty (k : string) : key_ok k = true -> non_empty k = true.
Proof. destruct k; [discriminate | reflexivity]. Qed.

Lemma wire_safe_obj (props : list (string * value)) :
  wire_safe (VObj props) = true ->
  Forall (fun p => key_ok (fst p) = true
                   /\ (nullish (snd p) = true \/ wire_safe (snd p) = true)) props
  /\ distinct (map fst props) = true.
Proof.
  cbn [wire_safe]. intros H.
  apply andb_true_iff in H as [H Hd]. apply andb_true_iff in H as [H _].
  split; [|assumption].
  rewrite forallb_forall in H. apply Forall_forall. intros p Hin.
  specialize (H p Hin). apply andb_true_iff in H as [Hk Hv].
  apply orb_true_iff in Hv. tauto.
Qed.

Lemma nullish_leaves (v : value) : nullish v = true -> leaves v = [].
Proof. destruct v; try discriminate; reflexivity. Qed.

(** The paths of the leaves of a safe tree are free of syntax characters. *)
Lemma leaves_ok (v : value) :
  wire_safe v = true -> Forall (fun e => path_ok (fst e) = true) (leaves v).
Proof.
  induction v as [| | | | s | items _ | props IH] using value_induction;
    try discriminate; intros Hs.
  - repeat constructor.
  - cbn [leaves]. apply Forall_map. apply Forall_forall. intros kv Hin.
    apply indexed_keys in Hin as (n & Hn & E). cbn [fst path_ok forallb].
    rewrite E, digits_segment_ok by now apply index_text_digits. reflexivity.
  - apply wire_safe_obj in Hs as [Hs _]. cbn [leaves].
    induction props as [|[k x] r IHr]; cbn [flat_map]; [constructor|].
    inversion IH as [|? ? IHx IHrest]; subst.
    inversion Hs as [|? ? [Hk Hx] Hrest]; subst. cbn [fst snd] in *.
    apply Forall_app. split; [|now apply IHr].
    apply Forall_map. destruct Hx as [Hx|Hx].
    + rewrite (nullish_leaves x Hx). constructor.
    + eapply Forall_impl; [|exact (IHx Hx)].
      intros e He. cbn [fst path_ok forallb]. rewrite (key_ok_segment k Hk). exact He.
Qed.

Lemma brackets_app (a b : list string) :
  brackets (a ++ b) = (brackets a ++ brackets b)%string.
Proof.
  induction a as [|g r IH]; [reflexivity|].
  cbn [app brackets]. rewrite IH.
  change ("[" ++ g ++ "]" ++ brackets r ++ brackets b)%string
    with (String "[" (g ++ (String "]" (brackets r ++ brackets b))))%string.
  change ("[" ++ g ++ "]" ++ brackets r)%string
    with (String "[" (g ++ String "]" (brackets r)))%string.
  cbn [append]. f_equal. now rewrite append_assoc.
Qed.

Lemma full_key_text (base : list string) (k : string) :
  base = [] \/ non_empty (key_text base) = true ->
  full_key (key_text base) k = key_text (base ++ [k]).
Proof.
  intros [->|H].
  - cbn. now rewrite append_empty_r.
  - unfold full_key, non_empty in *. apply negb_true_iff in H. rewrite H.
    destruct base as [|h segments]; [discriminate|].
    cbn [key_text app]. rewrite brackets_app, append_assoc. reflexivity.
Qed.

Lemma key_text_extended (base : list string) (k : string) :
  non_empty k = true -> non_empty (key_text (base ++ [k])) = true.
Proof.
  intros Hk. destruct base as [|h segments].
  - cbn. destruct k; [discriminate | reflexivity].
  - cbn [app key_text]. rewrite brackets_app. cbn [brackets].
    destruct h; [|reflexivity]. cbn [append].
    destruct (brackets segments); reflexivity.
Qed.

Lemma key_ok_not_index (k : string) : key_ok k = true -> Obj.array_index k = None.
Proof.
  intros H. apply key_ok_parts in H as (_ & H & _). unfold Obj.array_index.
  destruct k as [|c r]; [reflexivity|]. now rewrite H.
Qed.

Lemma entries_names {A} (l : list (string * A)) :
  Forall (fun p => Obj.array_index (fst p) = None) l -> Obj.entries l = l.
Proof.
  intros H. unfold Obj.entries.
  assert (E1 : Obj.index_props l = []).
  { induction H as [|p r Hp Hr IH]; [reflexivity|].
    unfold Obj.index_props in *. cbn [fold_right]. now rewrite Hp. }
  assert (E2 : Obj.name_props l = l).
  { clear E1. induction H as [|p r Hp Hr IH]; [reflexivity|].
    change (Obj.name_props (p :: r))
      with (if match Obj.array_index (fst p) with Some _ => false | None => true end
            then p :: Obj.name_props r else Obj.name_props r).
    now rewrite Hp, IH. }
  now rewrite E1, E2.
Qed.

Lemma pushed_all {A} (f : A -> result JsError (list string)) (g : A -> list string)
    (l : list A) :
  Forall (fun x => f x = Ok (g x)) l -> pushed (map f l) = Ok (flat_map g l).
Proof.
  induction 1 as [|x r Hx Hr IH]; [reflexivity|].
  cbn [map pushed flat_map]. now rewrite Hx, IH.
Qed.

Lemma map_flat_map {A B C} (f : B -> C) (h : A -> list B) (l : list A) :
  map f (flat_map h l) = flat_map (fun x => map f (h x)) l.
Proof.
  induction l as [|x r IH]; [reflexivity|].
  cbn [flat_map]. now rewrite map_app, IH.
Qed.

Lemma flat_map_singleton {A B} (f : A -> B) (l : list A) :
  flat_map (fun x => [f x]) l = map f l.
Proof. induction l as [|x r IH]; [reflexivity|]. cbn. now rewrite IH. Qed.

Lemma piece_under (base : list string) (k : string) (e : list string * string) :
  piece base (k :: fst e, snd e) = piece (base ++ [k]) e.
Proof. unfold piece. cbn [fst snd]. now rewrite <- app_assoc. Qed.

Lemma path_ok_app (a b : list string) :
  path_ok (a ++ b) = path_ok a && path_ok b.
Proof. apply forallb_app. Qed.

(** The flattening of the entries of a safe object, from that of their
    values. *)
Lemma encode_props_from_values (props : list (string * value)) :
  Forall (fun p =>
            wire_safe (snd p) = true ->
            forall base, non_empty (key_text base) = true -> path_ok base = true ->
              encode_entry (key_text base) (snd p) (encodeStripeParams (snd p))
              = Ok (map (piece base) (leaves (snd p)))) props ->
  wire_safe (VObj props) = true ->
  forall base, (base = [] \/ non_empty (key_text base) = true) -> path_ok base = true ->
    encodeStripeParams (VObj props) (key_text base)
    = Ok (Text.join "&" (map (piece base) (leaves (VObj props)))).
Proof.
  intros IH Hs base Hb Hok.
  apply wire_safe_obj in Hs as [Hs _].
  cbn [encodeStripeParams]. rewrite entries_names.
  2:{ apply Forall_map. eapply Forall_impl; [|exact Hs].
      intros [k x] [Hk _]. now apply key_ok_not_index. }
  unfold joined. rewrite map_map.
  rewrite (pushed_all _ (fun p => map (piece (base ++ [fst p])) (leaves (snd p)))).
  - f_equal. f_equal. cbn [leaves]. rewrite map_flat_map.
    apply flat_map_ext. intros [k x].
    cbn [fst snd]. rewrite map_map. apply map_ext. intros e. symmetry. apply piece_under.
  - rewrite Forall_forall in *. intros [k x] Hin.
    specialize (IH _ Hin). destruct (Hs _ Hin) as [Hk Hx]. cbn [fst snd] in *.
    rewrite (full_key_text base k Hb).
    destruct Hx as [Hx|Hx].
    + rewrite (nullish_leaves x Hx). destruct x; try discriminate; reflexivity.
    + apply (IH Hx).
      * apply key_text_extended. now apply key_ok_nonempty.
      * rewrite path_ok_app, Hok. cbn. now rewrite (key_ok_segment k Hk).
Qed.

Lemma is_text_spec (v : value) : is_text v = true -> exists s, v = VStr s.
Proof. destruct v; try discriminate. eauto. Qed.

Lemma is_text_encoded (v : value) :
  is_text v = true -> encodeURIComponent v = Ok (uri_encode (text_of v)).
Proof.
  destruct v; try discriminate. cbn [is_text]. intros H.
  apply negb_true_iff in H. unfold encodeURIComponent. cbn [ToString text_of].
  now rewrite H.
Qed.

(** One turn of the loop on a safe value yields the pieces of its leaves. *)
Lemma encode_entry_leaves (v : value) :
  wire_safe v = true ->
  forall base, non_empty (key_text base) = true -> path_ok base = true ->
    encode_entry (key_text base) v (encodeStripeParams v)
    = Ok (map (piece base) (leaves v)).
Proof.
  induction v as [| | | | s | items _ | props IH] using value_induction;
    try discriminate; intros Hs base Hb Hok.
  - cbn [encode_entry leaves map]. rewrite (is_text_encoded (VStr s)) by exact Hs.
    unfold piece. cbn [fst snd text_of ToString].
    rewrite app_nil_r. reflexivity.
  - cbn [wire_safe] in Hs. apply andb_true_iff in Hs as [_ Hs].
    cbn [encode_entry leaves]. rewrite map_map.
    rewrite (pushed_all _ (fun kv => [piece base ([fst kv], text_of (snd kv))])).
    + now rewrite flat_map_singleton.
    + apply Forall_forall. intros [k x] Hin. cbn [fst snd].
      assert (Hx : is_text x = true).
      { rewrite forallb_forall in Hs. apply Hs. unfold indexed in Hin.
        now apply in_combine_r in Hin. }
      rewrite (is_text_encoded x Hx).
      apply is_text_spec in Hx as (s & ->).
      cbn [ToString text_of]. unfold piece. cbn [fst snd].
      rewrite <- (full_key_text base k) by now right.
      unfold full_key, non_empty in *. apply negb_true_iff in Hb. rewrite Hb.
      f_equal. f_equal. rewrite !append_assoc. reflexivity.
  - pose proof (encode_props_from_values props IH Hs base (or_intror Hb) Hok) as E.
    cbn [encode_entry]. rewrite E. f_equal.
    apply split_join. apply Forall_map.
    eapply Forall_impl; [|exact (leaves_ok _ Hs)].
    intros e He. apply piece_clean. now rewrite path_ok_app, Hok.
Qed.

(** Flattening a safe tree gives the pieces of its leaves, joined. *)
Lemma encode_leaves (props : list (string * value)) :
  wire_safe (VObj props) = true ->
  encodeStripeParams (VObj props) EmptyString
  = Ok (Text.join "&" (map (piece []) (leaves (VObj props)))).
Proof.
  intros Hs.
  apply (encode_props_from_values props) with (base := []); try assumption.
  - apply Forall_forall. intros p _. apply encode_entry_leaves.
  - now left.
  - reflexivity.
Qed.

(** *** Property lists *)

Lemma get_set_same {A} (k : string) (x : A) (ps : list (string * A)) :
  Obj.get k (Obj.set k x ps) = Some x.
Proof.
  induction ps as [|[k' y] r IH]; cbn [Obj.set Obj.get].
  - now rewrite String.eqb_refl.
  - destruct (String.eqb k k') eqn:E; cbn [Obj.get]; rewrite ?String.eqb_refl, ?E; auto.
Qed.

Lemma get_set_other {A} (k k' : string) (x : A) (ps : list (string * A)) :
  k <> k' -> Obj.get k (Obj.set k' x ps) = Obj.get k ps.
Proof.
  intros Hne. apply String.eqb_neq in Hne.
  induction ps as [|[k2 y] r IH]; cbn [Obj.set Obj.get].
  - now rewrite Hne.
  - destruct (String.eqb k' k2) eqn:E; cbn [Obj.get].
    + apply String.eqb_eq in E. subst k2. now rewrite Hne.
    + now rewrite IH.
Qed.

Lemma set_set {A} (k : string) (x y : A) (ps : list (string * A)) :
  Obj.set k y (Obj.set k x ps) = Obj.set k y ps.
Proof.
  induction ps as [|[k' z] r IH]; cbn [Obj.set].
  - now rewrite String.eqb_refl.
  - destruct (String.eqb k k') eqn:E; cbn [Obj.set]; rewrite ?String.eqb_refl, ?E; auto.
    now rewrite IH.
Qed.

Lemma set_fresh {A} (k : string) (x : A) (ps : list (string * A)) :
  Obj.get k ps = None -> Obj.set k x ps = (ps ++ [(k, x)])%list.
Proof.
  induction ps as [|[k' z] r IH]; cbn [Obj.set Obj.get app]; [reflexivity|].
  destruct (String.eqb k k'); [discriminate|]. intros H. now rewrite IH.
Qed.

Lemma get_app_none {A} (k : string) (a b : list (string * A)) :
  Obj.get k a = None -> Obj.get k (a ++ b) = Obj.get k b.
Proof.
  induction a as [|[k' z] r IH]; cbn [Obj.get app]; [reflexivity|].
  destruct (String.eqb k k'); [discriminate | exact IH].
Qed.

(** *** Putting the leaves back *)

Lemma fold_under (k : string) (L : list (list string * string)) :
  L <> [] ->
  forall t,
    fold_left put_pair (map (fun e => (k :: fst e, snd e)) L) t
    = VObj (Obj.set k (fold_left put_pair L (child k (props_of t))) (props_of t)).
Proof.
  induction L as [|e L' IH]; [congruence|]. intros _ t.
  cbn [map fold_left]. unfold put_pair at 2 4. cbn [fst snd put].
  destruct L' as [|e' L''].
  - reflexivity.
  - rewrite IH by discriminate. cbn [props_of].
    unfold child at 1. rewrite get_set_same. now rewrite set_set.
Qed.

Lemma build_props (ps : list (string * value)) :
  distinct (map fst ps) = true ->
  Forall (fun p => nullish (snd p) = false ->
                   leaves (snd p) <> []
                   /\ fold_left put_pair (leaves (snd p)) (VObj []) = unsequenced (snd p)) ps ->
  forall acc,
    (forall p, In p ps -> Obj.get (fst p) acc = None) ->
    fold_left put_pair
      (flat_map (fun p => map (fun e => (fst p :: fst e, snd e)) (leaves (snd p))) ps)
      (VObj acc)
    = VObj (acc ++ flat_map (fun p => if nullish (snd p) then []
                                      else [(fst p, unsequenced (snd p))]) ps).
Proof.
  induction ps as [|[k x] r IH]; intros Hd Hall acc Hacc.
  - cbn. now rewrite app_nil_r.
  - cbn [map distinct] in Hd. apply andb_true_iff in Hd as [Hk Hd].
    cbn [fst] in Hk. apply negb_true_iff in Hk.
    inversion Hall as [|? ? Hx Hr]; subst. cbn [fst snd] in Hx.
    cbn [flat_map fst snd]. rewrite fold_left_app.
    destruct (nullish x) eqn:Hn.
    + rewrite (nullish_leaves x Hn). cbn [map fold_left app].
      apply IH; try assumption. intros p Hin. apply Hacc. now right.
    + destruct (Hx eq_refl) as [Hne Hb].
      rewrite fold_under by assumption. cbn [props_of].
      assert (Hg : Obj.get k acc = None) by (apply (Hacc (k, x)); now left).
      unfold child. rewrite Hg, Hb, set_fresh by assumption.
      rewrite IH; try assumption.
      * now rewrite <- app_assoc.
      * intros p Hin. rewrite get_app_none by (apply Hacc; now right).
        cbn [Obj.get]. destruct (String.eqb (fst p) k) eqn:E; [|reflexivity].
        apply String.eqb_eq in E. exfalso.
        assert (Hex : existsb (String.eqb k) (map fst r) = true).
        { apply existsb_exists. exists (fst p). split.
          - now apply in_map.
          - rewrite E. apply String.eqb_refl. }
        congruence.
Qed.

Lemma Number_toString_injective (a b : Z) :
  Number_toString a = Number_toString b -> a = b.
Proof.
  intros H. pose proof (parseInt_Number_toString a) as Ha.
  rewrite H, parseInt_Number_toString in Ha. congruence.
Qed.

Lemma distinct_map_injective (f : nat -> string) (l : list nat) :
  (forall a b, f a = f b -> a = b) -> NoDup l -> distinct (map f l) = true.
Proof.
  intros Hf. induction 1 as [|x r Hx Hr IH]; [reflexivity|].
  cbn [map distinct]. rewrite IH, andb_true_r. apply negb_true_iff.
  destruct (existsb (String.eqb (f x)) (map f r)) eqn:E; [|reflexivity].
  apply existsb_exists in E as (y & Hin & Ey). apply String.eqb_eq in Ey.
  apply in_map_iff in Hin as (z & Hz & Hin). subst y.
  apply Hf in Ey. subst z. contradiction.
Qed.

Lemma combine_fst {A B} (ks : list A) (l : list B) :
  List.length ks = List.length l -> map fst (combine ks l) = ks.
Proof.
  revert l. induction ks as [|k r IH]; intros [|x l] H; try discriminate; [reflexivity|].
  cbn. f_equal. apply IH. now injection H.
Qed.

Lemma combine_snd {A B} (ks : list A) (l : list B) :
  List.length ks = List.length l -> map snd (combine ks l) = l.
Proof.
  revert l. induction ks as [|k r IH]; intros [|x l] H; try discriminate; [reflexivity|].
  cbn. f_equal. apply IH. now injection H.
Qed.

Lemma indexed_keys_list {A} (l : list A) :
  map fst (indexed l)
  = map (fun i => Number_toString (Z.of_nat i)) (seq 0 (List.length l)).
Proof. unfold indexed. apply combine_fst. now rewrite length_map, length_seq. Qed.

Lemma indexed_values {A} (l : list A) : map snd (indexed l) = l.
Proof. unfold indexed. apply combine_snd. now rewrite length_map, length_seq. Qed.

Lemma indexed_distinct {A} (l : list A) : distinct (map fst (indexed l)) = true.
Proof.
  rewrite indexed_keys_list. apply distinct_map_injective; [|apply seq_NoDup].
  intros a b H. apply Number_toString_injective in H. lia.
Qed.

Lemma wire_safe_not_nullish (v : value) : wire_safe v = true -> nullish v = false.
Proof. destruct v; try discriminate; reflexivity. Qed.

Lemma leaves_nonempty (v : value) : wire_safe v = true -> leaves v <> [].
Proof.
  induction v as [| | | | s | items _ | props IH] using value_induction;
    try discriminate; intros Hs.
  - cbn [wire_safe] in Hs. apply andb_true_iff in Hs as [Hn _].
    cbn [leaves]. destruct items as [|x r]; [discriminate|].
    unfold indexed. cbn [List.length seq map combine]. discriminate.
  - pose proof Hs as Hs'. apply wire_safe_obj in Hs' as [Hall _].
    cbn [wire_safe] in Hs. apply andb_true_iff in Hs as [Hs _].
    apply andb_true_iff in Hs as [_ Hex].
    apply existsb_exists in Hex as ([k x] & Hin & Hx). cbn [snd] in Hx.
    apply negb_true_iff in Hx.
    rewrite Forall_forall in IH, Hall.
    destruct (Hall _ Hin) as [_ [Hx'|Hx']]; cbn [snd] in Hx'; [congruence|].
    specialize (IH _ Hin Hx'). cbn [snd] in IH.
    cbn [leaves]. intros E.
    destruct (leaves x) as [|e l] eqn:El; [congruence|].
    assert (Hi : In (k :: fst e, snd e)
                    (flat_map (fun p => map (fun e => (fst p :: fst e, snd e))
                                            (leaves (snd p))) props)).
    { apply in_flat_map. exists (k, x). split; [assumption|].
      cbn [fst snd]. rewrite El. now left. }
    rewrite E in Hi. contradiction.
Qed.

Lemma text_items_leaves (items : list value) :
  forallb is_text items = true ->
  leaves (VArr items)
  = flat_map (fun p => map (fun e => (fst p :: fst e, snd e)) (leaves (snd p)))
             (indexed items)
  /\ VObj (indexed items)
     = VObj ([] ++ flat_map (fun p => if nullish (snd p) then []
                                      else [(fst p, unsequenced (snd p))]) (indexed items)).
Proof.
  intros H. cbn [leaves app].
  assert (K : Forall (fun p => is_text (snd p) = true) (indexed items)).
  { apply Forall_forall. intros [k x] Hin. cbn [snd].
    rewrite forallb_forall in H. apply H. unfold indexed in Hin.
    now apply in_combine_r in Hin. }
  induction K as [|[k x] r Hx Hr [IH1 IH2]]; [split; reflexivity|].
  cbn [snd] in Hx. apply is_text_spec in Hx as (s & ->).
  cbn [map flat_map app fst snd leaves nullish unsequenced text_of ToString].
  split; [now rewrite IH1 | injection IH2 as IH2; now rewrite <- IH2].
Qed.

(** Putting the leaves of a safe tree into an empty object rebuilds it,
    sequences still being objects keyed by index. *)
Lemma put_leaves (v : value) :
  wire_safe v = true -> fold_left put_pair (leaves v) (VObj []) = unsequenced v.
Proof.
  induction v as [| | | | s | items _ | props IH] using value_induction;
    try discriminate; intros Hs.
  - reflexivity.
  - cbn [wire_safe] in Hs. apply andb_true_iff in Hs as [_ Ht].
    destruct (text_items_leaves items Ht) as [E1 E2].
    rewrite E1. cbn [unsequenced]. rewrite E2.
    apply build_props.
    + apply indexed_distinct.
    + apply Forall_forall. intros [k x] Hin _. cbn [snd].
      assert (Hx : is_text x = true).
      { rewrite forallb_forall in Ht. apply Ht. unfold indexed in Hin.
        now apply in_combine_r in Hin. }
      apply is_text_spec in Hx as (s & ->). split; [discriminate | reflexivity].
    + reflexivity.
  - pose proof Hs as Hs'. apply wire_safe_obj in Hs' as [Hall Hd].
    cbn [leaves unsequenced].
    rewrite (build_props props Hd); [reflexivity| |reflexivity].
    rewrite Forall_forall in *. intros p Hin Hn.
    destruct (Hall p Hin) as [_ [Hx|Hx]]; [congruence|].
    split; [now apply leaves_nonempty | now apply IH].
Qed.

Lemma text_items_pruned (items : list value) :
  forallb is_text items = true ->
  map sequences items = items
  /\ flat_map (fun x => if nullish x then [] else [prune x]) items = items.
Proof.
  induction items as [|x r IH]; [split; reflexivity|].
  cbn [forallb]. intros H. apply andb_true_iff in H as [Hx Hr].
  apply is_text_spec in Hx as (s & ->). destruct (IH Hr) as [E1 E2].
  cbn [map flat_map sequences nullish prune app]. now rewrite E1, E2.
Qed.

Lemma digits_of_index {A} (l : list A) :
  forallb (fun p => Obj.all_digits (fst p)) (indexed l) = true.
Proof.
  apply forallb_forall. intros kv Hin.
  apply indexed_keys in Hin as (n & Hn & ->).
  rewrite all_digits_chars. now apply index_text_digits.
Qed.

(** Reading index-keyed objects as sequences gives the pruned tree. *)
Lemma sequences_unsequenced (v : value) :
  wire_safe v = true -> sequences (unsequenced v) = prune v.
Proof.
  induction v as [| | | | s | items _ | props IH] using value_induction;
    try discriminate; intros Hs.
  - reflexivity.
  - cbn [wire_safe] in Hs. apply andb_true_iff in Hs as [Hn Ht].
    cbn [unsequenced sequences prune]. rewrite digits_of_index, andb_true_r.
    assert (Hl : Nat.eqb (List.length (indexed items)) 0 = false).
    { destruct items; [discriminate | reflexivity]. }
    rewrite Hl. cbn [negb].
    destruct (text_items_pruned items Ht) as [E1 E2].
    rewrite E2, <- (map_map snd sequences), indexed_values. now rewrite E1.
  - pose proof Hs as Hs'. apply wire_safe_obj in Hs' as [Hall _].
    cbn [unsequenced sequences prune].
    set (qs := flat_map (fun p => if nullish (snd p) then []
                                  else [(fst p, unsequenced (snd p))]) props).
    assert (Hq : forallb (fun p => Obj.all_digits (fst p)) qs = false).
    { cbn [wire_safe] in Hs. apply andb_true_iff in Hs as [Hs _].
      apply andb_true_iff in Hs as [_ Hex].
      apply existsb_exists in Hex as ([k x] & Hin & Hx). cbn [snd] in Hx.
      apply negb_true_iff in Hx.
      destruct (forallb _ qs) eqn:E; [|reflexivity]. exfalso.
      rewrite forallb_forall in E.
      assert (Hi : In (k, unsequenced x) qs).
      { apply in_flat_map. exists (k, x). split; [assumption|].
        cbn [fst snd]. rewrite Hx. now left. }
      specialize (E _ Hi). cbn [fst] in E.
      rewrite Forall_forall in Hall. destruct (Hall _ Hin) as [Hk _]. cbn [fst] in Hk.
      apply key_ok_parts in Hk as (_ & Hk & _). congruence. }
    rewrite Hq, andb_false_r. f_equal. subst qs.
    clear Hq Hs. induction props as [|[k x] r IHr]; [reflexivity|].
    inversion IH as [|? ? IHx IHrest]; subst.
    inversion Hall as [|? ? [_ Hx] Hrest]; subst. cbn [fst snd] in *.
    cbn [flat_map]. rewrite map_app, (IHr IHrest Hrest). cbn [fst snd].
    destruct (nullish x) eqn:Hn; [reflexivity|].
    destruct Hx as [Hx|Hx]; [congruence|].
    cbn [map fst snd app]. now rewrite (IHx Hx).
Qed.

(** C4, amended. For every parameter tree whose keys are distinct within
    each object, are not empty, not made of digits only and hold none of
    [[ ] & =], whose scalar leaves are text without lone surrogates, whose
    sequences are not empty and hold such text only, and whose objects,
    the tree itself included, keep at least one entry that is not null,
    flattening into bracketed wire pairs succeeds and re-nesting the
    pairs reproduces the tree exactly, null and absent leaves dropped. *)
Theorem flatten_renest_round_trip (props : list (string * value)) :
  wire_safe (VObj props) = true ->
  exists wire,
    encodeStripeParams (VObj props) EmptyString = Ok wire
    /\ renest wire = prune (VObj props).
Proof.
  intros Hs. eexists. split; [now apply encode_leaves|].
  unfold renest, wire_pairs.
  pose proof (leaves_ok _ Hs) as Hok.
  rewrite split_join.
  2:{ apply Forall_map. eapply Forall_impl; [|exact Hok].
      intros e He. now apply piece_clean. }
  rewrite map_map.
  assert (E : map (fun e => wire_pair (piece [] e)) (leaves (VObj props))
              = leaves (VObj props)).
  { assert (Hne : Forall (fun e => fst e <> []) (leaves (VObj props))).
    { cbn [leaves]. apply Forall_forall. intros e Hin.
      apply in_flat_map in Hin as (p & _ & Hin).
      apply in_map_iff in Hin as (e' & <- & _). discriminate. }
    revert Hok Hne. generalize (leaves (VObj props)). intros l Hok Hne.
    induction l as [|[path s] r IHl]; [reflexivity|].
    inversion Hok; inversion Hne; subst. cbn [map fst] in *.
    rewrite wire_pair_piece by assumption. cbn [app fst snd].
    f_equal. now apply IHl. }
  rewrite E, put_leaves by assumption.
  now apply sequences_unsequenced.
Qed.

Lemma flatten_renest_round_trip_witness :
  exists wire,
    encodeStripeParams
      (VObj [ ("mode", VStr "subscription");
              ("metadata", VObj [ ("plan name", VStr "a&b=c"); ("note", VNull);
                                  ("tags", VArr [VStr "x"; VStr "y z"]) ]) ])
      EmptyString = Ok wire
    /\ renest wire
       = prune (VObj [ ("mode", VStr "subscription");
                       ("metadata", VObj [ ("plan name", VStr "a&b=c"); ("note", VNull);
                                           ("tags", VArr [VStr "x"; VStr "y z"]) ]) ]).
Proof.
  apply (flatten_renest_round_trip
           [ ("mode", VStr "subscription");
             ("metadata", VObj [ ("plan name", VStr "a&b=c"); ("note", VNull);
                                 ("tags", VArr [VStr "x"; VStr "y z"]) ]) ]).
  reflexivity.
Defined.

Example round_trip_example :
  encodeStripeParams
    (VObj [ ("mode", VStr "subscription");
            ("metadata", VObj [ ("plan name", VStr "a&b=c"); ("note", VNull);
                                ("tags", VArr [VStr "x"; VStr "y z"]) ]) ]) EmptyString
  = Ok "mode=subscription&metadata[plan name]=a%26b%3Dc&metadata[tags][0]=x&metadata[tags][1]=y%20z"
  /\ renest "mode=subscription&metadata[plan name]=a%26b%3Dc&metadata[tags][0]=x&metadata[tags][1]=y%20z"
     = VObj [ ("mode", VStr "subscription");
              ("metadata", VObj [ ("plan name", VStr "a&b=c");
                                  ("tags", VArr [VStr "x"; VStr "y z"]) ]) ].
Proof. split; vm_compute; reflexivity. Qed.

(** * Further properties of the workers *)

(** ** Signature verification: freshness, format, soundness *)

(** X1. A timestamp further than the tolerance from the clock is rejected
    as stale whatever the [v1] values are, the correctly computed
    signature included. *)
Theorem stale_timestamp_rejected
    (payload secret : string) (t date_now : Z) (sigs : list string) :
  tolerance < Z.abs (date_now / 1000 - t) ->
  Forall no_separator sigs -> sigs <> [] ->
  verifyStripeSignature date_now payload
    (Some (signature_header (Number_toString t) sigs)) secret
  = Err OutsideTolerance.
Proof.
  intros Hstale Hs Hne.
  rewrite verify_unfold by apply signature_header_nonempty.
  rewrite sig_parts_header by (try assumption; apply Number_toString_no_separator).
  destruct sigs as [|s0 r]; [congruence|].
  set (parts := [("t", Some (Number_toString t)); ("v1", Some (last (s0 :: r) EmptyString))]).
  change (sig_timestamp parts) with (Some (Number_toString t)).
  change (sig_signatures parts) with [Some (last (s0 :: r) EmptyString)].
  destruct (Number_toString t) eqn:E; [now apply Number_toString_nonempty in E|].
  rewrite <- E, parseInt_Number_toString.
  replace (tolerance <? Z.abs (date_now / 1000 - t)) with true
    by (symmetry; apply Z.ltb_lt; assumption).
  reflexivity.
Qed.

Lemma stale_timestamp_rejected_witness :
  verifyStripeSignature 1700000301000 "{}"
    (Some (signature_header (Number_toString 1700000000)
             [computed_signature "whsec_test" (Number_toString 1700000000) "{}"]))
    "whsec_test" = Err OutsideTolerance.
Proof.
  apply (stale_timestamp_rejected "{}" "whsec_test" 1700000000 1700000301000).
  - vm_compute. reflexivity.
  - repeat constructor; apply computed_signature_no_sep.
  - discriminate.
Defined.

(** X2. The format check comes first: a header with a timestamp but no
    [v1] value, and a header with a [v1] value but no timestamp, are
    rejected as badly formed, whatever the clock and the signature. *)
Theorem incomplete_header_rejected
    (date_now : Z) (payload secret ts s : string) :
  no_separator ts -> no_separator s ->
  verifyStripeSignature date_now payload (Some (signature_header ts [])) secret
  = Err InvalidFormat
  /\ verifyStripeSignature date_now payload (Some ("v1=" ++ s)) secret
     = Err InvalidFormat.
Proof.
  intros Hts [Hc He]. split.
  - rewrite verify_unfold by apply signature_header_nonempty.
    rewrite sig_parts_header by (try assumption; constructor).
    change (sig_timestamp [("t", Some ts)]) with (Some ts).
    destruct ts; reflexivity.
  - rewrite verify_unfold by discriminate.
    unfold sig_parts.
    rewrite split_without by (cbn [append Text.mem]; now rewrite Hc).
    cbn [fold_left].
    change ("v1=" ++ s)%string with ("v1" ++ String "=" s)%string.
    rewrite sig_assign_entry by (try assumption; try reflexivity; discriminate).
    reflexivity.
Qed.

Lemma incomplete_header_rejected_witness :
  verifyStripeSignature 1700000000000 "{}" (Some (signature_header "1700000000" []))
    "whsec_test" = Err InvalidFormat.
Proof.
  apply (incomplete_header_rejected 1700000000000 "{}" "whsec_test" "1700000000" "00");
    split; reflexivity.
Defined.

(** X3. Soundness: verification succeeds only for a header that is not
    empty, whose timestamp is present and either unreadable as a number
    or within the tolerance, and among whose collected [v1] values the
    HMAC computed over [timestamp.payload] occurs. *)
Theorem verified_means_signed
    (date_now : Z) (payload secret : string) (sigHeader : option string) :
  verifyStripeSignature date_now payload sigHeader secret = Ok tt ->
  exists header ts,
    sigHeader = Some header /\ header <> EmptyString
    /\ sig_timestamp (sig_parts header) = Some ts /\ ts <> EmptyString
    /\ In (Some (computed_signature secret ts payload)) (sig_signatures (sig_parts header))
    /\ forall t, parseInt ts = Some t -> Z.abs (date_now / 1000 - t) <= tolerance.
Proof.
  destruct sigHeader as [header|]; [|discriminate].
  destruct (string_dec header EmptyString) as [->|Hne]; [discriminate|].
  rewrite verify_unfold by assumption.
  destruct (sig_timestamp (sig_parts header)) as [ts|] eqn:Ets; [|discriminate].
  destruct ts as [|c r]; [discriminate|].
  destruct (List.length _ =? 0)%nat; [discriminate|].
  destruct (parseInt (String c r)) as [t|] eqn:Ep.
  - destruct (Z.ltb_spec tolerance (Z.abs (date_now / 1000 - t))); [discriminate|].
    destruct (existsb _ _) eqn:Eb; [|discriminate]. intros _.
    exists header, (String c r). repeat split; try assumption; try discriminate.
    + now apply existsb_signature.
    + intros t' Ht'. assert (t' = t) by congruence. subst t'. assumption.
  - destruct (existsb _ _) eqn:Eb; [|discriminate]. intros _.
    exists header, (String c r). repeat split; try assumption; try discriminate.
    + now apply existsb_signature.
    + intros t' Ht'. congruence.
Qed.

Lemma verified_means_signed_witness :
  exists header ts,
    Some (signature_header (Number_toString 1700000000)
            [computed_signature "whsec_test" (Number_toString 1700000000) "{}"])
    = Some header /\ header <> EmptyString
    /\ sig_timestamp (sig_parts header) = Some ts /\ ts <> EmptyString
    /\ In (Some (computed_signature "whsec_test" ts "{}")) (sig_signatures (sig_parts header))
    /\ forall t, parseInt ts = Some t -> Z.abs (1700000123456 / 1000 - t) <= tolerance.
Proof.
  apply (verified_means_signed 1700000123456 "{}" "whsec_test").
  rewrite verify_header.
  - cbn [last]. now rewrite String.eqb_refl.
  - vm_compute. discriminate.
  - repeat constructor; apply computed_signature_no_sep.
  - discriminate.
Defined.

(** ** The webhook handler: bodies, kinds, headers *)

Lemma handleWebhook_past (w : World) (request : Request) (env : Env) :
  past_signature_check w request env ->
  outcome (handleWebhook w request env) = outcome (parse_and_dispatch (request_text request))
  /\ exists checked,
       events (handleWebhook w request env)
       = (checked ++ events (parse_and_dispatch (request_text request)))%list
       /\ forall ev, In ev checked -> is_logged ev = false.
Proof.
  intros [H|(secret & Hs & Hne & Hv)].
  - rewrite handleWebhook_unverified by assumption.
    split; [reflexivity|]. exists []. split; [reflexivity | intros ev []].
  - rewrite (handleWebhook_configured w request env secret Hs Hne). cbv zeta.
    rewrite Hv. split; [reflexivity|].
    eexists [_]. split; [reflexivity|]. intros ev [<-|[]]. reflexivity.
Qed.

(** X4. A body that is not JSON, once past the signature check, is
    answered 400 [Invalid JSON]: it is distinct from the rejection of a
    signature, nothing is dispatched and nothing is logged. *)
Theorem invalid_body_rejected (w : World) (request : Request) (env : Env) :
  past_signature_check w request env ->
  JSON.parse (request_text request) = None ->
  outcome (handleWebhook w request env) = Ok (Response_text "Invalid JSON" 400)
  /\ forall ev, In ev (events (handleWebhook w request env)) -> is_logged ev = false.
Proof.
  intros Hpast Hparse.
  destruct (handleWebhook_past w request env Hpast) as (Ho & checked & He & Hc).
  assert (E : parse_and_dispatch (request_text request)
              = ([Parsing (request_text request)], Ok (Response_text "Invalid JSON" 400))).
  { unfold parse_and_dispatch. now rewrite Hparse. }
  rewrite Ho, He, E. split; [reflexivity|].
  intros ev Hin. apply in_app_or in Hin as [Hin|[<-|[]]]; [now apply Hc | reflexivity].
Qed.

Lemma invalid_body_rejected_witness :
  outcome (handleWebhook (mkWorld 0 EmptyString (fun _ => Rejected (TypeError "fetch failed")))
             (mkRequest "POST" "/webhook" EmptyString [] [] (Some "{not json"))
             (mkEnv (Some "sk_test_1") None None None None))
  = Ok (Response_text "Invalid JSON" 400).
Proof.
  refine (proj1 (invalid_body_rejected _ _ _ _ _)).
  - left. reflexivity.
  - reflexivity.
Defined.

(** X5. End to end with a secret: a request whose signature verifies and
    whose body is JSON holding a readable event is verified, parsed,
    dispatched with one log line and acknowledged with [{received: true}]
    and status 200, in this order. *)
Theorem verified_webhook_acknowledged
    (w : World) (request : Request) (env : Env) (secret : string) (event : value) :
  STRIPE_WEBHOOK_SECRET env = Some secret -> secret <> EmptyString ->
  verifyStripeSignature (Date_now w) (request_text request)
    (Obj.get "stripe-signature" (req_headers request)) secret = Ok tt ->
  JSON.parse (request_text request) = Some event ->
  readable_event event = true ->
  exists line,
    handleWebhook w request env
    = ([ Verifying (request_text request) (Obj.get "stripe-signature" (req_headers request));
         Parsing (request_text request); Logged line ],
       Ok acknowledgement)
    /\ status acknowledgement = 200
    /\ res_body acknowledgement = Json (VObj [("received", VBool true)]).
Proof.
  intros Hs Hne Hv Hparse Hread.
  destruct (dispatch_readable event Hread) as (line & Hd).
  exists line. split; [|split; reflexivity].
  rewrite (handleWebhook_configured w request env secret Hs Hne). cbv zeta.
  rewrite Hv. unfold parse_and_dispatch. rewrite Hparse, bind_emit, Hd. reflexivity.
Qed.

Lemma verified_webhook_acknowledged_witness :
  exists line,
    handleWebhook
      (mkWorld 1700000123456 "2023-11-14T22:15:23.456Z"
         (fun _ => Rejected (TypeError "fetch failed")))
      (mkRequest "POST" "/webhook" EmptyString []
         [("stripe-signature",
           signature_header (Number_toString 1700000000)
             [computed_signature "whsec_test" (Number_toString 1700000000)
                (json_text "{'type':'invoice.payment_succeeded','data':{'object':{'id':'in_1'}}}")])]
         (Some (json_text "{'type':'invoice.payment_succeeded','data':{'object':{'id':'in_1'}}}")))
      (mkEnv (Some "sk_test_1") (Some "whsec_test") None None None)
    = ([ Verifying (json_text "{'type':'invoice.payment_succeeded','data':{'object':{'id':'in_1'}}}")
           (Some (signature_header (Number_toString 1700000000)
                    [computed_signature "whsec_test" (Number_toString 1700000000)
                       (json_text "{'type':'invoice.payment_succeeded','data':{'object':{'id':'in_1'}}}")]));
         Parsing (json_text "{'type':'invoice.payment_succeeded','data':{'object':{'id':'in_1'}}}");
         Logged line ],
       Ok acknowledgement).
Proof.
  destruct (verified_webhook_acknowledged
              (mkWorld 1700000123456 "2023-11-14T22:15:23.456Z"
                 (fun _ => Rejected (TypeError "fetch failed")))
              (mkRequest "POST" "/webhook" EmptyString []
                 [("stripe-signature",
                   signature_header (Number_toString 1700000000)
                     [computed_signature "whsec_test" (Number_toString 1700000000)
                        (json_text "{'type':'invoice.payment_succeeded','data':{'object':{'id':'in_1'}}}")])]
                 (Some (json_text "{'type':'invoice.payment_succeeded','data':{'object':{'id':'in_1'}}}")))
              (mkEnv (Some "sk_test_1") (Some "whsec_test") None None None)
              "whsec_test"
              (VObj [("type", VStr "invoice.payment_succeeded");
                     ("data", VObj [("object", VObj [("id", VStr "in_1")])])]))
    as (line & H & _).
  - reflexivity.
  - discriminate.
  - cbn [request_text req_body req_headers Obj.get String.eqb Ascii.eqb Bool.eqb Date_now].
    rewrite verify_header.
    + cbn [last]. now rewrite String.eqb_refl.
    + vm_compute. discriminate.
    + repeat constructor; apply computed_signature_no_sep.
    + discriminate.
  - reflexivity.
  - reflexivity.
  - exists line. exact H.
Defined.

(** X6. An event of a kind the handler does not know is not an error:
    its [data] is not read, one line [Unhandled event: kind] is logged
    and the request is acknowledged. *)
Theorem unknown_kind_acknowledged
    (w : World) (request : Request) (env : Env) (event : value) (kind : string) :
  past_signature_check w request env ->
  JSON.parse (request_text request) = Some event ->
  member event "type" = Ok (VStr kind) ->
  logged_fields kind = None ->
  outcome (handleWebhook w request env) = Ok acknowledgement
  /\ dispatch_event event = ([Logged ("Unhandled event: " ++ kind)], Ok tt).
Proof.
  intros Hpast Hparse Ht Hk.
  assert (Hd : dispatch_event event = ([Logged ("Unhandled event: " ++ kind)], Ok tt)).
  { unfold dispatch_event. rewrite Ht, bind_lift_ok. cbv beta zeta iota.
    unfold logged_fields in Hk.
    destruct (String.eqb kind "checkout.session.completed"); [discriminate|].
    destruct (String.eqb kind "customer.subscription.created"); [discriminate|].
    destruct (String.eqb kind "customer.subscription.updated"); [discriminate|].
    destruct (String.eqb kind "customer.subscription.deleted"); [discriminate|].
    destruct (String.eqb kind "invoice.payment_failed"); [discriminate|].
    destruct (String.eqb kind "invoice.payment_succeeded"); [discriminate|].
    reflexivity. }
  split; [|exact Hd].
  destruct (handleWebhook_past w request env Hpast) as (Ho & _).
  rewrite Ho. unfold parse_and_dispatch. rewrite Hparse, bind_emit, Hd. reflexivity.
Qed.

Lemma unknown_kind_acknowledged_witness :
  outcome (handleWebhook (mkWorld 0 EmptyString (fun _ => Rejected (TypeError "fetch failed")))
             (mkRequest "POST" "/webhook" EmptyString [] []
                (Some (json_text "{'type':'charge.refunded'}")))
             (mkEnv (Some "sk_test_1") None None None None))
  = Ok acknowledgement.
Proof.
  refine (proj1 (unknown_kind_acknowledged _ _ _
                   (VObj [("type", VStr "charge.refunded")]) "charge.refunded" _ _ _ _)).
  - left. reflexivity.
  - reflexivity.
  - reflexivity.
  - reflexivity.
Defined.

Lemma parse_and_dispatch_responses (body : string) (response : Response) :
  outcome (parse_and_dispatch body) = Ok response ->
  response = acknowledgement \/ response = Response_text "Invalid JSON" 400.
Proof.
  unfold parse_and_dispatch. rewrite bind_emit. cbn [outcome snd].
  destruct (JSON.parse body) as [event|].
  - unfold bind. destruct (dispatch_event event) as [t [[]|e]]; cbn; intros H.
    + left. congruence.
    + discriminate.
  - cbn. intros H. right. congruence.
Qed.

(** X7. The responses of the webhook route are returned as the handler
    built them: the main handler adds no CORS header to them, whichever
    [Origin] the request carries. *)
Theorem webhook_response_without_cors
    (w : World) (request : Request) (env : Env) (response : Response) :
  truthy (env_value (STRIPE_SECRET_KEY env)) = true ->
  method request = "POST" -> pathname request = "/webhook" ->
  outcome (handleWebhook w request env) = Ok response ->
  outcome (fetch w request env) = Ok response
  /\ Obj.get "access-control-allow-origin" (res_headers response) = None.
Proof.
  intros Hkey Hm Hp Hr.
  destruct (fetch_webhook w request env Hkey Hm Hp) as (_ & Hok & _).
  split; [now apply Hok|].
  assert (K : response = acknowledgement
              \/ exists msg, response = Response_text msg 400).
  { destruct (truthy (env_value (STRIPE_WEBHOOK_SECRET env))) eqn:Es.
    - apply truthy_env in Es as (secret & Hs & Hne).
      rewrite (handleWebhook_configured w request env secret Hs Hne) in Hr. cbv zeta in Hr.
      destruct (verifyStripeSignature _ _ _ secret) as [[]|err]; cbn [outcome snd] in Hr.
      + apply parse_and_dispatch_responses in Hr as [->| ->]; eauto.
      + right. eexists. injection Hr as <-. reflexivity.
    - rewrite handleWebhook_unverified in Hr by assumption.
      apply parse_and_dispatch_responses in Hr as [->| ->]; eauto. }
  destruct K as [->|[msg ->]]; reflexivity.
Qed.

Lemma webhook_response_without_cors_witness :
  outcome (fetch (mkWorld 0 EmptyString (fun _ => Rejected (TypeError "fetch failed")))
             (mkRequest "POST" "/webhook" EmptyString []
                [("origin", "https://shop.example")] (Some "{}"))
             (mkEnv (Some "sk_test_1") None None None None))
  = Ok acknowledgement.
Proof.
  refine (proj1 (webhook_response_without_cors _ _ _ _ _ _ _ _)); reflexivity.
Defined.

(** ** The main handler: preflight, readiness, envelope, CORS *)

(** A preflight is answered at once, whatever the path and whether
    or not the service is configured: 204, no body, the CORS headers, and
    nothing else happens. *)
Theorem preflight_short_circuits (w : World) (request : Request) (env : Env) :
  method request = "OPTIONS" ->
  fetch w request env = ([], Ok (mkResponse 204 (cors_of request env) NoBody)).
Proof. intros Hm. unfold fetch. rewrite Hm. reflexivity. Qed.

Lemma preflight_short_circuits_witness :
  fetch (mkWorld 0 EmptyString (fun _ => Rejected (TypeError "fetch failed")))
    (mkRequest "OPTIONS" "/webhook" EmptyString [] [] None)
    (mkEnv None None None None None)
  = ([], Ok (mkResponse 204
               (cors_of (mkRequest "OPTIONS" "/webhook" EmptyString [] [] None)
                        (mkEnv None None None None None)) NoBody)).
Proof. apply preflight_short_circuits. reflexivity. Defined.

(** Without the API key (unset or empty) every request that is not a
    preflight is answered 503 with the CORS headers before any routing:
    [/health] and [/webhook] included, and no body is parsed, no
    signature verified, no outbound call made. *)
Theorem unconfigured_short_circuits (w : World) (request : Request) (env : Env) :
  truthy (env_value (STRIPE_SECRET_KEY env)) = false ->
  method request <> "OPTIONS" ->
  fetch w request env = ([], Ok (Response_json unconfigured 503 (cors_of request env)))
  /\ status (Response_json unconfigured 503 (cors_of request env)) = 503.
Proof.
  intros Hkey Hm. apply String.eqb_neq in Hm.
  unfold fetch. rewrite Hm, Hkey. split; reflexivity.
Qed.

Lemma unconfigured_short_circuits_witness :
  fetch (mkWorld 0 EmptyString (fun _ => Rejected (TypeError "fetch failed")))
    (mkRequest "GET" "/health" EmptyString [] [] None)
    (mkEnv (Some EmptyString) (Some "whsec_test") None None None)
  = ([], Ok (Response_json unconfigured 503
               (cors_of (mkRequest "GET" "/health" EmptyString [] [] None)
                        (mkEnv (Some EmptyString) (Some "whsec_test") None None None)))).
Proof.
  refine (proj1 (unconfigured_short_circuits _ _ _ _ _)); [reflexivity | discriminate].
Defined.

Lemma returns_ret {A} (P : A -> Prop) (a : A) : P a -> returns P (ret a).
Proof. intros H b E. cbn in E. now injection E as <-. Qed.

Lemma returns_bind {A B} (P : B -> Prop) (c : M A) (k : A -> M B) :
  (forall a, returns P (k a)) -> returns P (bind c k).
Proof.
  intros H b. unfold bind, outcome. destruct c as [t [a|e]]; [|discriminate].
  specialize (H a b). unfold outcome in H. destruct (k a) as [t' r]. exact H.
Qed.

Lemma returns_if {A} (P : A -> Prop) (b : bool) (c1 c2 : M A) :
  returns P c1 -> returns P c2 -> returns P (if b then c1 else c2).
Proof. destruct b; auto. Qed.

Lemma returns_then {A B} (P : B -> Prop) (f : A -> B) (c : M A) :
  returns (fun a => P (f a)) c -> returns P (bind c (fun a => ret (f a))).
Proof.
  intros H b. unfold bind, outcome. specialize (H) as H'. unfold returns, outcome in H'.
  destruct c as [t [a|e]]; [|discriminate].
  cbn. intros E. injection E as <-. now apply H'.
Qed.

Ltac returns_steps :=
  cbv zeta;
  repeat first
    [ apply returns_if
    | apply returns_bind; intros ?
    | apply returns_ret ].

Lemma handleWebhook_responses (w : World) (request : Request) (env : Env) :
  returns (fun r => r = acknowledgement \/ exists msg, r = Response_text msg 400)
          (handleWebhook w request env).
Proof.
  intros response Hr.
  destruct (truthy (env_value (STRIPE_WEBHOOK_SECRET env))) eqn:Es.
  - apply truthy_env in Es as (secret & Hs & Hne).
    rewrite (handleWebhook_configured w request env secret Hs Hne) in Hr. cbv zeta in Hr.
    destruct (verifyStripeSignature _ _ _ secret) as [[]|err]; cbn [outcome snd] in Hr.
    + apply parse_and_dispatch_responses in Hr as [->| ->]; eauto.
    + right. eexists. injection Hr as <-. reflexivity.
  - rewrite handleWebhook_unverified in Hr by assumption.
    apply parse_and_dispatch_responses in Hr as [->| ->]; eauto.
Qed.

Lemma route_statuses (w : World) (request : Request) (env : Env) :
  returns (fun routed => In (status (routed_response routed)) [200; 400; 404])
          (route w request env).
Proof.
  unfold route. cbv zeta.
  repeat apply returns_if.
  - apply returns_ret. cbn. tauto.
  - apply returns_then. unfold handleCheckout. returns_steps; cbn; tauto.
  - apply returns_then. unfold handlePortal. returns_steps; cbn; tauto.
  - apply returns_then. intros response E.
    destruct (handleWebhook_responses w request env response E) as [->|[msg ->]]; cbn; tauto.
  - apply returns_then. unfold handlePrices. returns_steps; cbn; tauto.
  - apply returns_ret. cbn. tauto.
Qed.

Lemma returns_catch {A} (P : A -> Prop) (c : M A) (h : JsError -> M A) :
  returns P c -> (forall e, returns P (h e)) -> returns P (catch c h).
Proof.
  intros Hc Hh a. unfold catch, outcome. unfold returns, outcome in Hc.
  destruct c as [t [b|e]].
  - apply Hc.
  - specialize (Hh e a). unfold outcome in Hh. destruct (h e) as [t' r]. exact Hh.
Qed.

(** X8. The statuses of the Stripe worker.  Whatever the request, the
    environment and the answers of the network, a response of the main
    handler carries one of the statuses 200, 204, 400, 404, 500 and
    503; it carries 204 exactly for an OPTIONS request, and 503
    exactly for another request made while STRIPE_SECRET_KEY is unset
    or empty.  In particular an upstream status is never passed on. *)
Theorem response_statuses
    (w : World) (request : Request) (env : Env) (response : Response) :
  outcome (fetch w request env) = Ok response ->
  In (status response) [200; 204; 400; 404; 500; 503]
  /\ (status response = 204 <-> method request = "OPTIONS"%string)
  /\ (status response = 503 <->
        method request <> "OPTIONS"%string
        /\ truthy (env_value (STRIPE_SECRET_KEY env)) = false).
Proof.
  unfold fetch. cbv zeta.
  destruct (String.eqb_spec (method request) "OPTIONS") as [Hm|Hm].
  { cbn. intros E. injection E as <-. cbn.
    repeat split; try tauto; try discriminate; intros []; contradiction. }
  destruct (truthy (env_value (STRIPE_SECRET_KEY env))) eqn:Hk; cbn [negb].
  2:{ cbn. intros E. injection E as <-. cbn.
      repeat split; try tauto; try discriminate; auto. }
  intros E. unfold bind, outcome in E.
  match type of E with context [catch ?c ?h] =>
    assert (returns (fun routed => In (status (routed_response routed)) [200; 400; 404; 500])
              (catch c h)) as Hc;
    [ | unfold returns, outcome in Hc; destruct (catch c h) as [t [routed|e]] ]
  end.
  - apply returns_catch.
    + intros routed Hr. apply route_statuses in Hr. cbn in Hr |- *. tauto.
    + intros e. apply returns_bind. intros _. apply returns_ret. cbn. tauto.
  - specialize (Hc routed eq_refl).
    assert (status response = status (routed_response routed)) as ->.
    { destruct routed; cbn in E; injection E as <-; reflexivity. }
    cbn [In] in Hc |- *.
    split; [tauto|]. split; split; intros H.
    + rewrite H in Hc. decompose [or] Hc; discriminate || contradiction.
    + contradiction.
    + rewrite H in Hc. decompose [or] Hc; discriminate || contradiction.
    + destruct H as [_ H]. discriminate.
  - discriminate.
Qed.

Lemma response_statuses_witness :
  outcome (fetch (mkWorld 0 EmptyString (fun _ => Rejected (TypeError "fetch failed")))
             (mkRequest "GET" "/prices" EmptyString [] [] None)
             (mkEnv (Some "sk_test_1") None None None None))
  = Ok (with_headers
          (cors_of (mkRequest "GET" "/prices" EmptyString [] [] None)
                   (mkEnv (Some "sk_test_1") None None None None))
          (Response_json (VObj [("error", VStr "fetch failed")]) 500 []))
  /\ In 500 [200; 204; 400; 404; 500; 503]
  /\ (500 = 204 <-> "GET"%string = "OPTIONS"%string)
  /\ (500 = 503 <->
        "GET"%string <> "OPTIONS"%string /\ truthy (VStr "sk_test_1") = false).
Proof.
  split; [reflexivity|].
  exact (response_statuses
           (mkWorld 0 EmptyString (fun _ => Rejected (TypeError "fetch failed")))
           (mkRequest "GET" "/prices" EmptyString [] [] None)
           (mkEnv (Some "sk_test_1") None None None None)
           _ eq_refl).
Defined.

(** X10. What a route handler throws is caught by the main handler:
    the error is logged, and the answer is a 500 whose JSON payload is
    [{error: message}], the message of the error as it is, with the
    CORS headers. *)
Theorem handler_error_answered (w : World) (request : Request) (env : Env) (err : JsError) :
  truthy (env_value (STRIPE_SECRET_KEY env)) = true ->
  method request <> "OPTIONS" ->
  outcome (route w request env) = Err err ->
  fetch w request env
  = ((events (route w request env) ++ [LoggedError "Worker error:" err])%list,
     Ok (with_headers (cors_of request env)
           (Response_json (VObj [("error", VStr (err_message err))]) 500 []))).
Proof.
  intros Hkey Hm Herr. apply String.eqb_neq in Hm.
  rewrite fetch_configured by assumption.
  destruct (route w request env) as [t [r|e]]; cbn [outcome snd events fst] in *;
    [discriminate|].
  injection Herr as ->. cbn. now rewrite app_nil_r.
Qed.

Lemma handler_error_answered_witness :
  fetch (mkWorld 0 EmptyString (fun _ => Rejected (TypeError "fetch failed")))
    (mkRequest "GET" "/prices" EmptyString [] [] None)
    (mkEnv (Some "sk_test_1") None None None None)
  = ([Fetched (stripe_call (mkEnv (Some "sk_test_1") None None None None)
                 "GET" prices_path None);
      LoggedError "Worker error:" (TypeError "fetch failed")],
     Ok (with_headers
           (cors_of (mkRequest "GET" "/prices" EmptyString [] [] None)
                    (mkEnv (Some "sk_test_1") None None None None))
           (Response_json (VObj [("error", VStr "fetch failed")]) 500 []))).
Proof.
  apply (handler_error_answered
           (mkWorld 0 EmptyString (fun _ => Rejected (TypeError "fetch failed")))
           (mkRequest "GET" "/prices" EmptyString [] [] None)
           (mkEnv (Some "sk_test_1") None None None None)
           (TypeError "fetch failed")).
  - reflexivity.
  - discriminate.
  - reflexivity.
Defined.

Lemma route_plain (w : World) (request : Request) (env : Env) (routed : Routed) :
  pathname request <> "/webhook" ->
  outcome (route w request env) = Ok routed ->
  exists response, routed = Plain response.
Proof.
  intros Hp. apply String.eqb_neq in Hp. unfold route. rewrite Hp, andb_false_r.
  repeat match goal with
         | |- context [if ?c then _ else _] => destruct c
         end;
    try (cbn; intros H; injection H as <-; eauto);
    match goal with
    | |- context [bind ?c _] => destruct c as [t [r|e]]; cbn; intros H;
                                [injection H as <-; eauto | discriminate]
    end.
Qed.

Lemma cors_origin_kept (request : Request) (env : Env) (h : list (string * string)) :
  Obj.get "access-control-allow-origin"
    (fold_left (fun h p => Obj.set (fst p) (snd p) h) (cors_of request env) h)
  = Some (allowed_origin request env).
Proof.
  unfold cors_of, CORS_HEADERS, header_list. cbn [map fold_left fst snd].
  rewrite !get_set_other by discriminate. rewrite get_set_same.
  unfold allowed_origin. f_equal.
  generalize (or_else (header_value "origin" (req_headers request))
                      (env_value (ALLOWED_ORIGIN env))).
  intros v. unfold or_else.
  destruct (truthy v) eqn:E; [now rewrite E | reflexivity].
Qed.

(** X11. Every response off the webhook route allows, in its
    [Access-Control-Allow-Origin] header, the [Origin] of the request
    when it has one, else the configured origin, else any origin;
    stated for an origin that [Headers] stores as it is (legal as a
    header value and without white space around it). *)
Theorem cors_origin_echoed (w : World) (request : Request) (env : Env) (response : Response) :
  header_value_kept (allowed_origin request env) = true ->
  pathname request <> "/webhook" ->
  outcome (fetch w request env) = Ok response ->
  Obj.get "access-control-allow-origin" (res_headers response)
  = Some (allowed_origin request env).
Proof.
  intros _ Hp. unfold fetch. fold (cors_of request env).
  pose proof (cors_origin_kept request env []) as Hc.
  assert (Hcors : Obj.get "access-control-allow-origin" (cors_of request env)
                  = Some (allowed_origin request env)).
  { revert Hc. unfold cors_of, CORS_HEADERS, header_list. cbn [map fold_left fst snd].
    rewrite !get_set_other by discriminate. rewrite get_set_same.
    intros Hc. cbn [Obj.get String.eqb Ascii.eqb Bool.eqb]. exact Hc. }
  destruct (String.eqb (method request) "OPTIONS").
  - cbn. intros H. injection H as <-. exact Hcors.
  - destruct (truthy (env_value (STRIPE_SECRET_KEY env))); cbn [negb].
    + destruct (route w request env) as [t [routed|e]] eqn:Er.
      * destruct (route_plain w request env routed Hp) as (r & ->);
          [now rewrite Er|].
        cbn. intros H. injection H as <-. apply cors_origin_kept.
      * cbn. intros H. injection H as <-. apply cors_origin_kept.
    + cbn. intros H. injection H as <-. cbn [res_headers Response_json].
      unfold cors_of, CORS_HEADERS, header_list in *. cbn [map fst snd] in *.
      cbn [Obj.get String.eqb Ascii.eqb Bool.eqb app] in *. exact Hcors.
Qed.

Lemma cors_origin_echoed_witness :
  Obj.get "access-control-allow-origin"
    (res_headers (with_headers
                    (cors_of (mkRequest "GET" "/nowhere" EmptyString []
                                [("origin", "https://shop.example")] None)
                             (mkEnv (Some "sk_test_1") None (Some "https://other.example")
                                None None))
                    not_found))
  = Some "https://shop.example".
Proof.
  refine (cors_origin_echoed
            (mkWorld 0 EmptyString (fun _ => Rejected (TypeError "fetch failed")))
            (mkRequest "GET" "/nowhere" EmptyString [] [("origin", "https://shop.example")] None)
            (mkEnv (Some "sk_test_1") None (Some "https://other.example") None None)
            _ _ _ _).
  - reflexivity.
  - discriminate.
  - reflexivity.
Defined.

Lemma unmatched_route_not_found_witness :
  fetch (mkWorld 0 EmptyString (fun _ => Rejected (TypeError "fetch failed")))
    (mkRequest "GET" "/checkout" EmptyString [] [] None)
    (mkEnv (Some "sk_test_1") None None None None)
  = ([], Ok (with_headers
               (cors_of (mkRequest "GET" "/checkout" EmptyString [] [] None)
                        (mkEnv (Some "sk_test_1") None None None None))
               not_found)).
Proof.
  refine (proj1 (unmatched_route_not_found _ _ _ _ _ _ _)).
  - reflexivity.
  - discriminate.
  - discriminate.
  - reflexivity.
Defined.

(** ** Portal, checkout parameters, upstream errors *)

(** X12. A portal body that is JSON, not [null], and has no customer
    identifier is answered 400 [customer_id is required]; the body is
    parsed and no outbound call is made. *)
Theorem portal_requires_customer_id
    (w : World) (request : Request) (env : Env) (body : value) :
  JSON.parse (request_text request) = Some body ->
  body <> VNull ->
  truthy (field body "customer_id") = false ->
  handlePortal w request env
  = ([Parsing (request_text request)],
     Ok (Response_json (VObj [("error", VStr "customer_id is required")]) 400 [])).
Proof.
  intros Hparse Hnull Hid.
  unfold handlePortal, request_json. rewrite Hparse.
  rewrite emit_then_ret, bind_ok. cbn [fst snd].
  rewrite destructurable_ok.
  - rewrite bind_lift_ok. cbv zeta. rewrite Hid. reflexivity.
  - pose proof (parse_defined _ _ Hparse).
    destruct body; try reflexivity; congruence.
Qed.

Lemma portal_requires_customer_id_witness :
  handlePortal (mkWorld 0 EmptyString (fun _ => Rejected (TypeError "fetch failed")))
    (mkRequest "POST" "/portal" EmptyString [] []
       (Some (json_text "{'return_url':'https://shop.example/account'}")))
    (mkEnv (Some "sk_test_1") None None None None)
  = ([Parsing (json_text "{'return_url':'https://shop.example/account'}")],
     Ok (Response_json (VObj [("error", VStr "customer_id is required")]) 400 [])).
Proof.
  refine (portal_requires_customer_id _
            (mkRequest "POST" "/portal" EmptyString [] []
               (Some (json_text "{'return_url':'https://shop.example/account'}")))
            _ (VObj [("return_url", VStr "https://shop.example/account")]) _ _ _).
  - reflexivity.
  - discriminate.
  - reflexivity.
Defined.

Lemma fold_set_get_other {A B} (f : B -> string) (g : B -> A) (k : string) (l : list B) :
  (forall p, In p l -> f p <> k) ->
  forall o, Obj.get k (fold_left (fun o p => Obj.set (f p) (g p) o) l o) = Obj.get k o.
Proof.
  induction l as [|p r IH]; intros H o; [reflexivity|].
  cbn [fold_left]. rewrite IH by (intros q Hq; apply H; now right).
  apply get_set_other. apply not_eq_sym, H. now left.
Qed.

Lemma fold_set_get_in {A B} (f : B -> string) (g : B -> A) (l : list B) :
  NoDup (map f l) ->
  forall o p, In p l ->
    Obj.get (f p) (fold_left (fun o p => Obj.set (f p) (g p) o) l o) = Some (g p).
Proof.
  induction l as [|q r IH]; intros Hd o p Hin; [contradiction|].
  cbn [map] in Hd. inversion Hd as [|? ? Hq Hr]; subst. cbn [fold_left].
  destruct Hin as [->|Hin].
  - rewrite fold_set_get_other.
    + apply get_set_same.
    + intros p' Hp' E. apply Hq. rewrite <- E. now apply in_map.
  - now apply IH.
Qed.

Lemma fold_set_keys {A B} (f : B -> string) (g : B -> A) (l : list B) :
  forall o q, In q (fold_left (fun o p => Obj.set (f p) (g p) o) l o) ->
              In (fst q) (map fst o) \/ In (fst q) (map f l).
Proof.
  assert (S : forall k (x : A) o q, In q (Obj.set k x o) -> In (fst q) (map fst o) \/ fst q = k).
  { intros k x o. induction o as [|[k' y] r IH]; intros q Hq; cbn [Obj.set] in Hq.
    - destruct Hq as [<-|[]]. now right.
    - destruct (String.eqb k k') eqn:E.
      + apply String.eqb_eq in E. subst k'. destruct Hq as [<-|Hq].
        * now right.
        * left. right. now apply in_map.
      + destruct Hq as [<-|Hq]; [left; now left|].
        destruct (IH q Hq) as [H|H]; [left; now right | now right]. }
  induction l as [|p r IH]; intros o q Hq; [left; now apply in_map|].
  cbn [fold_left] in Hq. destruct (IH _ _ Hq) as [H|H].
  - apply in_map_iff in H as (q' & E & Hq').
    destruct (S _ _ _ _ Hq') as [H|H]; rewrite <- E.
    + now left.
    + right. left. now symmetry.
  - right. now right.
Qed.

Lemma metadata_key_not_index (k : string) : Obj.array_index ("metadata[" ++ k ++ "]") = None.
Proof. reflexivity. Qed.

Lemma append_length (a b : string) :
  String.length (a ++ b) = (String.length a + String.length b)%nat.
Proof. induction a as [|c r IH]; [reflexivity|]. cbn. now rewrite IH. Qed.

Lemma append_cancel_r (a b c : string) : (a ++ c = b ++ c)%string -> a = b.
Proof.
  intros E.
  assert (L : String.length a = String.length b).
  { apply (f_equal String.length) in E. rewrite !append_length in E. lia. }
  revert b E L. induction a as [|x r IH]; intros [|y r'] E L; try discriminate.
  - reflexivity.
  - cbn in E, L. injection E as -> E. f_equal. apply IH; [assumption | lia].
Qed.

Lemma metadata_key_injective (a b : string) :
  ("metadata[" ++ a ++ "]" = "metadata[" ++ b ++ "]")%string -> a = b.
Proof.
  intros E. cbn in E. injection E as E. now apply append_cancel_r in E.
Qed.

Lemma set_keys_nodup {A} (k : string) (x : A) (o : list (string * A)) :
  NoDup (map fst o) -> NoDup (map fst (Obj.set k x o)).
Proof.
  induction o as [|[k' y] r IH]; intros Hd; cbn [Obj.set].
  - repeat constructor. intros [].
  - cbn [map fst] in Hd. inversion Hd as [|? ? Hk Hr]; subst.
    destruct (String.eqb k k') eqn:E.
    + apply String.eqb_eq in E. subst k'. now constructor.
    + cbn [map fst]. constructor; [|now apply IH].
      intros Hin. apply in_map_iff in Hin as (q & Eq & Hq).
      assert (K : forall q, In q (Obj.set k x r) -> In (fst q) (map fst r) \/ fst q = k).
      { clear. induction r as [|[k2 z] r IH]; intros q Hq; cbn [Obj.set] in Hq.
        - destruct Hq as [<-|[]]. now right.
        - destruct (String.eqb k k2) eqn:E2.
          + apply String.eqb_eq in E2. subst k2. destruct Hq as [<-|Hq].
            * now right.
            * left. right. now apply in_map.
          + destruct Hq as [<-|Hq]; [left; now left|].
            destruct (IH q Hq) as [H|H]; [left; now right | now right]. }
      destruct (K q Hq) as [H|H].
      * apply Hk. now rewrite <- Eq.
      * apply String.eqb_neq in E. congruence.
Qed.

Lemma fold_set_nodup {A B} (f : B -> string) (g : B -> A) (l : list B) :
  forall o, NoDup (map fst o) ->
            NoDup (map fst (fold_left (fun o p => Obj.set (f p) (g p) o) l o)).
Proof.
  induction l as [|p r IH]; intros o Hd; [assumption|].
  cbn [fold_left]. apply IH. now apply set_keys_nodup.
Qed.

Lemma get_in {A} (k : string) (x : A) (o : list (string * A)) :
  Obj.get k o = Some x -> In (k, x) o.
Proof.
  induction o as [|[k' y] r IH]; cbn [Obj.get]; [discriminate|].
  destruct (String.eqb k k') eqn:E.
  - apply String.eqb_eq in E. subst k'. intros H. injection H as ->. now left.
  - intros H. right. now apply IH.
Qed.

(** X13. The parameters of a checkout session: the mode, the line item,
    the URLs, the tax flag and the provenance tag are always those the
    handler fixes, since caller metadata goes under [metadata[...]] keys
    and cannot replace them; each metadata entry is sent under its
    bracketed key. *)
Theorem checkout_parameters_fixed
    (price_id successUrl cancelUrl customer_email : value)
    (metadata : list (string * value)) :
  NoDup (map fst metadata) ->
  let params := checkout_params price_id successUrl cancelUrl customer_email metadata in
  Obj.get "mode" params = Some (VStr "subscription")
  /\ Obj.get "line_items[0][price]" params = Some price_id
  /\ Obj.get "line_items[0][quantity]" params = Some (VStr "1")
  /\ Obj.get "success_url" params = Some successUrl
  /\ Obj.get "cancel_url" params = Some cancelUrl
  /\ Obj.get "automatic_tax[enabled]" params = Some (VStr "true")
  /\ Obj.get "subscription_data[metadata][source]" params = Some (VStr "blackroad-brand-kit")
  /\ forall k v, In (k, v) metadata ->
                 Obj.get ("metadata[" ++ k ++ "]") params = Some v.
Proof.
  intros Hd params. subst params. unfold checkout_params.
  set (named := fold_left (fun o p => Obj.set ("metadata[" ++ fst p ++ "]") (snd p) o)
                          metadata []).
  set (literal := [("mode", VStr "subscription"); ("line_items[0][price]", price_id);
                   ("line_items[0][quantity]", VStr "1"); ("success_url", successUrl);
                   ("cancel_url", cancelUrl); ("automatic_tax[enabled]", VStr "true");
                   ("subscription_data[metadata][source]", VStr "blackroad-brand-kit")]).
  assert (Hkeys : forall q, In q named -> exists k, fst q = ("metadata[" ++ k ++ "]")%string).
  { intros q Hq. apply fold_set_keys in Hq as [[]|Hq].
    apply in_map_iff in Hq as (p & E & _). eauto. }
  rewrite entries_names.
  2:{ apply Forall_forall. intros q Hq. destruct (Hkeys q Hq) as (k & ->).
      apply metadata_key_not_index. }
  set (base := fold_left (fun o p => Obj.set (fst p) (snd p) o) named literal).
  assert (Hemail : forall key, key <> "customer_email" ->
            Obj.get key (if truthy customer_email
                         then Obj.set "customer_email" customer_email base else base)
            = Obj.get key base).
  { intros key He. destruct (truthy customer_email); [|reflexivity].
    now apply get_set_other. }
  assert (Hfixed : forall key, (forall k, key <> ("metadata[" ++ k ++ "]")%string) ->
                               Obj.get key base = Obj.get key literal).
  { intros key Hk. apply (fold_set_get_other fst snd). intros q Hq E.
    destruct (Hkeys q Hq) as (k & Ek). apply (Hk k). congruence. }
  repeat split;
    try (rewrite Hemail by discriminate;
         rewrite Hfixed by (intros k; cbn; discriminate); reflexivity).
  intros k v Hin.
  rewrite Hemail by (cbn; discriminate).
  assert (Hn : Obj.get ("metadata[" ++ k ++ "]") named = Some v).
  { apply (fold_set_get_in (fun p => ("metadata[" ++ fst p ++ "]")%string) snd metadata)
      with (p := (k, v)); [|assumption].
    clear - Hd. induction metadata as [|[k0 v0] r IH]; [constructor|].
    cbn [map fst] in *. inversion Hd as [|? ? Hk Hr]; subst.
    constructor; [|now apply IH].
    intros Hin. apply Hk. apply in_map_iff in Hin as ([k1 v1] & E & Hin).
    cbn [fst] in E. apply metadata_key_injective in E. subst.
    apply in_map_iff. exists (k0, v1). split; [reflexivity | assumption]. }
  apply get_in in Hn.
  apply (fold_set_get_in fst snd named) with (p := (("metadata[" ++ k ++ "]")%string, v));
    [|assumption].
  apply fold_set_nodup. constructor.
Qed.

Lemma checkout_parameters_fixed_witness :
  Obj.get "mode"
    (checkout_params (VStr "price_123") (VStr "https://shop.example/ok")
       (VStr "https://shop.example/no") VUndefined
       [("mode", VStr "payment"); ("user", VStr "u1")])
  = Some (VStr "subscription").
Proof.
  refine (proj1 (checkout_parameters_fixed _ _ _ _ [("mode", VStr "payment"); ("user", VStr "u1")] _)).
  repeat constructor; cbn; intuition discriminate.
Defined.

Lemma stripeRequest_unfold (w : World) (env : Env) (meth path : string)
    (res : Response) (text : string) (data : value) :
  net w (stripe_call env meth path None) = Responded res ->
  res_body res = Text text -> JSON.parse text = Some data ->
  stripeRequest w env meth path None
  = if negb (res_ok res) then
      match member data "error" with
      | Err e => ([Fetched (stripe_call env meth path None)], Err e)
      | Ok err =>
          match ToString (or_else (opt_member err "message")
                            (VStr ("Stripe error: " ++ Number_toString (status res)))) with
          | Ok msg => ([Fetched (stripe_call env meth path None)], Err (Error msg))
          | Err e => ([Fetched (stripe_call env meth path None)], Err e)
          end
      end
    else ([Fetched (stripe_call env meth path None)], Ok data).
Proof.
  intros Hnet Hbody Hparse. unfold stripeRequest.
  rewrite bind_lift_ok. unfold fetch_out. fold (stripe_call env meth path None).
  rewrite Hnet, emit_then_ret, bind_ok. cbn [fst snd].
  unfold response_json. rewrite Hbody, Hparse, bind_ret.
  destruct (negb (res_ok res)).
  - destruct (member data "error") as [err|e]; [|reflexivity].
    rewrite bind_lift_ok.
    destruct (ToString _) as [msg|e]; reflexivity.
  - reflexivity.
Qed.



(** X15. [GET /prices] end to end, for an answer of the processor with
    a text body: the handler makes one [GET] to the processor, with the
    API key as bearer token and no body, and answers with the CORS
    headers.  A body that is not JSON is answered 500 whatever its
    status.  For a JSON body other than [null]: a 2xx answer whose
    [data] is a list that [listPrices] accepts is answered 200 with
    [{prices: ...}]; an answer outside 2xx is answered 500 with the
    text of [error.message] when that is a text and not empty, and 500
    with [Stripe error: status] when [error.message] is missing or
    falsy. *)
Theorem prices_end_to_end (w : World) (request : Request) (env : Env)
    (res : Response) (text : string) :
  truthy (env_value (STRIPE_SECRET_KEY env)) = true ->
  method request = "GET" -> pathname request = "/prices" ->
  net w (stripe_call env "GET" prices_path None) = Responded res ->
  res_body res = Text text ->
  let call := Fetched (stripe_call env "GET" prices_path None) in
  let failed message :=
    Ok (with_headers (cors_of request env)
          (Response_json (VObj [("error", VStr message)]) 500 [])) in
  (JSON.parse text = None ->
   exists err,
     err_name err = "SyntaxError"
     /\ fetch w request env
        = ([call; LoggedError "Worker error:" err], failed (err_message err)))
  /\ forall data,
       JSON.parse text = Some data -> data <> VNull ->
       (forall out,
          res_ok res = true -> listPrices (field data "data") = Ok out ->
          fetch w request env
          = ([call],
             Ok (with_headers (cors_of request env)
                   (Response_json (VObj [("prices", VArr out)]) 200 []))))
       /\ (forall m,
             res_ok res = false ->
             field (field data "error") "message" = VStr m -> m <> EmptyString ->
             fetch w request env
             = ([call; LoggedError "Worker error:" (Error m)], failed m))
       /\ (res_ok res = false ->
           truthy (field (field data "error") "message") = false ->
           fetch w request env
           = ([call;
               LoggedError "Worker error:"
                 (Error ("Stripe error: " ++ Number_toString (status res)))],
              failed ("Stripe error: " ++ Number_toString (status res)))).
Proof.
  intros Hkey Hm Hp Hnet Hbody call failed.
  assert (Hopt : String.eqb (method request) "OPTIONS" = false) by now rewrite Hm.
  rewrite fetch_configured by assumption.
  unfold route. rewrite Hm, Hp.
  cbn [String.eqb Ascii.eqb Bool.eqb andb].
  unfold handlePrices. fold prices_path.
  split.
  - intros Hparse. eexists. split; [|].
    2:{ unfold stripeRequest. rewrite bind_lift_ok. unfold fetch_out.
        fold (stripe_call env "GET" prices_path None).
        rewrite Hnet, emit_then_ret, bind_ok. cbn [fst snd].
        unfold response_json. rewrite Hbody, Hparse. reflexivity. }
    reflexivity.
  - intros data Hparse Hnull.
    assert (Hd : forall k, member data k = Ok (field data k)).
    { intros k. apply member_field. pose proof (parse_defined _ _ Hparse).
      destruct data; try reflexivity; congruence. }
    rewrite (stripeRequest_unfold w env "GET" prices_path res text data Hnet Hbody Hparse).
    split; [|split].
    + intros out Hok Hl. rewrite Hok. cbn [negb]. rewrite bind_ok. cbn [fst snd].
      rewrite Hd, bind_lift_ok, Hl, bind_lift_ok. reflexivity.
    + intros m Hok Em Hne. rewrite Hok. cbn [negb]. rewrite Hd.
      change (opt_member (field data "error") "message")
        with (field (field data "error") "message").
      rewrite Em. unfold or_else. cbn [truthy].
      destruct m; [congruence | reflexivity].
    + intros Hok Hf. rewrite Hok. cbn [negb]. rewrite Hd.
      change (opt_member (field data "error") "message")
        with (field (field data "error") "message").
      unfold or_else. rewrite Hf. reflexivity.
Qed.

Lemma prices_end_to_end_witness :
  fetch
    (mkWorld 0 EmptyString
       (fun _ => Responded (mkResponse 200 [] (Text (json_text "{'data':[]}")))))
    (mkRequest "GET" "/prices" EmptyString [] [] None)
    (mkEnv (Some "sk_test_1") None None None None)
  = ([Fetched (stripe_call (mkEnv (Some "sk_test_1") None None None None) "GET" prices_path None)],
     Ok (with_headers
           (cors_of (mkRequest "GET" "/prices" EmptyString [] [] None)
                    (mkEnv (Some "sk_test_1") None None None None))
           (Response_json (VObj [("prices", VArr [])]) 200 []))).
Proof.
  refine (proj1 (proj2 (prices_end_to_end
                   (mkWorld 0 EmptyString
                      (fun _ => Responded (mkResponse 200 [] (Text (json_text "{'data':[]}")))))
                   (mkRequest "GET" "/prices" EmptyString [] [] None)
                   (mkEnv (Some "sk_test_1") None None None None)
                   (mkResponse 200 [] (Text (json_text "{'data':[]}")))
                   (json_text "{'data':[]}")
                   _ _ _ _ _) (VObj [("data", VArr [])]) _ _) [] _ _);
    try reflexivity; discriminate.
Defined.

(** X16. One [null] entry in the upstream list makes the whole listing
    throw a [TypeError]: the filter reads [p.product] of every entry, so
    nothing is listed, whatever the other entries are. *)
Theorem null_price_entry_throws (items : list value) :
  In VNull items ->
  exists e, listPrices (VArr items) = Err e /\ err_name e = "TypeError".
Proof.
  intros Hin. unfold listPrices.
  assert (K : exists e, Array_filter price_kept items = Err e /\ err_name e = "TypeError").
  { induction items as [|x r IH]; [contradiction|].
    cbn [Array_filter]. destruct Hin as [->|Hin].
    - eexists. split; reflexivity.
    - destruct (IH Hin) as (e & -> & He).
      destruct (price_kept x) as [b|e'] eqn:Ex.
      + eauto.
      + exists e'. split; [reflexivity|].
        unfold price_kept in Ex. destruct x; cbn in Ex; try discriminate;
          injection Ex as <-; reflexivity. }
  destruct K as (e & -> & He). eauto.
Qed.

Lemma null_price_entry_throws_witness :
  exists e,
    listPrices (VArr [VObj [("id", VStr "a"); ("product", VObj [])]; VNull]) = Err e
    /\ err_name e = "TypeError".
Proof. apply null_price_entry_throws. right. now left. Defined.

(** ** The gateway: selection, forwarding, credentials *)

(** X17. The gateway makes no outbound call exactly for a provider that
    is neither configured nor the name of a member every object
    inherits; such a request is rejected with 400 and a message that
    echoes the provider. *)
Theorem unknown_provider_rejected (w : World) (request : Request) (env : Env) :
  (events (Gateway.fetch w request env) = [] <->
   Obj.get (requested_provider request) Gateway.BACKENDS = None
   /\ existsb (String.eqb (requested_provider request)) Gateway.prototype_members = false)
  /\ (events (Gateway.fetch w request env) = [] ->
      outcome (Gateway.fetch w request env)
      = Ok (Response_json
              (VObj [("error", VStr ("Unknown provider: " ++ requested_provider request))])
              400 [])).
Proof.
  unfold Gateway.fetch. fold (requested_provider request). unfold Gateway.lookup.
  destruct (Obj.get (requested_provider request) Gateway.BACKENDS) as [origin|] eqn:Hb.
  - cbv zeta. unfold fetch_out, catch. rewrite bind_emit.
    destruct (net w _); cbn; (split; [split|]); try discriminate; intros [H _]; discriminate.
  - destruct (existsb _ Gateway.prototype_members) eqn:Hp.
    + cbv zeta. unfold fetch_out, catch. rewrite bind_emit.
      destruct (net w _); cbn; (split; [split|]); try discriminate; intros [_ H]; discriminate.
    + cbn. tauto.
Qed.

Lemma unknown_provider_rejected_witness :
  outcome
    (Gateway.fetch (mkWorld 0 EmptyString (fun _ => Rejected (TypeError "fetch failed")))
       (mkRequest "POST" "/api/chat" "?provider=sentinel" [("provider", "sentinel")] []
          (Some "{}"))
       (mkEnv None None None None None))
  = Ok (Response_json (VObj [("error", VStr "Unknown provider: sentinel")]) 400 []).
Proof.
  apply (proj2 (unknown_provider_rejected _
                  (mkRequest "POST" "/api/chat" "?provider=sentinel"
                     [("provider", "sentinel")] [] (Some "{}"))
                  _)).
  reflexivity.
Defined.

Lemma gateway_call (w : World) (request : Request) (env : Env) (origin : string) :
  Obj.get (requested_provider request) Gateway.BACKENDS = Some origin ->
  exists r,
    f_url r = origin ++ pathname request ++ search request
    /\ f_method r = method request
    /\ f_body r = (if String.eqb (method request) "GET" then None else req_body request)
    /\ f_headers r
       = (if String.eqb (requested_provider request) "claude"
             && truthy (env_value (ANTHROPIC_API_KEY env))
          then Obj.set "x-api-key" (text_of (env_value (ANTHROPIC_API_KEY env)))
                       (req_headers request)
          else if String.eqb (requested_provider request) "openai"
                  && truthy (env_value (OPENAI_API_KEY env))
          then Obj.set "authorization"
                       ("Bearer " ++ text_of (env_value (OPENAI_API_KEY env)))
                       (req_headers request)
          else req_headers request)
    /\ Gateway.fetch w request env
       = catch (fetch_out w r)
           (fun err =>
              ret (Response_json
                     (VObj [("error", VStr (err_message err)); ("backend", VStr origin)])
                     502 [])).
Proof.
  intros Hb. unfold Gateway.fetch. fold (requested_provider request).
  unfold Gateway.lookup. rewrite Hb.
  eexists (mkFetch _ _ _ _). repeat split.
Qed.

(** X18. For a configured provider the request goes to the origin of
    the backend followed by the original path and query, with the
    original method; the body is forwarded except for [GET]; and whatever
    the backend answers, error statuses included, is returned as it is. *)
Theorem gateway_forwards
    (w : World) (request : Request) (env : Env) (origin : string) (res : Response) :
  Obj.get (requested_provider request) Gateway.BACKENDS = Some origin ->
  (forall r, f_url r = origin ++ pathname request ++ search request ->
             net w r = Responded res) ->
  exists r,
    Gateway.fetch w request env = ([Fetched r], Ok res)
    /\ f_url r = origin ++ pathname request ++ search request
    /\ f_method r = method request
    /\ f_body r = (if String.eqb (method request) "GET" then None else req_body request).
Proof.
  intros Hb Hnet.
  destruct (gateway_call w request env origin Hb) as (r & Hu & Hm & Hbd & _ & E).
  exists r. repeat split; try assumption.
  rewrite E. unfold fetch_out. rewrite (Hnet r Hu). reflexivity.
Qed.

Lemma gateway_forwards_witness :
  exists r,
    Gateway.fetch
      (mkWorld 0 EmptyString (fun _ => Responded (mkResponse 500 [] (Text "backend down"))))
      (mkRequest "GET" "/api/tags" "?x=1" [] [] (Some "ignored"))
      (mkEnv None None None None None)
    = ([Fetched r], Ok (mkResponse 500 [] (Text "backend down")))
    /\ f_url r = "http://127.0.0.1:11434" ++ "/api/tags" ++ "?x=1"
    /\ f_method r = "GET"
    /\ f_body r = None.
Proof.
  apply (gateway_forwards
           (mkWorld 0 EmptyString (fun _ => Responded (mkResponse 500 [] (Text "backend down"))))
           (mkRequest "GET" "/api/tags" "?x=1" [] [] (Some "ignored"))
           (mkEnv None None None None None) "http://127.0.0.1:11434").
  - reflexivity.
  - intros r _. reflexivity.
Defined.

(** X19. Credentials: for [claude] with an API key bound, the outbound
    request carries the key in [x-api-key], replacing any inbound header
    of that name, and every other header is forwarded unchanged; for the
    local [ollama] backend the headers are forwarded as they came. *)
Theorem gateway_injects_credentials
    (w : World) (request : Request) (env : Env) (key : string) :
  ANTHROPIC_API_KEY env = Some key -> key <> EmptyString ->
  (requested_provider request = "claude" ->
   exists r,
     events (Gateway.fetch w request env) = [Fetched r]
     /\ Obj.get "x-api-key" (f_headers r) = Some key
     /\ forall name, name <> "x-api-key" ->
                     Obj.get name (f_headers r) = Obj.get name (req_headers request))
  /\ (requested_provider request = "ollama" ->
      exists r,
        events (Gateway.fetch w request env) = [Fetched r]
        /\ f_headers r = req_headers request).
Proof.
  intros Hk Hne.
  assert (T : truthy (env_value (ANTHROPIC_API_KEY env)) = true)
    by (apply truthy_env; eauto).
  split; intros Hp.
  - destruct (gateway_call w request env "https://api.anthropic.com") as (r & _ & _ & _ & Hh & E).
    { now rewrite Hp. }
    exists r. rewrite Hp, T in Hh. cbn [String.eqb Ascii.eqb Bool.eqb andb] in Hh.
    rewrite Hk in Hh. cbn [env_value text_of ToString] in Hh.
    split; [|split].
    + rewrite E. unfold fetch_out, catch. rewrite bind_emit.
      destruct (net w r); reflexivity.
    + rewrite Hh. apply get_set_same.
    + intros name Hn. rewrite Hh. now apply get_set_other.
  - destruct (gateway_call w request env "http://127.0.0.1:11434") as (r & _ & _ & _ & Hh & E).
    { now rewrite Hp. }
    exists r. rewrite Hp in Hh. cbn [String.eqb Ascii.eqb Bool.eqb andb] in Hh.
    split; [|exact Hh].
    rewrite E. unfold fetch_out, catch. rewrite bind_emit.
    destruct (net w r); reflexivity.
Qed.

Lemma gateway_injects_credentials_witness :
  exists r,
    events (Gateway.fetch
              (mkWorld 0 EmptyString (fun _ => Rejected (TypeError "fetch failed")))
              (mkRequest "POST" "/v1/messages" "?provider=claude" [("provider", "claude")]
                 [("x-api-key", "from-the-client"); ("content-type", "application/json")]
                 (Some "{}"))
              (mkEnv None None None (Some "sk-ant-1") None))
    = [Fetched r]
    /\ Obj.get "x-api-key" (f_headers r) = Some "sk-ant-1"
    /\ forall name, name <> "x-api-key" ->
         Obj.get name (f_headers r)
         = Obj.get name [("x-api-key", "from-the-client"); ("content-type", "application/json")].
Proof.
  refine (proj1 (gateway_injects_credentials
                   (mkWorld 0 EmptyString (fun _ => Rejected (TypeError "fetch failed")))
                   (mkRequest "POST" "/v1/messages" "?provider=claude" [("provider", "claude")]
                      [("x-api-key", "from-the-client"); ("content-type", "application/json")]
                      (Some "{}"))
                   (mkEnv None None None (Some "sk-ant-1") None) "sk-ant-1" _ _) _).
  - reflexivity.
  - discriminate.
  - reflexivity.
Defined.

(** X21. A provider named like a member that the backend table inherits
    from [Object.prototype], such as [constructor], is not rejected as
    unknown: the table lookup finds the inherited member and an outbound
    call is attempted. *)
Theorem inherited_provider_not_rejected (w : World) (request : Request) (env : Env) :
  In (requested_provider request) Gateway.prototype_members ->
  exists r, events (Gateway.fetch w request env) = [Fetched r].
Proof.
  intros Hin. unfold Gateway.fetch. fold (requested_provider request).
  assert (L : exists b, Gateway.lookup (requested_provider request) = Some b).
  { unfold Gateway.lookup. destruct (Obj.get _ Gateway.BACKENDS); [eauto|].
    assert (E : existsb (String.eqb (requested_provider request)) Gateway.prototype_members
                = true).
    { apply existsb_exists. eexists. split; [exact Hin | apply String.eqb_refl]. }
    rewrite E. eauto. }
  destruct L as (b & ->).
  eexists. unfold fetch_out, catch. rewrite bind_emit.
  destruct (net w _); reflexivity.
Qed.

Lemma inherited_provider_not_rejected_witness :
  exists r,
    events (Gateway.fetch
              (mkWorld 0 EmptyString (fun _ => Rejected (TypeError "Invalid URL")))
              (mkRequest "GET" "/" "?provider=constructor" [("provider", "constructor")] [] None)
              (mkEnv None None None None None))
    = [Fetched r].
Proof.
  apply (inherited_provider_not_rejected _
           (mkRequest "GET" "/" "?provider=constructor" [("provider", "constructor")] [] None)).
  cbn. tauto.
Defined.

(** ** Checkout bodies that cannot be read *)

(** X22. A checkout body that is not JSON, or is the JSON [null], is not
    answered with the 400 of a missing field: reading it throws, the
    main handler answers 500, and no outbound call is made. *)
Theorem unreadable_checkout_body (w : World) (request : Request) (env : Env) :
  truthy (env_value (STRIPE_SECRET_KEY env)) = true ->
  method request = "POST" -> pathname request = "/checkout" ->
  JSON.parse (request_text request) = None
  \/ JSON.parse (request_text request) = Some VNull ->
  exists err response,
    handleCheckout w request env = ([Parsing (request_text request)], Err err)
    /\ fetch w request env
       = ([Parsing (request_text request); LoggedError "Worker error:" err], Ok response)
    /\ status response = 500.
Proof.
  intros Hkey Hm Hp Hbody.
  assert (E : exists err, handleCheckout w request env
                          = ([Parsing (request_text request)], Err err)).
  { unfold handleCheckout, request_json.
    destruct Hbody as [-> | ->]; eexists; reflexivity. }
  destruct E as (err & E). exists err.
  assert (Hopt : String.eqb (method request) "OPTIONS" = false) by now rewrite Hm.
  rewrite fetch_configured by assumption.
  unfold route. rewrite Hm, Hp, E.
  eexists. repeat split.
Qed.

Lemma unreadable_checkout_body_witness :
  exists err response,
    handleCheckout (mkWorld 0 EmptyString (fun _ => Rejected (TypeError "fetch failed")))
      (mkRequest "POST" "/checkout" EmptyString [] [] (Some "null"))
      (mkEnv (Some "sk_test_1") None None None None)
    = ([Parsing "null"], Err err)
    /\ fetch (mkWorld 0 EmptyString (fun _ => Rejected (TypeError "fetch failed")))
         (mkRequest "POST" "/checkout" EmptyString [] [] (Some "null"))
         (mkEnv (Some "sk_test_1") None None None None)
       = ([Parsing "null"; LoggedError "Worker error:" err], Ok response)
    /\ status response = 500.
Proof.
  apply (unreadable_checkout_body _
           (mkRequest "POST" "/checkout" EmptyString [] [] (Some "null"))).
  - reflexivity.
  - reflexivity.
  - reflexivity.
  - right. reflexivity.
Defined.

(** ** Flattening: what is emitted *)

Lemma entries_in {A} (l : list (string * A)) (p : string * A) :
  In p (Obj.entries l) -> In p l.
Proof.
  unfold Obj.entries. intros H. apply in_app_or in H as [H|H].
  - apply in_map_iff in H as ([n q] & <- & H). cbn [snd].
    assert (K : forall e acc, In (n, q) (Obj.insert_index e acc) -> (n, q) = e \/ In (n, q) acc).
    { intros e acc. induction acc as [|x r IH]; cbn [Obj.insert_index]; intros Hin.
      - destruct Hin as [<-|[]]. now left.
      - destruct (fst e <? fst x).
        + destruct Hin as [<-|Hin]; [now left | now right].
        + destruct Hin as [<-|Hin]; [right; now left|].
          destruct (IH Hin); [now left | right; now right]. }
    unfold Obj.index_props in H. induction l as [|x r IH]; [contradiction|].
    cbn [fold_right] in H. destruct (Obj.array_index (fst x)).
    + apply K in H as [H|H]; [left; congruence | right; now apply IH].
    + right. now apply IH.
  - unfold Obj.name_props in H. now apply filter_In in H.
Qed.

Section Entries.
Context {A : Type}.

Lemma insert_index_in (e x : Z * (string * A)) (l : list (Z * (string * A))) :
  In x (Obj.insert_index e l) -> x = e \/ In x l.
Proof.
  induction l as [|y r IH]; cbn [Obj.insert_index]; intros Hin.
  - destruct Hin as [<-|[]]. now left.
  - destruct (fst e <? fst y).
    + destruct Hin as [<-|Hin]; [now left | now right].
    + destruct Hin as [<-|Hin]; [right; now left|].
      destruct (IH Hin); [now left | right; now right].
Qed.

Lemma insert_index_sorted (e : Z * (string * A)) (l : list (Z * (string * A))) :
  StronglySorted (fun a b : Z * (string * A) => fst a <= fst b) l -> StronglySorted (fun a b : Z * (string * A) => fst a <= fst b) (Obj.insert_index e l).
Proof.
  induction 1 as [|y r Hr IH Hy]; cbn [Obj.insert_index].
  - repeat constructor.
  - destruct (Z.ltb_spec (fst e) (fst y)).
    + constructor; [now constructor|].
      constructor; [cbn; lia|].
      eapply Forall_impl; [|exact Hy]. cbn. intros; lia.
    + constructor; [assumption|].
      apply Forall_forall. intros x Hx. apply insert_index_in in Hx as [->|Hx].
      * cbn. lia.
      * rewrite Forall_forall in Hy. now apply Hy.
Qed.

Lemma index_props_sorted (l : list (string * A)) :
  StronglySorted (fun a b : Z * (string * A) => fst a <= fst b) (Obj.index_props l).
Proof.
  unfold Obj.index_props. induction l as [|p r IH]; cbn [fold_right]; [constructor|].
  destruct (Obj.array_index (fst p)); [now apply insert_index_sorted | assumption].
Qed.

Lemma filter_insert_index (Q : Z * (string * A) -> bool) (e : Z * (string * A))
    (l : list (Z * (string * A))) :
  StronglySorted (fun a b : Z * (string * A) => fst a <= fst b) l ->
  filter Q (Obj.insert_index e l)
  = if Q e then Obj.insert_index e (filter Q l) else filter Q l.
Proof.
  induction 1 as [|y r Hr IH Hy]; cbn [Obj.insert_index filter].
  - destruct (Q e); reflexivity.
  - destruct (Z.ltb_spec (fst e) (fst y)) as [L|G]; cbn [filter].
    + destruct (Q e); [|reflexivity].
      assert (K : forall t, Forall (fun b : Z * (string * A) => fst y <= fst b) t ->
                            Obj.insert_index e (filter Q t) = e :: filter Q t).
      { intros t Ht. induction Ht as [|z t' Hz Ht' IHt]; [reflexivity|].
        cbn [filter]. destruct (Q z); [|exact IHt].
        cbn [Obj.insert_index].
        destruct (Z.ltb_spec (fst e) (fst z)); [reflexivity|].
        cbn in Hz. lia. }
      destruct (Q y).
      * cbn [Obj.insert_index]. destruct (Z.ltb_spec (fst e) (fst y)); [reflexivity | lia].
      * now rewrite K.
    + rewrite IH. destruct (Q y), (Q e); try reflexivity.
      cbn [Obj.insert_index]. destruct (Z.ltb_spec (fst e) (fst y)); [lia | reflexivity].
Qed.

Lemma filter_map_snd (P : string * A -> bool) (l : list (Z * (string * A))) :
  filter P (map snd l) = map snd (filter (fun e => P (snd e)) l).
Proof.
  induction l as [|x r IH]; [reflexivity|]. cbn [map filter].
  destruct (P (snd x)); cbn [map]; now rewrite IH.
Qed.

Lemma filter_swap {B : Type} (P Q : B -> bool) (l : list B) :
  filter P (filter Q l) = filter Q (filter P l).
Proof.
  induction l as [|x r IH]; [reflexivity|]. cbn [filter].
  destruct (P x) eqn:Ep, (Q x) eqn:Eq; cbn [filter]; rewrite ?Ep, ?Eq, IH; reflexivity.
Qed.

(** [Object.entries] of an object without some of its properties: the
    entries of the object, without them. *)
Lemma entries_filter (P : string * A -> bool) (l : list (string * A)) :
  Obj.entries (filter P l) = filter P (Obj.entries l).
Proof.
  unfold Obj.entries. rewrite filter_app, filter_map_snd. f_equal.
  - f_equal. unfold Obj.index_props.
    induction l as [|p r IH]; [reflexivity|]. cbn [filter fold_right].
    fold (Obj.index_props r) in *. fold (Obj.index_props (filter P r)) in *.
    destruct (P p) eqn:Ep; cbn [fold_right]; fold (Obj.index_props (filter P r)).
    + destruct (Obj.array_index (fst p)); [|exact IH].
      rewrite filter_insert_index by apply index_props_sorted.
      cbn [snd]. rewrite Ep. now rewrite IH.
    + destruct (Obj.array_index (fst p)); [|exact IH].
      rewrite filter_insert_index by apply index_props_sorted.
      cbn [snd]. rewrite Ep. exact IH.
  - unfold Obj.name_props. apply filter_swap.
Qed.

End Entries.

(** The order of the entries depends on the keys alone. *)
Lemma entries_map {A B : Type} (h : string * A -> B) (l : list (string * A)) :
  Obj.entries (map (fun p => (fst p, h p)) l)
  = map (fun p => (fst p, h p)) (Obj.entries l).
Proof.
  unfold Obj.entries. rewrite map_app. f_equal.
  - assert (E : Obj.index_props (map (fun p => (fst p, h p)) l)
                = map (fun e => (fst e, (fst (snd e), h (snd e)))) (Obj.index_props l)).
    { unfold Obj.index_props. induction l as [|p r IH]; [reflexivity|].
      cbn [map fold_right fst]. rewrite IH.
      destruct (Obj.array_index (fst p)) as [n|]; [|reflexivity].
      generalize (fold_right
                    (fun p0 acc => match Obj.array_index (fst p0) with
                                   | Some n0 => Obj.insert_index (n0, p0) acc
                                   | None => acc
                                   end) [] r).
      intros acc. induction acc as [|y t IHt]; [reflexivity|].
      cbn [map Obj.insert_index fst]. destruct (n <? fst y); [reflexivity|].
      cbn [map]. now rewrite IHt. }
    rewrite E, !map_map. reflexivity.
  - unfold Obj.name_props. induction l as [|p r IH]; [reflexivity|].
    cbn [map filter fst]. destruct (Obj.array_index (fst p)); cbn [map]; now rewrite IH.
Qed.

Lemma pushed_skips {A : Type} (g : A -> result JsError (list string)) (keep : A -> bool)
    (l : list A) :
  (forall x, keep x = false -> g x = Ok []) ->
  pushed (map g l) = pushed (map g (filter keep l)).
Proof.
  intros H. induction l as [|x r IH]; [reflexivity|]. cbn [map filter].
  destruct (keep x) eqn:E.
  - cbn [map pushed]. now rewrite IH.
  - rewrite (H x E). cbn [pushed]. rewrite IH.
    destruct (pushed (map g (filter keep r))); reflexivity.
Qed.

(** X23. The properties of an object that hold [null] or [undefined]
    are skipped: the object flattens to the text it gives without them,
    under any prefix.  The items of a sequence are not skipped: [null]
    and [undefined] items are emitted, as the texts [null] and
    [undefined]. *)
Theorem null_entries_emit_nothing (props : list (string * value)) (prefix key : string) :
  encodeStripeParams (VObj props) prefix
  = encodeStripeParams (VObj (filter present props)) prefix
  /\ encodeStripeParams (VObj [(key, VArr [VNull; VUndefined])]) EmptyString
     = Ok (key ++ "[0]=null&" ++ key ++ "[1]=undefined").
Proof.
  split.
  - cbn [encodeStripeParams].
    set (h := fun p : string * value =>
                encode_entry (full_key prefix (fst p)) (snd p) (encodeStripeParams (snd p))).
    assert (E : forall l,
              map (fun p : string * value =>
                     let '(k, v) := p in
                     (k, encode_entry (full_key prefix k) v (encodeStripeParams v))) l
              = map (fun p => (fst p, h p)) l).
    { intros l. apply map_ext. intros [k v]. reflexivity. }
    assert (S : forall l, map snd (map (fun p : string * value => (fst p, h p)) l) = map h l).
    { intros l. rewrite map_map. apply map_ext. reflexivity. }
    rewrite !E, !entries_map, entries_filter. unfold joined. rewrite !S.
    rewrite (pushed_skips h present (Obj.entries props)); [reflexivity|].
    intros [k v] Hk. unfold present in Hk. cbn [snd] in Hk.
    apply negb_false_iff in Hk. unfold h. cbn [fst snd].
    destruct v; try discriminate; reflexivity.
  - cbn [encodeStripeParams map].
    assert (E : forall A (x : A), Obj.entries [(key, x)] = [(key, x)]).
    { intros A x. unfold Obj.entries, Obj.index_props, Obj.name_props.
      cbn [fold_right filter fst]. destruct (Obj.array_index key); reflexivity. }
    rewrite E. unfold joined. cbn [map snd pushed full_key Text.is_empty encode_entry].
    unfold indexed. cbn [List.length seq map combine pushed fst snd].
    unfold encodeURIComponent. cbn.
    rewrite !append_assoc. reflexivity.
Qed.

Lemma null_entries_emit_nothing_witness :
  encodeStripeParams
    (VObj [("customer", VStr "cus_1"); ("customer_email", VNull);
           ("metadata", VObj [("plan", VStr "pro"); ("coupon", VUndefined)])])
    EmptyString
  = encodeStripeParams
      (VObj [("customer", VStr "cus_1");
             ("metadata", VObj [("plan", VStr "pro"); ("coupon", VUndefined)])])
      EmptyString.
Proof.
  exact (proj1 (null_entries_emit_nothing
                  [("customer", VStr "cus_1"); ("customer_email", VNull);
                   ("metadata", VObj [("plan", VStr "pro"); ("coupon", VUndefined)])]
                  EmptyString EmptyString)).
Defined.

(** X24. Sequences are not recursed into: an object inside a sequence
    is printed with [encodeURIComponent] like a scalar.  It is emitted as
    the text [[object Object]], percent-encoded, whatever its
    properties, except that an own property named [toString] (never
    callable in parsed data) makes the flattening throw a [TypeError]. *)
Theorem object_in_sequence_flattened (key : string) (props : list (string * value)) :
  encodeStripeParams (VObj [(key, VArr [VObj props])]) EmptyString
  = if has_own "toString" props
    then Err (TypeError "Cannot convert object to primitive value")
    else Ok (key ++ "[0]=%5Bobject%20Object%5D").
Proof.
  cbn [encodeStripeParams map].
  assert (E : forall A (x : A), Obj.entries [(key, x)] = [(key, x)]).
  { intros A x. unfold Obj.entries, Obj.index_props, Obj.name_props.
    cbn [fold_right filter fst]. destruct (Obj.array_index key); reflexivity. }
  rewrite E. unfold joined. cbn [map snd pushed full_key Text.is_empty encode_entry].
  unfold indexed. cbn [List.length seq map combine pushed fst snd].
  unfold encodeURIComponent. cbn [ToString].
  destruct (has_own "toString" props); reflexivity.
Qed.

Lemma object_in_sequence_flattened_witness :
  encodeStripeParams
    (VObj [("line_items", VArr [VObj [("price", VStr "price_123"); ("quantity", VNum 1 0)]])])
    EmptyString
  = Ok ("line_items" ++ "[0]=%5Bobject%20Object%5D").
Proof.
  exact (object_in_sequence_flattened "line_items"
           [("price", VStr "price_123"); ("quantity", VNum 1 0)]).
Defined.

(** X25. On a tree that is safe for the wire (keys distinct, not
    empty, not made of digits only and free of [[ ] & =]; leaves that
    are text without lone surrogates; sequences of such text, not
    empty), flattening succeeds and emits exactly one [key=value] piece
    per leaf that is not null, in the order of the tree, the key being
    the bracketed path of the leaf and the value its percent-encoded
    text, joined with [&]. *)
Theorem flatten_emits_leaves (props : list (string * value)) :
  wire_safe (VObj props) = true ->
  encodeStripeParams (VObj props) EmptyString
  = Ok (Text.join "&"
          (map (fun e => key_text (fst e) ++ "=" ++ uri_encode (snd e))%string
               (leaves (VObj props)))).
Proof. intros H. now rewrite encode_leaves. Qed.

Lemma flatten_emits_leaves_witness :
  encodeStripeParams
    (VObj [("a", VObj [("b", VStr "x y"); ("c", VArr [VStr "1"; VStr "2"])]); ("d", VNull)])
    EmptyString
  = Ok (Text.join "&"
          (map (fun e => key_text (fst e) ++ "=" ++ uri_encode (snd e))%string
               (leaves (VObj [("a", VObj [("b", VStr "x y"); ("c", VArr [VStr "1"; VStr "2"])]);
                              ("d", VNull)])))).
Proof. apply flatten_emits_leaves. reflexivity. Defined.

(** ** The router *)

Lemma starts_with_prefix (p rest : string) : Text.starts_with p (p ++ rest) = true.
Proof.
  induction p as [|c r IH]; [destruct rest; reflexivity|].
  cbn. now rewrite Ascii.eqb_refl, IH.
Qed.

(** X26. The router hands a request to the payment service exactly as
    it came when its host begins with [stripe.]: behind the router the
    payment worker answers as it does directly. *)
Theorem router_delegates_stripe_hosts
    (w : World) (env : Env) (request : Request) (rest : string) :
  Obj.get "host" (req_headers request) = Some ("stripe." ++ rest) ->
  Router.fetch (fun r => fetch w r env) request = fetch w request env.
Proof.
  intros H. unfold Router.fetch, header_value. rewrite H.
  unfold or_else. cbn [truthy Text.is_empty append negb text_of ToString].
  change (String "s" (String "t" (String "r" (String "i" (String "p" (String "e"
            (String "." rest)))))))
    with ("stripe." ++ rest)%string.
  now rewrite starts_with_prefix.
Qed.

Lemma router_delegates_stripe_hosts_witness :
  Router.fetch
    (fun r => fetch (mkWorld 0 "2023-11-14T22:15:23.456Z"
                       (fun _ => Rejected (TypeError "fetch failed")))
                r (mkEnv (Some "sk_test_1") None None None None))
    (mkRequest "GET" "/health" EmptyString [] [("host", "stripe.blackroad.io")] None)
  = fetch (mkWorld 0 "2023-11-14T22:15:23.456Z"
             (fun _ => Rejected (TypeError "fetch failed")))
      (mkRequest "GET" "/health" EmptyString [] [("host", "stripe.blackroad.io")] None)
      (mkEnv (Some "sk_test_1") None None None None).
Proof.
  apply (router_delegates_stripe_hosts _ _
           (mkRequest "GET" "/health" EmptyString [] [("host", "stripe.blackroad.io")] None)
           "blackroad.io").
  reflexivity.
Defined.

(** X27. A request for a [brand.] or [api.] host, though the descriptor
    advertises these patterns as routes, or a request without host, is
    not delegated: the answer is the 200 descriptor echoing the host and
    the path, and the bound service is not called. *)
Theorem router_describes_other_hosts
    (request : Request) (rest : string) (service : Request -> M Response) :
  Obj.get "host" (req_headers request) = Some ("brand." ++ rest)
  \/ Obj.get "host" (req_headers request) = Some ("api." ++ rest)
  \/ Obj.get "host" (req_headers request) = None ->
  Router.fetch service request
  = ([], Ok (Router.descriptor
               (match Obj.get "host" (req_headers request) with
                | Some host => host
                | None => EmptyString
                end)
               (pathname request))).
Proof.
  intros [H|[H|H]]; unfold Router.fetch, header_value; rewrite H; reflexivity.
Qed.

Lemma router_describes_other_hosts_witness :
  Router.fetch (fun _ => throw (Error "called"))
    (mkRequest "GET" "/kit" EmptyString [] [("host", "brand.blackroad.io")] None)
  = ([], Ok (Router.descriptor "brand.blackroad.io" "/kit")).
Proof.
  apply (router_describes_other_hosts
           (mkRequest "GET" "/kit" EmptyString [] [("host", "brand.blackroad.io")] None)
           "blackroad.io").
  left. reflexivity.
Defined.
